(** * Note sharing service: access decision, revision ledger, share lifecycle
      and socket fan-out.

    A shallow embedding of [server/src/services/note.service.ts],
    [server/src/services/socket.service.ts] and the entities
    [Note], [NoteShare], [NoteRevision], [User].

    Modelling conventions.
    - The relational store is a record of tables; every table is a list of
      rows in insertion order.  A relation loaded by [findOne] ([note.shares],
      [share.sharedWith], [note.owner]) is the join over the foreign key.
    - Primary keys and share tokens are generated outside the service (the
      database's uuid column, [uuidv4()]); the embedding takes them as
      arguments of the operation that consumes them.
    - [save] on a loaded entity writes the entity's own columns; timestamps
      ([createdAt], [updatedAt]) and [console.log] are left out.
    - Every service call runs to completion before the next one starts
      (no interleaving of [await] points).
    - A JS value that may be [undefined] or [null] is an [option]; the
      truthiness test of JS is [Js.truthy].  The version counter is an
      integer ([Z]); it only ever grows by one.
    - The store answers every statement, except in the cascade of
      [deleteNote], the one place where the service catches a storage
      failure: there an oracle says which statement throws.  The store keeps
      a journal of the writes it received, so that their order can be stated.
    - An emit is recorded as the deliveries socket.io makes when [emit] is
      called: one entry per receiving socket. *)

From Stdlib Require Import ZArith List Bool Lia Sorted Permutation.
From stdpp Require Import base strings gmap list.
Import ListNotations.

Local Open Scope Z_scope.
Local Open Scope string_scope.
Local Open Scope list_scope.

(** ** JavaScript truthiness of strings *)

Module Js.

(** [!!s] for a string: only the empty string is falsy. *)
Definition truthyStr (s : string) : bool :=
match s with
| EmptyString => false
| String _ _ => true
end.

(** [!!v] for [v : string | undefined | null]. *)
Definition truthy (v : option string) : bool :=
match v with
| Some s => truthyStr s
| None => false
end.

(** [a || b] on strings. *)
Definition orElse (a b : string) : string :=
if truthyStr a then a else b.

(** [a || b] where [a] may be undefined. *)
Definition orElseOpt (a : option string) (b : option string) : option string :=
if truthy a then a else b.

(** [v === s] for [v : string | null] and a string [s]. *)
Definition strictEq (v : option string) (s : string) : bool :=
match v with
| Some x => String.eqb x s
| None => false
end.

End Js.

(** ** Entities *)

Inductive SharePermission := READ | EDIT.

Definition SharePermission_eqb (a b : SharePermission) : bool :=
  match a, b with
  | READ, READ | EDIT, EDIT => true
  | _, _ => false
  end.

Module User.
Record t := mk {
  id : string;
  name : string;
  email : string
}.
End User.

Module Note.
Record t := mk {
  id : string;
  title : string;
  content : string;
  isArchived : bool;
  ownerId : string;
  version : Z
}.

Definition withVersion (v : Z) (n : t) : t :=
  mk (id n) (title n) (content n) (isArchived n) (ownerId n) v.

Definition withContent (c : string) (n : t) : t :=
  mk (id n) (title n) c (isArchived n) (ownerId n) (version n).

Definition withTitle (x : string) (n : t) : t :=
  mk (id n) x (content n) (isArchived n) (ownerId n) (version n).

Definition withArchived (b : bool) (n : t) : t :=
  mk (id n) (title n) (content n) b (ownerId n) (version n).

(** [incrementVersion() { this.version += 1; return this.version; }] *)
Definition incrementVersion (n : t) : Z * t :=
  let n' := withVersion (version n + 1) n in
  (version n', n').
End Note.

Module NoteShare.
Record t := mk {
  id : string;
  noteId : string;
  sharedWithId : option string;
  email : option string;
  permission : SharePermission;
  isAccepted : bool;
  isRevoked : bool;
  shareToken : option string
}.

Definition withSharedWithId (u : option string) (s : t) : t :=
  mk (id s) (noteId s) u (email s) (permission s) (isAccepted s)
     (isRevoked s) (shareToken s).

Definition withAccepted (b : bool) (s : t) : t :=
  mk (id s) (noteId s) (sharedWithId s) (email s) (permission s) b
     (isRevoked s) (shareToken s).

Definition withRevoked (b : bool) (s : t) : t :=
  mk (id s) (noteId s) (sharedWithId s) (email s) (permission s)
     (isAccepted s) b (shareToken s).
End NoteShare.

Module NoteRevision.
Record t := mk {
  id : string;
  content : string;
  version : Z;
  noteId : string;
  userId : string
}.
End NoteRevision.

(** A note as [findOne] returns it with
    [relations: ["owner", "shares", "shares.sharedWith"]], together with the
    [permission] property the service attaches to the object. *)
Record NoteEntity := mkEntity {
  row : Note.t;
  owner : option User.t;
  shares : list NoteShare.t;
  permission : option SharePermission
}.

Definition withRow (n : Note.t) (e : NoteEntity) : NoteEntity :=
  mkEntity n (owner e) (shares e) (permission e).

Definition withShares (l : list NoteShare.t) (e : NoteEntity) : NoteEntity :=
  mkEntity (row e) (owner e) l (permission e).

Definition withPermission (p : SharePermission) (e : NoteEntity) : NoteEntity :=
  mkEntity (row e) (owner e) (shares e) (Some p).

(** A share as [findOne] returns it with
    [relations: ["note", "note.owner", "sharedWith"]]. *)
Record ShareEntity := mkShareEntity {
  shareRow : NoteShare.t;
  shareNoteRel : option NoteEntity;      (* share.note, with note.owner *)
  sharedWithRel : option User.t          (* share.sharedWith *)
}.

(** ** The store *)

(** Writes the service sends to the database, in the order it sends them. *)
Inductive DbWrite :=
| InsertNote (id : string)
| UpdateNote (id : string)
| InsertRevision (id : string)
| InsertShare (id : string)
| UpdateShare (id : string)
| DeleteRevisionsOf (noteId : string)
| DeleteSharesOf (noteId : string)
| RemoveNote (id : string).

Record Store := mkStore {
  userRepository : list User.t;
  noteRepository : list Note.t;
  noteShareRepository : list NoteShare.t;
  revisionRepository : list NoteRevision.t;
  journal : list DbWrite
}.

Module Repo.

Definition findUser (uid : string) (db : Store) : option User.t :=
  List.find (fun u => String.eqb (User.id u) uid) (userRepository db).

Definition findUserByEmail (e : string) (db : Store) : option User.t :=
  List.find (fun u => String.eqb (User.email u) e) (userRepository db).

Definition sharesOf (nid : string) (db : Store) : list NoteShare.t :=
  List.filter (fun s => String.eqb (NoteShare.noteId s) nid)
              (noteShareRepository db).

Definition revisionsOf (nid : string) (db : Store) : list NoteRevision.t :=
  List.filter (fun r => String.eqb (NoteRevision.noteId r) nid)
              (revisionRepository db).

Definition findNoteRow (nid : string) (db : Store) : option Note.t :=
  List.find (fun n => String.eqb (Note.id n) nid) (noteRepository db).

(** [noteRepository.findOne({ where: { id }, relations: [...] })] *)
Definition findNote (nid : string) (db : Store) : option NoteEntity :=
  match findNoteRow nid db with
  | Some n =>
      Some (mkEntity n (findUser (Note.ownerId n) db) (sharesOf (Note.id n) db) None)
  | None => None
  end.

Definition loadShare (s : NoteShare.t) (db : Store) : ShareEntity :=
  mkShareEntity s (findNote (NoteShare.noteId s) db)
                (match NoteShare.sharedWithId s with
                 | Some u => findUser u db
                 | None => None
                 end).

(** [noteShareRepository.findOne({ where: { shareToken: token }, relations })] *)
Definition findShareByToken (tok : string) (db : Store) : option ShareEntity :=
  option_map (fun s => loadShare s db)
    (List.find (fun s => Js.strictEq (NoteShare.shareToken s) tok)
               (noteShareRepository db)).

(** [noteShareRepository.findOne({ where: { id: shareId }, relations })] *)
Definition findShareById (sid : string) (db : Store) : option ShareEntity :=
  option_map (fun s => loadShare s db)
    (List.find (fun s => String.eqb (NoteShare.id s) sid)
               (noteShareRepository db)).

(** [revisionRepository.findOne({ where: { id: revisionId, noteId } })] *)
Definition findRevision (rid nid : string) (db : Store) : option NoteRevision.t :=
  List.find (fun r => String.eqb (NoteRevision.id r) rid
                      && String.eqb (NoteRevision.noteId r) nid)
            (revisionRepository db).

Definition log (w : DbWrite) (db : Store) : Store :=
  mkStore (userRepository db) (noteRepository db) (noteShareRepository db)
          (revisionRepository db) (journal db ++ [w]).

Definition insertNote (n : Note.t) (db : Store) : Store :=
  log (InsertNote (Note.id n))
    (mkStore (userRepository db) (noteRepository db ++ [n])
             (noteShareRepository db) (revisionRepository db) (journal db)).

Definition updateNote (n : Note.t) (db : Store) : Store :=
  log (UpdateNote (Note.id n))
    (mkStore (userRepository db)
             (List.map (fun r => if String.eqb (Note.id r) (Note.id n) then n else r)
                       (noteRepository db))
             (noteShareRepository db) (revisionRepository db) (journal db)).

Definition insertRevision (r : NoteRevision.t) (db : Store) : Store :=
  log (InsertRevision (NoteRevision.id r))
    (mkStore (userRepository db) (noteRepository db) (noteShareRepository db)
             (revisionRepository db ++ [r]) (journal db)).

Definition insertShare (s : NoteShare.t) (db : Store) : Store :=
  log (InsertShare (NoteShare.id s))
    (mkStore (userRepository db) (noteRepository db)
             (noteShareRepository db ++ [s]) (revisionRepository db) (journal db)).

Definition updateShare (s : NoteShare.t) (db : Store) : Store :=
  log (UpdateShare (NoteShare.id s))
    (mkStore (userRepository db) (noteRepository db)
             (List.map (fun r => if String.eqb (NoteShare.id r) (NoteShare.id s)
                                 then s else r)
                       (noteShareRepository db))
             (revisionRepository db) (journal db)).

(** [delete().from(NoteRevision).where("noteId = :noteId")] *)
Definition deleteRevisionsOf (nid : string) (db : Store) : Store :=
  log (DeleteRevisionsOf nid)
    (mkStore (userRepository db) (noteRepository db) (noteShareRepository db)
             (List.filter (fun r => negb (String.eqb (NoteRevision.noteId r) nid))
                          (revisionRepository db))
             (journal db)).

(** [delete().from(NoteShare).where("noteId = :noteId")] *)
Definition deleteSharesOf (nid : string) (db : Store) : Store :=
  log (DeleteSharesOf nid)
    (mkStore (userRepository db) (noteRepository db)
             (List.filter (fun s => negb (String.eqb (NoteShare.noteId s) nid))
                          (noteShareRepository db))
             (revisionRepository db) (journal db)).

(** [noteRepository.remove(note)] *)
Definition removeNote (nid : string) (db : Store) : Store :=
  log (RemoveNote nid)
    (mkStore (userRepository db)
             (List.filter (fun n => negb (String.eqb (Note.id n) nid))
                          (noteRepository db))
             (noteShareRepository db) (revisionRepository db) (journal db)).

End Repo.

(** ** Sockets, rooms and emitted events *)

Module Socket.
(** [AuthenticatedSocket]: [currentRooms] is the set the service keeps on
    the socket object; [rooms] is the membership socket.io itself keeps
    ([socket.join] / [socket.leave]). *)
Record t := mk {
  sid : nat;
  userId : option string;
  currentRooms : gset string;
  rooms : gset string
}.
End Socket.

Inductive NotificationData :=
| ShareAccepted (noteId byId byName : string)
| ShareDeclined (noteId byId byName : string)
| ShareRevoked (noteId noteTitle shareId : string)
| ShareRevokedByOwner (noteId shareId : string).

(** One constructor per server-to-client event. *)
Inductive Payload :=
| ErrorEvent (message : string)
| ContentUpdate (noteId content : string) (title : option string)
                (cursorPosition : option (string * Z))
                (userId : string) (timestamp : Z)
| Notification (message : string) (data : NotificationData)
| ShareUpdated (noteId shareId : string) (revoked : bool)
               (share : NoteShare.t) (sharedWith : option User.t)
               (noteTitle : string)
| NoteShared (noteId sharedBy : string)
| UserJoined (userId : string) (activeUsers : gset string)
| ActiveUsers (noteId : string) (activeUsers : gset string)
| UserLeft (userId : string) (activeUsers : gset string).

Definition eventName (p : Payload) : string :=
  match p with
  | ErrorEvent _ => "error"
  | ContentUpdate _ _ _ _ _ _ => "content-update"
  | Notification _ _ => "notification"
  | ShareUpdated _ _ _ _ _ _ => "share:updated"
  | NoteShared _ _ => "note-shared"
  | UserJoined _ _ => "user-joined"
  | ActiveUsers _ _ => "active-users"
  | UserLeft _ _ => "user-left"
  end.

(** The four ways the service addresses an emit. *)
Inductive Target :=
| ToAll                                    (* io.emit *)
| ToRoom (room : string)                   (* io.to(room).emit *)
| ToRoomExcept (room : string) (sender : nat)  (* socket.to(room).emit *)
| ToSocket (s : nat).                      (* socket.emit *)

Record SocketService := mkSocketService {
  sockets : list Socket.t;
  activeUsers : gmap string (gset string);   (* noteId -> user ids *)
  userRooms : gmap string string             (* userId -> room name *)
}.

Definition inRoom (room : string) (s : Socket.t) : bool :=
  bool_decide (room ∈ Socket.rooms s).

(** Who receives an emit, as socket.io resolves it when [emit] is called. *)
Definition receivers (t : Target) (ss : list Socket.t) : list nat :=
  match t with
  | ToAll => List.map Socket.sid ss
  | ToRoom room => List.map Socket.sid (List.filter (inRoom room) ss)
  | ToRoomExcept room sender =>
      List.map Socket.sid
        (List.filter (fun s => inRoom room s && negb (Nat.eqb (Socket.sid s) sender)) ss)
  | ToSocket s => [s]
  end.

Definition noteRoom (noteId : string) : string := "note:" +:+ noteId.
Definition userRoom (userId : string) : string := "user:" +:+ userId.

(** ** The world and the monad of service calls *)

Record World := mkWorld {
  db : Store;
  io : SocketService;
  outbox : list (nat * Payload)    (* deliveries: receiving socket, event *)
}.

Inductive outcome (A : Type) :=
| Ok (a : A)
| Throw (message : string).
Arguments Ok {A} a.
Arguments Throw {A} message.

(** A call may read and change the world and either returns or throws; what
    it changed before throwing stays changed. *)
Definition M (A : Type) : Type := World -> outcome A * World.

Definition ret {A} (a : A) : M A := fun w => (Ok a, w).
Definition throw {A} (msg : string) : M A := fun w => (Throw msg, w).

Definition bind {A B} (m : M A) (k : A -> M B) : M B :=
  fun w =>
    match m w with
    | (Ok a, w') => k a w'
    | (Throw e, w') => (Throw e, w')
    end.

(** [try { m } catch (error) { h(error.message) }] *)
Definition tryCatch {A} (m : M A) (h : string -> M A) : M A :=
  fun w =>
    match m w with
    | (Ok a, w') => (Ok a, w')
    | (Throw e, w') => h e w'
    end.

Notation "'let*' x ':=' c1 'in' c2" := (bind c1 (fun x => c2))
  (at level 10, x name, c1 at level 100, c2 at level 200).

Definition query {A} (f : Store -> A) : M A := fun w => (Ok (f (db w)), w).

Definition write (f : Store -> Store) : M unit :=
  fun w => (Ok tt, mkWorld (f (db w)) (io w) (outbox w)).

Definition emit (t : Target) (p : Payload) : M unit :=
  fun w =>
    (Ok tt,
     mkWorld (db w) (io w)
             (outbox w ++ List.map (fun r => (r, p)) (receivers t (sockets (io w))))).

Definition when (b : bool) (m : M unit) : M unit :=
  if b then m else ret tt.

(** ** SocketService: the methods the note service calls *)

(** [notifyNoteShared]: [io.to(`user:${userId}`).emit("note-shared", ...)] *)
Definition notifyNoteShared (userId noteId sharerName : string) : M unit :=
  emit (ToRoom (userRoom userId)) (NoteShared noteId sharerName).

(** [sendUserNotification]: emits only when [userRooms[userId]] is set. *)
Definition sendUserNotification (userId message : string) (data : NotificationData)
  : M unit :=
  fun w =>
    match userRooms (io w) !! userId with
    | Some room =>
        if Js.truthyStr room
        then emit (ToRoom room) (Notification message data) w
        else (Ok tt, w)
    | None => (Ok tt, w)
    end.

(** [broadcastShareUpdate]: [this.io.emit("share:updated", data)] *)
Definition broadcastShareUpdate (noteId shareId : string) (revoked : bool)
    (share : NoteShare.t) (sharedWith : option User.t) (noteTitle : string) : M unit :=
  emit ToAll (ShareUpdated noteId shareId revoked share sharedWith noteTitle).

(** ** NoteService *)

Record NoteInput := mkNoteInput {
  input_title : string;
  input_content : string
}.

(** [NoteUpdateInput]: every field optional. *)
Record NoteUpdateInput := mkPatch {
  patch_title : option string;
  patch_content : option string;
  patch_isArchived : option bool
}.

Record ShareNoteInput := mkShareInput {
  share_noteId : string;
  share_email : string;
  share_permission : option SharePermission   (* defaults to READ *)
}.

(** The callback of [note.shares.find] in [getNoteById], [updateNote] and
    [restoreRevision]:
    [s.sharedWithId === userId && !s.isRevoked && s.isAccepted]. *)
Definition grantsAccess (userId : string) (s : NoteShare.t) : bool :=
  Js.strictEq (NoteShare.sharedWithId s) userId
  && negb (NoteShare.isRevoked s)
  && NoteShare.isAccepted s.

(** [Object.assign(note, updateData)] *)
Definition assignPatch (p : NoteUpdateInput) (n : Note.t) : Note.t :=
  let n1 := match patch_title p with Some x => Note.withTitle x n | None => n end in
  let n2 := match patch_content p with Some c => Note.withContent c n1 | None => n1 end in
  match patch_isArchived p with Some b => Note.withArchived b n2 | None => n2 end.

Definition nullDeref : string := "Cannot read properties of null".

Definition msgNoAccess : string := "You do not have permission to access this note".
Definition msgNoEdit : string := "You do not have permission to edit this note".
Definition msgNoteNotFound : string := "Note not found".
Definition msgOwnerDelete : string := "Only the owner can delete this note".
Definition msgInvalidToken : string := "Invalid share token".
Definition msgRevoked : string := "This share has been revoked".
Definition msgAlreadyAccepted : string := "This share has already been accepted".
Definition msgNotForYou : string := "This share was not intended for you".
Definition msgOtherEmail : string :=
  "This share was intended for a different email address".
Definition msgUserNotFound : string := "User not found".

(** What PostgreSQL answers when a statement sets [note_shares.noteId] to
    NULL: null value in column [noteId] of relation [note_shares] violates
    not-null constraint, with the two names in double quotes. *)
Definition msgShareNoteIdNull : string :=
  let quoted := fun name =>
    String (Ascii.ascii_of_nat 34) (name +:+ String (Ascii.ascii_of_nat 34) EmptyString) in
  "null value in column " +:+ quoted "noteId" +:+ " of relation "
  +:+ quoted "note_shares" +:+ " violates not-null constraint".

Section NoteService.

(** [this.socketService !== null]: whether the service was constructed with
    a socket service. *)
Variable socketService : bool.

Definition createNote (newNoteId newRevisionId : string)
    (userId : string) (noteData : NoteInput) : M Note.t :=
  let* user := query (Repo.findUser userId) in
  match user with
  | None => throw msgUserNotFound
  | Some _ =>
      let note := Note.mk newNoteId (input_title noteData) (input_content noteData)
                          false userId 1 in
      let* _ := write (Repo.insertNote note) in
      let revision := NoteRevision.mk newRevisionId (input_content noteData) 1
                                      (Note.id note) userId in
      let* _ := write (Repo.insertRevision revision) in
      ret note
  end.

Definition getNoteById (noteId userId : string) : M NoteEntity :=
  let* found := query (Repo.findNote noteId) in
  match found with
  | None => throw msgNoteNotFound
  | Some note =>
      if negb (String.eqb (Note.ownerId (row note)) userId) then
        match List.find (grantsAccess userId) (shares note) with
        | None => throw msgNoAccess
        | Some share =>
            ret (withShares [] (withPermission (NoteShare.permission share) note))
        end
      else
        ret (withShares [] (withPermission EDIT note))
  end.

Definition updateNote (newRevisionId : string)
    (noteId userId : string) (updateData : NoteUpdateInput) : M NoteEntity :=
  let* found := query (Repo.findNote noteId) in
  match found with
  | None => throw msgNoteNotFound
  | Some note =>
      let isOwner := String.eqb (Note.ownerId (row note)) userId in
      let share := List.find (grantsAccess userId) (shares note) in
      let shareIsEdit :=
        match share with
        | Some s => SharePermission_eqb (NoteShare.permission s) EDIT
        | None => false
        end in
      if negb isOwner && negb shareIsEdit then throw msgNoEdit
      else
        let contentChanged :=
          match patch_content updateData with
          | Some c => Js.truthyStr c && negb (String.eqb c (Note.content (row note)))
          | None => false
          end in
        let* bumped :=
          if contentChanged then
            let '(newVersion, n') := Note.incrementVersion (row note) in
            let revision := NoteRevision.mk newRevisionId (Note.content n')
                                            (newVersion - 1) noteId userId in
            let* _ := write (Repo.insertRevision revision) in
            ret n'
          else ret (row note) in
        let updated := assignPatch updateData bumped in
        let* _ := write (Repo.updateNote updated) in
        let perm :=
          match share with
          | Some s => if negb isOwner then NoteShare.permission s else EDIT
          | None => EDIT
          end in
        ret (withPermission perm (withRow updated note))
  end.

(** A database statement that may fail: [faults] says which statements
    throw, and with which message. *)
Definition exec (faults : DbWrite -> option string) (stmt : DbWrite)
    (effect : Store -> Store) : M unit :=
  match faults stmt with
  | Some msg => throw msg
  | None => write effect
  end.

Definition deleteNote (faults : DbWrite -> option string)
    (noteId userId : string) : M unit :=
  let* note := getNoteById noteId userId in
  if negb (String.eqb (Note.ownerId (row note)) userId) then throw msgOwnerDelete
  else
    tryCatch
      (let* _ := exec faults (DeleteRevisionsOf noteId)
                      (Repo.deleteRevisionsOf noteId) in
       let* _ := exec faults (DeleteSharesOf noteId)
                      (Repo.deleteSharesOf noteId) in
       exec faults (RemoveNote (Note.id (row note)))
            (Repo.removeNote (Note.id (row note))))
      (fun message =>
         throw ("Failed to delete note: " +:+ Js.orElse message "Database error")).

Definition displayName (u : User.t) : string :=
  Js.orElse (User.name u) (User.email u).

Definition shareNote (newShareId newToken : string)
    (userId : string) (shareData : ShareNoteInput) : M NoteShare.t :=
  let noteId := share_noteId shareData in
  let email := share_email shareData in
  let permission := default READ (share_permission shareData) in
  let* note := getNoteById noteId userId in
  match owner note with
  | None => throw nullDeref
  | Some o =>
      if negb (String.eqb (User.id o) userId)
      then throw "Only the owner can share this note"
      else
        let* targetUser := query (Repo.findUserByEmail email) in
        let share :=
          NoteShare.mk newShareId noteId (option_map User.id targetUser)
                       (Some email) permission false false (Some newToken) in
        let* _ := write (Repo.insertShare share) in
        let* _ :=
          match targetUser with
          | Some target =>
              if socketService then
                let* ownerUser := query (Repo.findUser userId) in
                let sharerName :=
                  match ownerUser with
                  | Some u => displayName u
                  | None => "Someone"
                  end in
                notifyNoteShared (User.id target) noteId sharerName
              else ret tt
          | None => ret tt
          end in
        ret share
  end.

(** [if (this.socketService && share.note.owner) sendUserNotification(...)] *)
Definition notifyOwner (loaded : ShareEntity) (message : string)
    (data : string -> NotificationData) : M unit :=
  if socketService then
    match shareNoteRel loaded with
    | None => throw nullDeref
    | Some n =>
        match owner n with
        | Some o => sendUserNotification (User.id o) message (data (Note.id (row n)))
        | None => ret tt
        end
    end
  else ret tt.

Definition acceptSharedNote (token userId : string) : M (option Note.t) :=
  let* found := query (Repo.findShareByToken token) in
  match found with
  | None => throw msgInvalidToken
  | Some loaded =>
      let share := shareRow loaded in
      if NoteShare.isRevoked share then throw msgRevoked
      else if NoteShare.isAccepted share then throw msgAlreadyAccepted
      else if Js.truthy (NoteShare.sharedWithId share)
              && negb (Js.strictEq (NoteShare.sharedWithId share) userId)
      then throw msgNotForYou
      else
        let* user := query (Repo.findUser userId) in
        match user with
        | None => throw msgUserNotFound
        | Some user =>
            if Js.truthy (NoteShare.email share)
               && negb (Js.strictEq (NoteShare.email share) (User.email user))
            then throw msgOtherEmail
            else
              let share' :=
                NoteShare.withAccepted true
                  (NoteShare.withSharedWithId (Some userId) share) in
              let* _ := write (Repo.updateShare share') in
              let* _ :=
                notifyOwner loaded
                  (displayName user +:+ " accepted your shared note")
                  (fun nid => ShareAccepted nid (User.id user) (displayName user)) in
              ret (option_map row (shareNoteRel loaded))
        end
  end.

Definition declineSharedNote (token userId : string) : M unit :=
  let* found := query (Repo.findShareByToken token) in
  match found with
  | None => throw msgInvalidToken
  | Some loaded =>
      let share := shareRow loaded in
      if NoteShare.isRevoked share then throw msgRevoked
      else if NoteShare.isAccepted share
      then throw "This share has already been accepted and cannot be declined"
      else if Js.truthy (NoteShare.sharedWithId share)
              && negb (Js.strictEq (NoteShare.sharedWithId share) userId)
      then throw msgNotForYou
      else
        let* user := query (Repo.findUser userId) in
        match user with
        | None => throw msgUserNotFound
        | Some user =>
            if Js.truthy (NoteShare.email share)
               && negb (Js.strictEq (NoteShare.email share) (User.email user))
            then throw msgOtherEmail
            else
              let share' :=
                NoteShare.withSharedWithId (Some userId)
                  (NoteShare.withRevoked true share) in
              let* _ := write (Repo.updateShare share') in
              notifyOwner loaded
                (displayName user +:+ " declined your shared note")
                (fun nid => ShareDeclined nid (User.id user) (displayName user))
        end
  end.

Definition revokeShare (shareId userId : string) : M unit :=
  let* found := query (Repo.findShareById shareId) in
  match found with
  | None => throw "Share not found"
  | Some loaded =>
      let share := shareRow loaded in
      let* note := getNoteById (NoteShare.noteId share) userId in
      match owner note with
      | None => throw nullDeref
      | Some o =>
          if negb (String.eqb (User.id o) userId)
          then throw "Only the owner can revoke shares"
          else
            let share' := NoteShare.withRevoked true share in
            let* _ := write (Repo.updateShare share') in
            let* _ :=
              if socketService && Js.truthy (NoteShare.sharedWithId share') then
                let recipient := default EmptyString (NoteShare.sharedWithId share') in
                let* _ := sendUserNotification recipient
                            "Access to a shared note has been revoked"
                            (ShareRevoked (NoteShare.noteId share')
                                          (Note.title (row note))
                                          (NoteShare.id share')) in
                broadcastShareUpdate (NoteShare.noteId share')
                  (NoteShare.id share') true share' (sharedWithRel loaded)
                  (Note.title (row note))
              else ret tt in
            if socketService then
              let who :=
                default "undefined"
                  (Js.orElseOpt (NoteShare.email share')
                                (option_map User.email (sharedWithRel loaded))) in
              sendUserNotification userId
                ("Share with " +:+ who +:+ " was revoked")
                (ShareRevokedByOwner (NoteShare.noteId share') (NoteShare.id share'))
            else ret tt
      end
  end.

(** The rows of [note_shares] that point to the note and are missing from
    the [shares] relation loaded on the entity. *)
Definition orphanedShares (note : NoteEntity) (db : Store) : list NoteShare.t :=
  List.filter
    (fun s => negb (List.existsb
                      (fun kept => String.eqb (NoteShare.id kept) (NoteShare.id s))
                      (shares note)))
    (Repo.sharesOf (Note.id (row note)) db).

(** [noteRepository.save(note)] for an entity that carries its [shares]
    relation: the save also detaches the orphaned share rows by setting their
    [noteId] to NULL.  [NoteShare.noteId] is not nullable, so with one such
    row the database refuses the statement and the save, the update of the
    note's row included, is rolled back. *)
Definition saveNote (note : NoteEntity) : M unit :=
  let* orphaned := query (orphanedShares note) in
  match orphaned with
  | [] => write (Repo.updateNote (row note))
  | _ :: _ => throw msgShareNoteIdNull
  end.

Definition restoreRevision (newRevisionId : string)
    (noteId revisionId userId : string) : M NoteEntity :=
  let* note := getNoteById noteId userId in
  let* _ :=
    if negb (String.eqb (Note.ownerId (row note)) userId) then
      match List.find (grantsAccess userId) (shares note) with
      | Some share =>
          if negb (SharePermission_eqb (NoteShare.permission share) EDIT)
          then throw msgNoEdit
          else ret tt
      | None => throw msgNoEdit
      end
    else ret tt in
  let* found := query (Repo.findRevision revisionId noteId) in
  match found with
  | None => throw "Revision not found"
  | Some revision =>
      let '(newVersion, n') := Note.incrementVersion (row note) in
      let newRevision := NoteRevision.mk newRevisionId (Note.content n')
                                         (newVersion - 1) noteId userId in
      let* _ := write (Repo.insertRevision newRevision) in
      let restored := Note.withContent (NoteRevision.content revision) n' in
      let* _ := saveNote (withRow restored note) in
      ret (withRow restored note)
  end.

End NoteService.

(** ** SocketService: connection handlers *)

Record ContentChange := mkChange {
  change_noteId : string;
  change_content : string;
  change_title : option string;
  change_cursorPosition : option (string * Z)
}.

Definition findSocket (sid : nat) (ss : SocketService) : option Socket.t :=
  List.find (fun s => Nat.eqb (Socket.sid s) sid) (sockets ss).

Definition modifyIo (f : SocketService -> SocketService) : M unit :=
  fun w => (Ok tt, mkWorld (db w) (f (io w)) (outbox w)).

Definition readIo {A} (f : SocketService -> A) : M A :=
  fun w => (Ok (f (io w)), w).

Definition updateSocket (sid : nat) (f : Socket.t -> Socket.t) (ss : SocketService)
  : SocketService :=
  mkSocketService
    (List.map (fun s => if Nat.eqb (Socket.sid s) sid then f s else s) (sockets ss))
    (activeUsers ss) (userRooms ss).

(** A handler registered on a socket runs on the socket as it is now. *)
Definition onSocket (sid : nat) (body : Socket.t -> M unit) : M unit :=
  fun w =>
    match findSocket sid (io w) with
    | Some socket => body socket w
    | None => (Ok tt, w)
    end.

(** [socket.userId] when it is truthy. *)
Definition authenticated (socket : Socket.t) : option string :=
  if Js.truthy (Socket.userId socket) then Socket.userId socket else None.

(** [this.io.on("connection", ...)]: the middleware has set [userId] and an
    empty [currentRooms]; the socket joins its personal room. *)
Definition onConnection (sid : nat) (userId : option string) : M unit :=
  let personal :=
    match (if Js.truthy userId then userId else None) with
    | Some u => {[ userRoom u ]}
    | None => ∅
    end in
  modifyIo (fun ss =>
    mkSocketService
      (sockets ss ++ [Socket.mk sid userId ∅ personal])
      (activeUsers ss)
      (match (if Js.truthy userId then userId else None) with
       | Some u => <[ u := userRoom u ]> (userRooms ss)
       | None => userRooms ss
       end)).

Definition joinRooms (room : string) (s : Socket.t) : Socket.t :=
  Socket.mk (Socket.sid s) (Socket.userId s)
            ({[ room ]} ∪ Socket.currentRooms s) ({[ room ]} ∪ Socket.rooms s).

Definition leaveRooms (room : string) (s : Socket.t) : Socket.t :=
  Socket.mk (Socket.sid s) (Socket.userId s)
            (Socket.currentRooms s ∖ {[ room ]}) (Socket.rooms s ∖ {[ room ]}).

Definition activeIn (noteId : string) (ss : SocketService) : gset string :=
  default ∅ (activeUsers ss !! noteId).

(** [socket.on("join-note", ...)] *)
Definition onJoinNote (sid : nat) (noteId : string) : M unit :=
  onSocket sid (fun socket =>
    tryCatch
      (match authenticated socket with
       | None => emit (ToSocket sid) (ErrorEvent "Authentication required")
       | Some userId =>
           let* allowed :=
             tryCatch (let* _ := getNoteById noteId userId in ret true)
                      (fun _ =>
                         let* _ := emit (ToSocket sid)
                                     (ErrorEvent "You do not have access to this note") in
                         ret false) in
           if allowed : bool then
             let roomName := noteRoom noteId in
             let* _ := modifyIo (updateSocket sid (joinRooms roomName)) in
             let* _ := modifyIo (fun ss =>
                         mkSocketService (sockets ss)
                           (<[ noteId := {[ userId ]} ∪ activeIn noteId ss ]> (activeUsers ss))
                           (userRooms ss)) in
             let* users := readIo (activeIn noteId) in
             let* _ := emit (ToRoomExcept roomName sid) (UserJoined userId users) in
             emit (ToSocket sid) (ActiveUsers noteId users)
           else ret tt
       end)
      (fun _ => emit (ToSocket sid) (ErrorEvent "Failed to join note"))).

(** [socket.on("leave-note", ...)] *)
Definition onLeaveNote (sid : nat) (noteId : string) : M unit :=
  onSocket sid (fun socket =>
    let roomName := noteRoom noteId in
    if bool_decide (roomName ∈ Socket.currentRooms socket) then
      let* _ := modifyIo (updateSocket sid (leaveRooms roomName)) in
      let* known := readIo (fun ss => bool_decide (is_Some (activeUsers ss !! noteId))) in
      match authenticated socket with
      | Some userId =>
          if known : bool then
            let* _ := modifyIo (fun ss =>
                        mkSocketService (sockets ss)
                          (<[ noteId := activeIn noteId ss ∖ {[ userId ]} ]> (activeUsers ss))
                          (userRooms ss)) in
            let* users := readIo (activeIn noteId) in
            emit (ToRoomExcept roomName sid) (UserLeft userId users)
          else ret tt
      | None => ret tt
      end
    else ret tt).

(** [socket.on("content-change", ...)].  [now] is [new Date()];
    [getNoteService()] builds a note service without a socket service. *)
Definition onContentChange (now : Z) (newRevisionId : string)
    (sid : nat) (change : ContentChange) : M unit :=
  onSocket sid (fun socket =>
    tryCatch
      (let noteId := change_noteId change in
       let roomName := noteRoom noteId in
       match authenticated socket with
       | None => emit (ToSocket sid) (ErrorEvent "Authentication required")
       | Some userId =>
           if bool_decide (roomName ∈ Socket.currentRooms socket) then
             let* _ := emit (ToRoomExcept roomName sid)
                         (ContentUpdate noteId (change_content change)
                            (change_title change) (change_cursorPosition change)
                            userId now) in
             if Js.truthy (change_title change) then
               tryCatch
                 (let* _ := updateNote newRevisionId noteId userId
                              (mkPatch (change_title change)
                                       (Some (change_content change)) None) in
                  ret tt)
                 (fun _ => emit (ToSocket sid) (ErrorEvent "Failed to save note"))
             else ret tt
           else ret tt
       end)
      (fun _ => emit (ToSocket sid) (ErrorEvent "Failed to process content change"))).

(** ** Notions used in the statements *)

(** A share row that gives [userId] access: bound to the user, accepted, not
    revoked. *)
Definition qualifies (userId : string) (s : NoteShare.t) : Prop :=
  NoteShare.sharedWithId s = Some userId
  /\ NoteShare.isAccepted s = true
  /\ NoteShare.isRevoked s = false.

(** The permission [updateNote] asks for: owner, or the share the scan finds
    carries [EDIT]. *)
Definition canEdit (userId : string) (note : NoteEntity) : bool :=
  String.eqb (Note.ownerId (row note)) userId
  || match List.find (grantsAccess userId) (shares note) with
     | Some s => SharePermission_eqb (NoteShare.permission s) EDIT
     | None => false
     end.

(** The revision ledger of a note. *)
Definition ledger (noteId : string) (w : World) : list NoteRevision.t :=
  Repo.revisionsOf noteId (db w).

(** The stored row of a note. *)
Definition stored (noteId : string) (w : World) : option Note.t :=
  Repo.findNoteRow noteId (db w).

(** The guard of the revision step of [updateNote]:
    [updateData.content && updateData.content !== note.content]. *)
Definition contentChanged (p : NoteUpdateInput) (n : Note.t) : bool :=
  match patch_content p with
  | Some c => Js.truthyStr c && negb (String.eqb c (Note.content n))
  | None => false
  end.

(** The snapshot [updateNote] and [restoreRevision] write: the content and
    the version the note had before the call. *)
Definition snapshotOf (revisionId noteId userId : string) (n : Note.t)
  : NoteRevision.t :=
  NoteRevision.mk revisionId (Note.content n) (Note.version n) noteId userId.





(** The message [deleteNote] rethrows when a cascade statement failed with
    [message]. *)
Definition deleteFailure (message : string) : string :=
  "Failed to delete note: " +:+ Js.orElse message "Database error".

(** A database that answers every statement. *)
Definition noFaults : DbWrite -> option string := fun _ => None.

(** The row [acceptSharedNote] saves, and the row [declineSharedNote] saves. *)
Definition accepted (userId : string) (s : NoteShare.t) : NoteShare.t :=
  NoteShare.withAccepted true (NoteShare.withSharedWithId (Some userId) s).

Definition declined (userId : string) (s : NoteShare.t) : NoteShare.t :=
  NoteShare.withSharedWithId (Some userId) (NoteShare.withRevoked true s).

(** The deliveries one [emit] adds to the outbox. *)
Definition deliveries (t : Target) (p : Payload) (ss : SocketService)
  : list (nat * Payload) :=
  List.map (fun r => (r, p)) (receivers t (sockets ss)).

(** The deliveries of one [sendUserNotification]. *)
Definition notificationDeliveries (userId message : string)
    (data : NotificationData) (ss : SocketService) : list (nat * Payload) :=
  match userRooms ss !! userId with
  | Some room =>
      if Js.truthyStr room
      then deliveries (ToRoom room) (Notification message data) ss
      else []
  | None => []
  end.

(** The deliveries of a successful [revokeShare], in the order of the emits. *)
Definition revokeDeliveries (socketService : bool) (userId : string)
    (loaded : ShareEntity) (noteTitle : string) (ss : SocketService)
  : list (nat * Payload) :=
  let share' := NoteShare.withRevoked true (shareRow loaded) in
  (if socketService && Js.truthy (NoteShare.sharedWithId share') then
     notificationDeliveries (default EmptyString (NoteShare.sharedWithId share'))
       "Access to a shared note has been revoked"
       (ShareRevoked (NoteShare.noteId share') noteTitle (NoteShare.id share')) ss
     ++ deliveries ToAll
          (ShareUpdated (NoteShare.noteId share') (NoteShare.id share') true share'
                        (sharedWithRel loaded) noteTitle) ss
   else [])
  ++ (if socketService then
        notificationDeliveries userId
          ("Share with "
           +:+ default "undefined"
                 (Js.orElseOpt (NoteShare.email share')
                               (option_map User.email (sharedWithRel loaded)))
           +:+ " was revoked")
          (ShareRevokedByOwner (NoteShare.noteId share') (NoteShare.id share')) ss
      else []).

(** *** The share lifecycle as a transition system *)

(** The four operations that write share rows, with their arguments. *)
Inductive ShareOp :=
| OpShareNote (newShareId newToken userId : string) (shareData : ShareNoteInput)
| OpAccept (token userId : string)
| OpDecline (token userId : string)
| OpRevoke (shareId userId : string).

(** The world after an operation, whether it returned or threw. *)
Definition runOp (socketService : bool) (op : ShareOp) (w : World) : World :=
  match op with
  | OpShareNote newShareId newToken userId shareData =>
      snd (shareNote socketService newShareId newToken userId shareData w)
  | OpAccept token userId => snd (acceptSharedNote socketService token userId w)
  | OpDecline token userId => snd (declineSharedNote socketService token userId w)
  | OpRevoke shareId userId => snd (revokeShare socketService shareId userId w)
  end.

Fixpoint runOps (socketService : bool) (ops : list ShareOp) (w : World) : World :=
  match ops with
  | [] => w
  | op :: rest => runOps socketService rest (runOp socketService op w)
  end.

Definition shareTable (w : World) : list NoteShare.t := noteShareRepository (db w).

Definition shareIds (w : World) : list string :=
  List.map NoteShare.id (shareTable w).

(** The id a [shareNote] brings for its new row is not in the table yet (the
    database generates a fresh uuid). *)
Definition freshFor (op : ShareOp) (w : World) : bool :=
  match op with
  | OpShareNote newShareId _ _ _ =>
      negb (List.existsb (String.eqb newShareId) (shareIds w))
  | _ => true
  end.

Fixpoint admissible (socketService : bool) (ops : list ShareOp) (w : World) : bool :=
  match ops with
  | [] => true
  | op :: rest =>
      freshFor op w && admissible socketService rest (runOp socketService op w)
  end.

(** How a share row may differ from an earlier state of the same row. *)
Definition evolves (s s' : NoteShare.t) : Prop :=
  NoteShare.id s' = NoteShare.id s
  /\ (NoteShare.isRevoked s = true -> NoteShare.isRevoked s' = true)
  /\ (NoteShare.isAccepted s = true -> NoteShare.isAccepted s' = true)
  /\ (NoteShare.isRevoked s = true ->
      NoteShare.isAccepted s' = NoteShare.isAccepted s).

(** One operation's effect on the share table. *)
Inductive tableStep (t t' : list NoteShare.t) : Prop :=
| StepSame : t' = t -> tableStep t t'
| StepSave (s s' : NoteShare.t) :
    In s t -> evolves s s' ->
    t' = List.map (fun r => if String.eqb (NoteShare.id r) (NoteShare.id s')
                            then s' else r) t ->
    tableStep t t'
| StepInsert (new : NoteShare.t) :
    ~ In (NoteShare.id new) (List.map NoteShare.id t) ->
    t' = t ++ [new] -> tableStep t t'.

(** The set the handlers test ([currentRooms]) and the membership socket.io
    delivers by ([rooms]) agree on every note room. *)
Definition inSync (ss : SocketService) : Prop :=
  forall c, In c (sockets ss) ->
    forall noteId, noteRoom noteId ∈ Socket.currentRooms c
                   <-> noteRoom noteId ∈ Socket.rooms c.

(** ** NoteService: the list queries *)

(** A note as the list queries return it: the row, the [owner] relation and
    the [permission] property where the service attaches one. *)
Record ListedNote := mkListed {
  listedRow : Note.t;
  listedOwner : option User.t;
  listedPermission : option SharePermission
}.

Definition listed (db : Store) (n : Note.t) : ListedNote :=
  mkListed n (Repo.findUser (Note.ownerId n) db) None.

(** [getUserNotes]: the notes the user owns; archived ones only on request. *)
Definition getUserNotes (userId : string) (includeArchived : bool)
  : M (list ListedNote) :=
  query (fun db =>
    let owned := List.filter (fun n => String.eqb (Note.ownerId n) userId)
                             (noteRepository db) in
    List.map (listed db)
      (if negb includeArchived
       then List.filter (fun n => Bool.eqb (Note.isArchived n) false) owned
       else owned)).

(** The [where] of [getSharedNotes] and of the share query of [searchNotes]:
    [{ sharedWithId: userId, isAccepted: true, isRevoked: false }]. *)
Definition activeShareOf (userId : string) (s : NoteShare.t) : bool :=
  Js.strictEq (NoteShare.sharedWithId s) userId
  && Bool.eqb (NoteShare.isAccepted s) true
  && Bool.eqb (NoteShare.isRevoked s) false.

(** [shares.map((share) => { const note = share.note; note.permission = ...;
    return note; })]: dereferencing a share whose note is missing throws. *)
Fixpoint notesOfShares (db : Store) (l : list NoteShare.t)
  : outcome (list ListedNote) :=
  match l with
  | [] => Ok []
  | share :: rest =>
      match Repo.findNoteRow (NoteShare.noteId share) db with
      | None => Throw nullDeref
      | Some n =>
          match notesOfShares db rest with
          | Ok notes =>
              Ok (mkListed n (Repo.findUser (Note.ownerId n) db)
                           (Some (NoteShare.permission share)) :: notes)
          | Throw e => Throw e
          end
      end
  end.

Definition getSharedNotes (userId : string) : M (list ListedNote) :=
  fun w =>
    (notesOfShares (db w)
       (List.filter (activeShareOf userId) (noteShareRepository (db w))), w).

(** [getSharedByMeNotes]: the user's notes that have a share which is not
    revoked. *)
Definition getSharedByMeNotes (userId : string) : M (list NoteEntity) :=
  query (fun db =>
    List.filter
      (fun note => List.existsb (fun share => negb (NoteShare.isRevoked share))
                                (shares note))
      (List.map (fun n => mkEntity n (Repo.findUser (Note.ownerId n) db)
                                   (Repo.sharesOf (Note.id n) db) None)
                (List.filter (fun n => String.eqb (Note.ownerId n) userId)
                             (noteRepository db)))).

(** [order: { version: "DESC" }], as an insertion sort that keeps the stored
    order among revisions of one version (the database leaves that order
    open). *)
Fixpoint insertByVersion (r : NoteRevision.t) (l : list NoteRevision.t)
  : list NoteRevision.t :=
  match l with
  | [] => [r]
  | x :: rest =>
      if Z.ltb (NoteRevision.version r) (NoteRevision.version x)
      then x :: insertByVersion r rest
      else r :: x :: rest
  end.

Definition sortByVersionDesc (l : list NoteRevision.t) : list NoteRevision.t :=
  List.fold_right insertByVersion [] l.

(** [getNoteRevisions]: access is checked through [getNoteById]; each
    revision comes with its [user] relation. *)
Definition getNoteRevisions (noteId userId : string)
  : M (list (NoteRevision.t * option User.t)) :=
  let* _ := getNoteById noteId userId in
  query (fun db =>
    List.map (fun r => (r, Repo.findUser (NoteRevision.userId r) db))
             (sortByVersionDesc (Repo.revisionsOf noteId db))).

Section SearchNotes.

(** [text ILIKE pattern], decided by the database. *)
Variable ilike : string -> string -> bool.

Definition matchesQuery (q : string) (n : Note.t) : bool :=
  let pattern := "%" +:+ q +:+ "%" in
  ilike (Note.title n) pattern || ilike (Note.content n) pattern.

Definition searchNotes (userId q : string) : M (list ListedNote) :=
  let* ownedNotes :=
    query (fun db =>
      List.map (listed db)
        (List.filter (fun n => String.eqb (Note.ownerId n) userId
                               && matchesQuery q n
                               && Bool.eqb (Note.isArchived n) false)
                     (noteRepository db))) in
  let* sharedNoteIds :=
    query (fun db =>
      List.map NoteShare.noteId
        (List.filter (activeShareOf userId) (noteShareRepository db))) in
  if Nat.eqb (length sharedNoteIds) 0 then ret ownedNotes
  else
    let* sharedNotes :=
      query (fun db =>
        List.map (listed db)
          (List.filter (fun n => List.existsb (String.eqb (Note.id n)) sharedNoteIds
                                 && matchesQuery q n
                                 && Bool.eqb (Note.isArchived n) false)
                       (noteRepository db))) in
    ret (ownedNotes ++ sharedNotes).

End SearchNotes.

(** *** getPendingShares *)

(** An entry of the result: [{ ...share.note, shareToken, shareId }]. *)
Record PendingNote := mkPending {
  pendingRow : Note.t;
  pendingOwner : option User.t;
  pendingToken : option string;
  pendingShareId : string
}.

(** A JS [Map] keyed by note id: [set] on a key it has keeps the key's place,
    [set] on a new key appends; [values()] follows that order. *)
Definition mapHas (k : string) (m : list (string * PendingNote)) : bool :=
  List.existsb (fun kv => String.eqb (fst kv) k) m.

Definition mapGet (k : string) (m : list (string * PendingNote))
  : option PendingNote :=
  option_map snd (List.find (fun kv => String.eqb (fst kv) k) m).

Definition mapSet (k : string) (v : PendingNote) (m : list (string * PendingNote))
  : list (string * PendingNote) :=
  if mapHas k m
  then List.map (fun kv => if String.eqb (fst kv) k then (k, v) else kv) m
  else m ++ [(k, v)].

(** The shares of a query together with their [note] relation; reading
    [share.note.id] of a share whose note is missing throws. *)
Fixpoint withNotes (db : Store) (l : list NoteShare.t)
  : outcome (list (NoteShare.t * NoteEntity)) :=
  match l with
  | [] => Ok []
  | share :: rest =>
      match Repo.findNote (NoteShare.noteId share) db with
      | None => Throw nullDeref
      | Some note =>
          match withNotes db rest with
          | Ok l' => Ok ((share, note) :: l')
          | Throw e => Throw e
          end
      end
  end.

(** The body of the [forEach] that fills the map. *)
Definition collectPending (m : list (string * PendingNote))
    (entry : NoteShare.t * NoteEntity) : list (string * PendingNote) :=
  let '(share, note) := entry in
  let noteId := Note.id (row note) in
  if negb (mapHas noteId m)
     || (Js.truthy (NoteShare.shareToken share)
         && negb (Js.truthy
                    (match mapGet noteId m with
                     | Some existing => pendingToken existing
                     | None => None
                     end)))
  then mapSet noteId
         (mkPending (row note) (owner note) (NoteShare.shareToken share)
                    (NoteShare.id share)) m
  else m.

Section PendingShares.

(** Whether the store applies [sharedWithId: null] of the by-email query as
    [IS NULL] (it does in some versions of the query layer and drops the
    condition in others). *)
Variable nullMeansIsNull : bool.

Definition pendingForUser (userId : string) (s : NoteShare.t) : bool :=
  Js.strictEq (NoteShare.sharedWithId s) userId
  && Bool.eqb (NoteShare.isAccepted s) false
  && Bool.eqb (NoteShare.isRevoked s) false.

Definition pendingForEmail (email : string) (s : NoteShare.t) : bool :=
  Js.strictEq (NoteShare.email s) email
  && (if nullMeansIsNull
      then match NoteShare.sharedWithId s with None => true | Some _ => false end
      else true)
  && Bool.eqb (NoteShare.isAccepted s) false
  && Bool.eqb (NoteShare.isRevoked s) false.

Definition getPendingShares (userId : string) : M (list PendingNote) :=
  fun w =>
    match withNotes (db w)
            (List.filter (pendingForUser userId) (noteShareRepository (db w))) with
    | Throw e => (Throw e, w)
    | Ok sharesByUserId =>
        match Repo.findUser userId (db w) with
        | None => (Throw msgUserNotFound, w)
        | Some user =>
            match withNotes (db w)
                    (List.filter (pendingForEmail (User.email user))
                                 (noteShareRepository (db w))) with
            | Throw e => (Throw e, w)
            | Ok sharesByEmail =>
                (Ok (List.map snd
                       (List.fold_left collectPending
                                       (sharesByUserId ++ sharesByEmail) [])),
                 w)
            end
        end
    end.

End PendingShares.

(** ** Controllers: from the outcome of a service call to the HTTP response *)

(** [hay.includes(needle)] *)
Fixpoint includes (needle hay : string) : bool :=
  String.prefix needle hay
  || match hay with
     | EmptyString => false
     | String _ rest => includes needle rest
     end.

Record Response (A : Type) := mkResponse {
  status : nat;
  success : bool;
  message : string;
  data : option A
}.
Arguments mkResponse {A} status success message data.
Arguments status {A} r.
Arguments success {A} r.
Arguments message {A} r.
Arguments data {A} r.

Module Controller.

(** The shape the note controllers share: 401 without [req.currentUser];
    otherwise the service call, answered with 200 (and [data] where the
    controller sends it) when it returns and, when it throws, with 404 if the
    message includes one of [notFoundWords] and with 400 if it does not. *)
Definition handle {A B} (currentUser : option string) (okMessage : string)
    (notFoundWords : list string) (call : string -> M A) (toData : A -> option B)
    (w : World) : Response B * World :=
  match currentUser with
  | None => (mkResponse 401 false "Authentication required" None, w)
  | Some userId =>
      match call userId w with
      | (Ok a, w') => (mkResponse 200 true okMessage (toData a), w')
      | (Throw msg, w') =>
          if List.existsb (fun word => includes word msg) notFoundWords
          then (mkResponse 404 false msg None, w')
          else (mkResponse 400 false msg None, w')
      end
  end.

Definition getNoteById (currentUser : option string) (id : string)
  : World -> Response NoteEntity * World :=
  handle currentUser "Note retrieved successfully" ["not found"; "permission"]
         (fun userId => getNoteById id userId) Some.

Definition updateNote (newRevisionId : string) (currentUser : option string)
    (id : string) (body : NoteUpdateInput) : World -> Response NoteEntity * World :=
  handle currentUser "Note updated successfully" ["not found"; "permission"]
         (fun userId => updateNote newRevisionId id userId body) Some.

Definition deleteNote (faults : DbWrite -> option string)
    (currentUser : option string) (id : string) : World -> Response unit * World :=
  handle currentUser "Note deleted successfully" ["not found"; "permission"]
         (fun userId => deleteNote faults id userId) (fun _ => None).

Definition acceptShare (socketService : bool) (currentUser : option string)
    (token : string) : World -> Response (option Note.t) * World :=
  handle currentUser "Note share accepted successfully"
         ["Invalid"; "not found"; "not intended"]
         (fun userId => acceptSharedNote socketService token userId) Some.

Definition declineShare (socketService : bool) (currentUser : option string)
    (token : string) : World -> Response unit * World :=
  handle currentUser "Note share declined successfully"
         ["Invalid"; "not found"; "not intended"]
         (fun userId => declineSharedNote socketService token userId)
         (fun _ => None).

Definition revokeShare (socketService : bool) (currentUser : option string)
    (shareId : string) : World -> Response unit * World :=
  handle currentUser "Note share revoked successfully"
         ["not found"; "Only the owner"]
         (fun userId => revokeShare socketService shareId userId) (fun _ => None).

Definition restoreRevision (newRevisionId : string) (currentUser : option string)
    (id revisionId : string) : World -> Response NoteEntity * World :=
  handle currentUser "Note restored to previous revision successfully"
         ["not found"; "permission"]
         (fun userId => restoreRevision newRevisionId id revisionId userId) Some.

(** [getArchivedNotes]: [getUserNotes(userId, true)] filtered by
    [note.isArchived]; every failure is a 400. *)
Definition getArchivedNotes (currentUser : option string)
  : World -> Response (list ListedNote) * World :=
  handle currentUser "Archived notes retrieved successfully" []
         (fun userId =>
            let* allNotes := getUserNotes userId true in
            ret (List.filter (fun note => Note.isArchived (listedRow note)) allNotes))
         Some.

End Controller.

(** *** Runs of operations on notes *)

Inductive NoteOp :=
| OpCreateNote (newNoteId newRevisionId userId : string) (noteData : NoteInput)
| OpUpdateNote (newRevisionId noteId userId : string) (updateData : NoteUpdateInput)
| OpRestoreRevision (newRevisionId noteId revisionId userId : string).

(** The world after an operation, whether it returned or threw. *)
Definition runNoteOp (op : NoteOp) (w : World) : World :=
  match op with
  | OpCreateNote newNoteId newRevisionId userId noteData =>
      snd (createNote newNoteId newRevisionId userId noteData w)
  | OpUpdateNote newRevisionId noteId userId updateData =>
      snd (updateNote newRevisionId noteId userId updateData w)
  | OpRestoreRevision newRevisionId noteId revisionId userId =>
      snd (restoreRevision newRevisionId noteId revisionId userId w)
  end.

Fixpoint runNoteOps (ops : list NoteOp) (w : World) : World :=
  match ops with
  | [] => w
  | op :: rest => runNoteOps rest (runNoteOp op w)
  end.

(** The row [shareNote] inserts. *)
Definition invitation (newShareId newToken : string) (shareData : ShareNoteInput)
    (db : Store) : NoteShare.t :=
  NoteShare.mk newShareId (share_noteId shareData)
    (option_map User.id (Repo.findUserByEmail (share_email shareData) db))
    (Some (share_email shareData))
    (default READ (share_permission shareData)) false false (Some newToken).

(** The order of [getNoteRevisions]: no revision before one of a higher version. *)
Definition newerFirst (a b : NoteRevision.t) : Prop :=
  NoteRevision.version b <= NoteRevision.version a.

(** What the map of [getPendingShares] holds after the shares in [processed]
    went through the loop. *)
Definition pendingInv (processed : list (NoteShare.t * NoteEntity))
    (m : list (string * PendingNote)) : Prop :=
  List.NoDup (List.map fst m)
  /\ (forall k v, In (k, v) m ->
        exists share note,
          In (share, note) processed
          /\ k = Note.id (row note)
          /\ v = mkPending (row note) (owner note) (NoteShare.shareToken share)
                           (NoteShare.id share))
  /\ (forall share note, In (share, note) processed ->
        exists v, In (Note.id (row note), v) m
                  /\ (Js.truthy (NoteShare.shareToken share) = true ->
                      Js.truthy (pendingToken v) = true)).

(** *** Runs of socket events and service calls *)

Inductive Event :=
| EvConnection (sid : nat) (userId : option string)
| EvJoinNote (sid : nat) (noteId : string)
| EvLeaveNote (sid : nat) (noteId : string)
| EvContentChange (now : Z) (newRevisionId : string) (sid : nat)
                  (change : ContentChange)
| EvShareOp (socketService : bool) (op : ShareOp)
| EvNoteOp (op : NoteOp).

(** The world after an event, whatever the handler or the call answered. *)
Definition runEvent (ev : Event) (w : World) : World :=
  match ev with
  | EvConnection sid userId => snd (onConnection sid userId w)
  | EvJoinNote sid noteId => snd (onJoinNote sid noteId w)
  | EvLeaveNote sid noteId => snd (onLeaveNote sid noteId w)
  | EvContentChange now newRevisionId sid change =>
      snd (onContentChange now newRevisionId sid change w)
  | EvShareOp socketService op => runOp socketService op w
  | EvNoteOp op => runNoteOp op w
  end.

Fixpoint runEvents (evs : list Event) (w : World) : World :=
  match evs with
  | [] => w
  | ev :: rest => runEvents rest (runEvent ev w)
  end.

(** The socket service as its constructor leaves it: nobody connected. *)
Definition noConnections (ss : SocketService) : Prop :=
  sockets ss = [] /\ userRooms ss = ∅.

(** [userRooms] names personal rooms only, and a personal room holds the
    sockets authenticated as its user and no others. *)
Definition personalRooms (ss : SocketService) : Prop :=
  (forall u r, userRooms ss !! u = Some r -> r = userRoom u)
  /\ forall c, In c (sockets ss) -> forall u,
       (userRoom u ∈ Socket.rooms c <-> authenticated c = Some u)
       /\ (authenticated c = Some u -> userRooms ss !! u = Some (userRoom u)).

(** The socket service after a [join-note] that passed the access check. *)
Definition joined (sid : nat) (noteId userId : string) (ss : SocketService)
  : SocketService :=
  mkSocketService
    (sockets (updateSocket sid (joinRooms (noteRoom noteId)) ss))
    (<[ noteId := {[ userId ]} ∪ activeIn noteId ss ]> (activeUsers ss))
    (userRooms ss).

(** The socket service after a [leave-note] of a socket that was in the room
    of a note with an entry in [activeUsers]. *)
Definition left (sid : nat) (noteId userId : string) (ss : SocketService)
  : SocketService :=
  mkSocketService
    (sockets (updateSocket sid (leaveRooms (noteRoom noteId)) ss))
    (<[ noteId := activeIn noteId ss ∖ {[ userId ]} ]> (activeUsers ss))
    (userRooms ss).

(** The deliveries [sent] of a call on the share with this token all are
    notifications to sockets of the owner of the share's note. *)
Definition toldOnlyOwner (token : string) (w : World)
    (sent : list (nat * Payload)) : Prop :=
  forall r p, In (r, p) sent ->
    exists loaded n o c message data,
      Repo.findShareByToken token (db w) = Some loaded
      /\ shareNoteRel loaded = Some n /\ owner n = Some o
      /\ p = Notification message data
      /\ In c (sockets (io w)) /\ Socket.sid c = r
      /\ authenticated c = Some (User.id o).

(** ** Sample data *)

Module Demo.

Definition alice : User.t := User.mk "A" "Alice" "a@x.com".
Definition bob : User.t := User.mk "B" "Bob" "b@x.com".
Definition carol : User.t := User.mk "C" "Carol" "c@x.com".

Definition note1 : Note.t := Note.mk "n1" "T" "C1" false "A" 1.
Definition rev1 : NoteRevision.t := NoteRevision.mk "r1" "C1" 1 "n1" "A".

(** Bob holds an accepted edit share of Alice's note; Carol's read share was
    accepted and later revoked. *)
Definition shareBob : NoteShare.t :=
  NoteShare.mk "s1" "n1" (Some "B") (Some "b@x.com") EDIT true false (Some "tok1").
Definition shareCarol : NoteShare.t :=
  NoteShare.mk "s2" "n1" (Some "C") (Some "c@x.com") READ true true (Some "tok2").
(** A pending invitation for Bob, and one created with an empty email. *)
Definition sharePending : NoteShare.t :=
  NoteShare.mk "s3" "n1" (Some "B") (Some "b@x.com") READ false false (Some "tok3").
Definition shareNoEmail : NoteShare.t :=
  NoteShare.mk "s4" "n1" None (Some EmptyString) READ false false (Some "tok4").

Definition store : Store :=
  mkStore [alice; bob; carol] [note1]
          [shareBob; shareCarol; sharePending; shareNoEmail] [rev1]
          [].

(** Alice and Bob are connected and have joined the room of the note; Carol
    is connected and has joined no note room. *)
Definition socketA : Socket.t :=
  Socket.mk 1 (Some "A") {[ "note:n1" ]} {[ "user:A"; "note:n1" ]}.
Definition socketB : Socket.t :=
  Socket.mk 2 (Some "B") {[ "note:n1" ]} {[ "user:B"; "note:n1" ]}.
Definition socketC : Socket.t :=
  Socket.mk 3 (Some "C") ∅ {[ "user:C" ]}.

Definition service : SocketService :=
  mkSocketService [socketA; socketB; socketC]
    {[ "n1" := {[ "A"; "B" ]} ]}
    {[ "A" := "user:A"; "B" := "user:B"; "C" := "user:C" ]}.

Definition world : World := mkWorld store service [].

(** The world before anything was created. *)
Definition empty : World :=
  mkWorld (mkStore [alice; bob; carol] [] [] [] []) (mkSocketService [] ∅ ∅) [].

(** Alice invites Carol again; Bob accepts his pending invitation, Alice
    revokes it, Bob and Carol try their tokens again, Carol declines the
    invitation without email. *)
Definition lifecycle : list ShareOp :=
  [ OpShareNote "s5" "tok5" "A" (mkShareInput "n1" "c@x.com" (Some READ));
    OpAccept "tok3" "B";
    OpRevoke "s3" "A";
    OpAccept "tok3" "B";
    OpAccept "tok2" "C";
    OpDecline "tok4" "C" ].

(** A delta with a title, and the same delta with an empty title. *)
Definition save : ContentChange := mkChange "n1" "C2" (Some "T2") None.
Definition keystroke : ContentChange := mkChange "n1" "C2" (Some EmptyString) None.

(** Carol holds an accepted read share of a second note of Alice. *)
Definition note2 : Note.t := Note.mk "n2" "T2" "D1" false "A" 3.
Definition shareRead : NoteShare.t :=
  NoteShare.mk "s9" "n2" (Some "C") (Some "c@x.com") READ true false (Some "tok9").
Definition library : World :=
  mkWorld (mkStore [alice; bob; carol] [note1; note2] [shareBob; shareRead]
                   [rev1; NoteRevision.mk "r7" "D0" 2 "n2" "A";
                    NoteRevision.mk "r6" "D00" 1 "n2" "A"] [])
          service [].

(** Alice changes the content of the second note, Carol's update is refused,
    Alice's restore inserts its snapshot and then fails on the save because
    the note is shared, Bob creates a note, Alice renames the second note. *)
Definition edits : list NoteOp :=
  [ OpUpdateNote "r10" "n2" "A" (mkPatch None (Some "D2") None);
    OpUpdateNote "r11" "n2" "C" (mkPatch None (Some "X") None);
    OpRestoreRevision "r12" "n2" "r7" "A";
    OpCreateNote "n3" "r13" "B" (mkNoteInput "T3" "E1");
    OpUpdateNote "r14" "n2" "A" (mkPatch (Some "T2b") None None) ].

(** Carol has also declined a second invitation: that row is revoked and was
    never accepted. *)
Definition shareDeclined : NoteShare.t :=
  NoteShare.mk "s6" "n1" (Some "C") (Some "c@x.com") READ false true (Some "tok6").
(** An invitation sent to Carol's address that is bound to nobody yet. *)
Definition shareByEmail : NoteShare.t :=
  NoteShare.mk "s8" "n1" None (Some "c@x.com") READ false false (Some "tok8").
Definition afterDecline : World :=
  mkWorld (mkStore [alice; bob; carol] [note1]
                   [shareBob; shareCarol; sharePending; shareNoEmail; shareDeclined;
                    shareByEmail]
                   [rev1] [])
          service [].

(** Carol tries the tokens of her declined and of her revoked share again,
    Alice revokes Bob's share and the declined one, Bob accepts his pending
    invitation, Carol declines again, Alice invites Carol once more and Carol
    accepts. *)
Definition retries : list ShareOp :=
  [ OpAccept "tok6" "C";
    OpAccept "tok2" "C";
    OpRevoke "s1" "A";
    OpRevoke "s6" "A";
    OpAccept "tok3" "B";
    OpDecline "tok6" "C";
    OpShareNote "s7" "tok7" "A" (mkShareInput "n1" "c@x.com" (Some EDIT));
    OpAccept "tok7" "C" ].


(** A database whose share table refuses deletions. *)
Definition sharesLocked : DbWrite -> option string :=
  fun stmt =>
    match stmt with
    | DeleteSharesOf _ => Some "deadlock detected"
    | _ => None
    end.

End Demo.

(** * Properties *)

(** ** Lists and strings *)

Lemma find_replace {A} (key : A -> string) (k : string) (x a : A) (l : list A) :
  List.find (fun r => String.eqb (key r) k) l = Some a ->
  key x = k ->
  List.find (fun r => String.eqb (key r) k)
            (List.map (fun r => if String.eqb (key r) (key x) then x else r) l)
  = Some x.
Proof.
  intros Hfind Hk. subst k.
  induction l as [|r l IH]; simpl in *; [discriminate|].
  destruct (String.eqb (key r) (key x)) eqn:E.
  - simpl. rewrite String.eqb_refl. reflexivity.
  - simpl. rewrite E. apply IH. exact Hfind.
Qed.

Lemma findNoteRow_id nid db n :
  Repo.findNoteRow nid db = Some n -> Note.id n = nid.
Proof.
  unfold Repo.findNoteRow. intros H. apply List.find_some in H.
  destruct H as [_ H]. apply String.eqb_eq in H. exact H.
Qed.

Lemma findNote_inv nid db note :
  Repo.findNote nid db = Some note ->
  Repo.findNoteRow nid db = Some (row note)
  /\ Note.id (row note) = nid
  /\ shares note = Repo.sharesOf nid db
  /\ owner note = Repo.findUser (Note.ownerId (row note)) db
  /\ permission note = None.
Proof.
  unfold Repo.findNote. destruct (Repo.findNoteRow nid db) as [n|] eqn:E; [|discriminate].
  intros [= <-]. simpl. pose proof (findNoteRow_id _ _ _ E) as Hid.
  rewrite Hid. auto.
Qed.

Lemma grantsAccess_qualifies userId s :
  grantsAccess userId s = true <-> qualifies userId s.
Proof.
  unfold grantsAccess, qualifies, Js.strictEq.
  destruct (NoteShare.sharedWithId s) as [u|]; simpl.
  - rewrite !andb_true_iff, negb_true_iff, String.eqb_eq. split.
    + intros [[-> Hr] Ha]. auto.
    + intros [[= ->] [Ha Hr]]. auto.
  - split; [discriminate|]. intros [H _]. discriminate.
Qed.

(** ** Access decision *)

Lemma getNoteById_eq noteId userId w note :
  Repo.findNote noteId (db w) = Some note ->
  getNoteById noteId userId w =
    if negb (String.eqb (Note.ownerId (row note)) userId) then
      match List.find (grantsAccess userId) (shares note) with
      | None => (Throw msgNoAccess, w)
      | Some share =>
          (Ok (withShares [] (withPermission (NoteShare.permission share) note)), w)
      end
    else (Ok (withShares [] (withPermission EDIT note)), w).
Proof.
  intros H. unfold getNoteById, bind, query. rewrite H.
  destruct (negb (String.eqb (Note.ownerId (row note)) userId)); [|reflexivity].
  destruct (List.find (grantsAccess userId) (shares note)); reflexivity.
Qed.

Lemma getNoteById_missing noteId userId w :
  Repo.findNote noteId (db w) = None ->
  getNoteById noteId userId w = (Throw msgNoteNotFound, w).
Proof. intros H. unfold getNoteById, bind, query. rewrite H. reflexivity. Qed.

(** [getNoteById] never changes the world. *)
Lemma getNoteById_pure noteId userId w :
  snd (getNoteById noteId userId w) = w.
Proof.
  destruct (Repo.findNote noteId (db w)) as [note|] eqn:E.
  - rewrite (getNoteById_eq _ _ _ _ E).
    destruct (negb _); [|reflexivity].
    destruct (List.find _ _); reflexivity.
  - rewrite (getNoteById_missing _ _ _ E). reflexivity.
Qed.

(** C1.  For a stored note and any user: the owner is resolved to [EDIT]
    whatever share rows exist; a non-owner for whom some share of the note is
    bound to them, accepted and not revoked is resolved to the permission of
    such a share (the first one the scan meets); a non-owner without such a
    share is refused with the permission error, and the world is untouched. *)
Theorem getNoteById_access_decision (w : World) (noteId userId : string)
    (note : NoteEntity) :
  Repo.findNote noteId (db w) = Some note ->
  (Note.ownerId (row note) = userId ->
     getNoteById noteId userId w
     = (Ok (withShares [] (withPermission EDIT note)), w))
  /\ (Note.ownerId (row note) <> userId ->
      (exists s, In s (Repo.sharesOf noteId (db w)) /\ qualifies userId s) ->
      exists s, In s (Repo.sharesOf noteId (db w)) /\ qualifies userId s
        /\ List.find (grantsAccess userId) (Repo.sharesOf noteId (db w)) = Some s
        /\ getNoteById noteId userId w
           = (Ok (withShares [] (withPermission (NoteShare.permission s) note)), w))
  /\ (Note.ownerId (row note) <> userId ->
      (forall s, In s (Repo.sharesOf noteId (db w)) -> ~ qualifies userId s) ->
      getNoteById noteId userId w = (Throw msgNoAccess, w)).
Proof.
  intros Hfind. pose proof (findNote_inv _ _ _ Hfind) as (_ & _ & Hshares & _).
  rewrite (getNoteById_eq _ _ _ _ Hfind), Hshares.
  repeat split.
  - intros ->. rewrite String.eqb_refl. reflexivity.
  - intros Hne [s [Hin Hq]].
    apply String.eqb_neq in Hne. rewrite Hne. simpl.
    destruct (List.find (grantsAccess userId) (Repo.sharesOf noteId (db w)))
      as [s'|] eqn:E.
    + pose proof (List.find_some _ _ E) as [Hin' Hg].
      exists s'. repeat split; auto; apply grantsAccess_qualifies in Hg; apply Hg.
    + exfalso. pose proof (List.find_none _ _ E s Hin) as Hn.
      apply grantsAccess_qualifies in Hq. congruence.
  - intros Hne Hnone. apply String.eqb_neq in Hne. rewrite Hne. simpl.
    destruct (List.find (grantsAccess userId) (Repo.sharesOf noteId (db w)))
      as [s'|] eqn:E; [|reflexivity].
    exfalso. pose proof (List.find_some _ _ E) as [Hin' Hg].
    apply (Hnone s' Hin'). apply grantsAccess_qualifies. exact Hg.
Qed.

Lemma getNoteById_access_decision_witness :
  Repo.findNote "n1" (db Demo.world)
  = Some (mkEntity Demo.note1 (Some Demo.alice)
            [Demo.shareBob; Demo.shareCarol; Demo.sharePending; Demo.shareNoEmail]
            None)
  /\ getNoteById "n1" "A" Demo.world
     = (Ok (mkEntity Demo.note1 (Some Demo.alice) [] (Some EDIT)), Demo.world)
  /\ getNoteById "n1" "C" Demo.world = (Throw msgNoAccess, Demo.world).
Proof.
  split; [reflexivity|].
  pose proof (getNoteById_access_decision Demo.world "n1" "A" _ eq_refl)
    as (HA & _ & _).
  pose proof (getNoteById_access_decision Demo.world "n1" "C" _ eq_refl)
    as (_ & _ & HC).
  split.
  - apply HA. reflexivity.
  - apply HC; [discriminate|]. intros s Hin [Hb [Ha Hr]].
    simpl in Hin. destruct Hin as [<-|[<-|[<-|[<-|[]]]]]; discriminate.
Defined.

(** ** updateNote *)

Lemma assignPatch_id p n : Note.id (assignPatch p n) = Note.id n.
Proof.
  unfold assignPatch.
  destruct (patch_title p), (patch_content p), (patch_isArchived p); reflexivity.
Qed.

Lemma assignPatch_version p n : Note.version (assignPatch p n) = Note.version n.
Proof.
  unfold assignPatch.
  destruct (patch_title p), (patch_content p), (patch_isArchived p); reflexivity.
Qed.

Lemma assignPatch_content p n :
  Note.content (assignPatch p n) = default (Note.content n) (patch_content p).
Proof.
  unfold assignPatch.
  destruct (patch_title p), (patch_content p), (patch_isArchived p); reflexivity.
Qed.

Lemma updateNote_denied rid noteId userId p w note :
  Repo.findNote noteId (db w) = Some note ->
  canEdit userId note = false ->
  updateNote rid noteId userId p w = (Throw msgNoEdit, w).
Proof.
  intros Hfind Hperm. unfold updateNote, bind, query. rewrite Hfind.
  unfold canEdit in Hperm. apply orb_false_iff in Hperm as [Ho Hs].
  rewrite Ho. simpl.
  destruct (List.find (grantsAccess userId) (shares note)); simpl in *;
    rewrite ?Hs; reflexivity.
Qed.

(** What a permitted [updateNote] does to the world. *)
Lemma updateNote_permitted rid noteId userId p w note :
  Repo.findNote noteId (db w) = Some note ->
  canEdit userId note = true ->
  exists e,
    updateNote rid noteId userId p w =
      (Ok e,
       if contentChanged p (row note) then
         mkWorld (Repo.updateNote
                    (assignPatch p (Note.withVersion (Note.version (row note) + 1)
                                                     (row note)))
                    (Repo.insertRevision (snapshotOf rid noteId userId (row note))
                                         (db w)))
                 (io w) (outbox w)
       else
         mkWorld (Repo.updateNote (assignPatch p (row note)) (db w))
                 (io w) (outbox w))
    /\ row e = assignPatch p (if contentChanged p (row note)
                              then Note.withVersion (Note.version (row note) + 1)
                                                    (row note)
                              else row note).
Proof.
  intros Hfind Hperm. unfold updateNote, bind, query. rewrite Hfind.
  unfold canEdit in Hperm.
  assert (negb (String.eqb (Note.ownerId (row note)) userId)
          && negb match List.find (grantsAccess userId) (shares note) with
                  | Some s => SharePermission_eqb (NoteShare.permission s) EDIT
                  | None => false
                  end = false) as ->.
  { rewrite <- negb_orb, Hperm. reflexivity. }
  fold (contentChanged p (row note)).
  destruct (contentChanged p (row note)); simpl.
  - unfold snapshotOf. simpl. rewrite Z.add_simpl_r.
    eexists. split; reflexivity.
  - eexists. split; reflexivity.
Qed.

Lemma stored_after_update w n noteId old io' out' db' :
  Repo.findNoteRow noteId (db w) = Some old ->
  Note.id n = noteId ->
  noteRepository db' = noteRepository (db w) ->
  stored noteId (mkWorld (Repo.updateNote n db') io' out') = Some n.
Proof.
  intros Hold Hid Hrepo. unfold stored, Repo.findNoteRow, Repo.updateNote. simpl.
  rewrite Hrepo. eapply (find_replace Note.id); eauto.
Qed.

Lemma ledger_after_snapshot w n r noteId io' out' :
  NoteRevision.noteId r = noteId ->
  ledger noteId (mkWorld (Repo.updateNote n (Repo.insertRevision r (db w))) io' out')
  = ledger noteId w ++ [r].
Proof.
  intros Hid. unfold ledger, Repo.revisionsOf. simpl.
  rewrite List.filter_app. simpl. rewrite Hid, String.eqb_refl. reflexivity.
Qed.

(** A permitted update whose content is non-empty and differs from the stored
    one appends one snapshot of the old content at the old version, bumps the
    version by one and then writes the patched row. *)
Lemma updateNote_snapshots_changed_content rid noteId userId p w note :
  Repo.findNote noteId (db w) = Some note ->
  canEdit userId note = true ->
  contentChanged p (row note) = true ->
  exists e w',
    updateNote rid noteId userId p w = (Ok e, w')
    /\ revisionRepository (db w')
       = revisionRepository (db w) ++ [snapshotOf rid noteId userId (row note)]
    /\ ledger noteId w' = ledger noteId w ++ [snapshotOf rid noteId userId (row note)]
    /\ stored noteId w'
       = Some (assignPatch p (Note.withVersion (Note.version (row note) + 1)
                                               (row note)))
    /\ journal (db w') = journal (db w) ++ [InsertRevision rid; UpdateNote noteId]
    /\ io w' = io w /\ outbox w' = outbox w.
Proof.
  intros Hfind Hperm Hch.
  destruct (updateNote_permitted rid noteId userId p w note Hfind Hperm) as [e [He _]].
  rewrite Hch in He. eexists _, _. split; [exact He|].
  pose proof (findNote_inv _ _ _ Hfind) as (Hrow & Hid & _).
  split; [reflexivity|]. split; [|split; [|split; [|split; reflexivity]]].
  - apply ledger_after_snapshot. reflexivity.
  - eapply stored_after_update; eauto. rewrite assignPatch_id. exact Hid.
  - simpl. rewrite assignPatch_id. simpl. rewrite Hid, <- List.app_assoc. reflexivity.
Qed.

(** A permitted update that leaves the content field out (a title-only or an
    archive-only patch) writes no revision and keeps the version. *)
Lemma updateNote_without_content rid noteId userId p w note :
  Repo.findNote noteId (db w) = Some note ->
  canEdit userId note = true ->
  patch_content p = None ->
  exists e w',
    updateNote rid noteId userId p w = (Ok e, w')
    /\ revisionRepository (db w') = revisionRepository (db w)
    /\ stored noteId w' = Some (assignPatch p (row note))
    /\ Note.version (assignPatch p (row note)) = Note.version (row note).
Proof.
  intros Hfind Hperm Hnone.
  destruct (updateNote_permitted rid noteId userId p w note Hfind Hperm) as [e [He _]].
  unfold contentChanged in He. rewrite Hnone in He.
  eexists _, _. split; [exact He|].
  pose proof (findNote_inv _ _ _ Hfind) as (Hrow & Hid & _).
  split; [reflexivity|]. split.
  - eapply stored_after_update; eauto. rewrite assignPatch_id. exact Hid.
  - apply assignPatch_version.
Qed.

(** C9.  A permitted update whose content field is the empty string, on a note
    whose stored content is not empty, stores the empty content, writes no
    revision and keeps the version. *)
Theorem updateNote_empty_content_not_snapshotted (rid noteId userId : string)
    (p : NoteUpdateInput) (w : World) (note : NoteEntity) :
  Repo.findNote noteId (db w) = Some note ->
  canEdit userId note = true ->
  patch_content p = Some EmptyString ->
  Note.content (row note) <> EmptyString ->
  exists e w' n',
    updateNote rid noteId userId p w = (Ok e, w')
    /\ revisionRepository (db w') = revisionRepository (db w)
    /\ ledger noteId w' = ledger noteId w
    /\ stored noteId w' = Some n'
    /\ Note.content n' = EmptyString
    /\ Note.version n' = Note.version (row note).
Proof.
  intros Hfind Hperm Hempty _.
  destruct (updateNote_permitted rid noteId userId p w note Hfind Hperm) as [e [He _]].
  unfold contentChanged in He. rewrite Hempty in He. simpl in He.
  exists e, (mkWorld (Repo.updateNote (assignPatch p (row note)) (db w))
                     (io w) (outbox w)), (assignPatch p (row note)).
  pose proof (findNote_inv _ _ _ Hfind) as (Hrow & Hid & _).
  split; [exact He|]. split; [reflexivity|]. split; [reflexivity|].
  split; [|split].
  - eapply stored_after_update; eauto. rewrite assignPatch_id. exact Hid.
  - rewrite assignPatch_content, Hempty. reflexivity.
  - apply assignPatch_version.
Qed.

Lemma updateNote_empty_content_not_snapshotted_witness :
  Repo.findNote "n1" (db Demo.world)
  = Some (mkEntity Demo.note1 (Some Demo.alice)
            [Demo.shareBob; Demo.shareCarol; Demo.sharePending; Demo.shareNoEmail]
            None)
  /\ exists e w' n',
       updateNote "r2" "n1" "B" (mkPatch None (Some EmptyString) None) Demo.world
       = (Ok e, w')
       /\ revisionRepository (db w') = [Demo.rev1]
       /\ ledger "n1" w' = ledger "n1" Demo.world
       /\ stored "n1" w' = Some n'
       /\ Note.content n' = EmptyString
       /\ Note.version n' = 1.
Proof.
  split; [reflexivity|].
  apply (updateNote_empty_content_not_snapshotted "r2" "n1" "B"
           (mkPatch None (Some EmptyString) None) Demo.world _ eq_refl);
    [reflexivity | reflexivity | discriminate].
Defined.

(** C2, at the input where the code leaves the claim: Alice owns note [n1]
    whose stored content is [C1]; her patch carries the content field, set to
    the empty string, which differs from [C1].  The update succeeds and
    stores the empty content, but the ledger still holds only the initial
    revision and the version is still 1. *)
Example updateNote_present_empty_content_unsnapshotted :
  let p := mkPatch None (Some EmptyString) None in
  stored "n1" Demo.world = Some Demo.note1
  /\ canEdit "A" (mkEntity Demo.note1 (Some Demo.alice)
                    (Repo.sharesOf "n1" Demo.store) None) = true
  /\ patch_content p <> None
  /\ patch_content p <> Some (Note.content Demo.note1)
  /\ exists e w',
       updateNote "r2" "n1" "A" p Demo.world = (Ok e, w')
       /\ ledger "n1" w' = [Demo.rev1]
       /\ stored "n1" w' = Some (Note.mk "n1" "T" EmptyString false "A" 1).
Proof.
  repeat (split; [first [reflexivity | discriminate]|]).
  eexists _, _. split; [vm_compute; reflexivity|]. split; reflexivity.
Qed.

(** ** createNote and the revision ledger *)

Lemma findNote_of_stored noteId w n :
  stored noteId w = Some n ->
  Repo.findNote noteId (db w)
  = Some (mkEntity n (Repo.findUser (Note.ownerId n) (db w))
                   (Repo.sharesOf (Note.id n) (db w)) None).
Proof. unfold stored, Repo.findNote. intros ->. reflexivity. Qed.


Lemma createNote_eq nid rid userId data w u :
  Repo.findUser userId (db w) = Some u ->
  createNote nid rid userId data w =
    (Ok (Note.mk nid (input_title data) (input_content data) false userId 1),
     mkWorld
       (Repo.insertRevision
          (NoteRevision.mk rid (input_content data) 1 nid userId)
          (Repo.insertNote
             (Note.mk nid (input_title data) (input_content data) false userId 1)
             (db w)))
       (io w) (outbox w)).
Proof.
  intros Hu. unfold createNote, bind, query. rewrite Hu. reflexivity.
Qed.

Lemma find_app_none {A} (f : A -> bool) (l l' : list A) :
  List.find f l = None -> List.find f (l ++ l') = List.find f l'.
Proof.
  induction l as [|x l IH]; simpl; [reflexivity|].
  destruct (f x); [discriminate|]. exact IH.
Qed.

Lemma find_replace_other {A} (key : A -> string) (k : string) (x : A) (l : list A) :
  key x <> k ->
  List.find (fun r => String.eqb (key r) k)
            (List.map (fun r => if String.eqb (key r) (key x) then x else r) l)
  = List.find (fun r => String.eqb (key r) k) l.
Proof.
  intros Hne. apply String.eqb_neq in Hne.
  induction l as [|r l IH]; simpl; [reflexivity|].
  destruct (String.eqb (key r) (key x)) eqn:E.
  - apply String.eqb_eq in E. rewrite E, Hne. exact IH.
  - rewrite IH. reflexivity.
Qed.


(** Either [updateNote] throws and leaves the world as it was, or it writes
    the patched row, after the snapshot when the content changed. *)
Lemma updateNote_cases rid noteId userId p w :
  (exists msg, updateNote rid noteId userId p w = (Throw msg, w))
  \/ (exists note e,
        Repo.findNote noteId (db w) = Some note
        /\ canEdit userId note = true
        /\ updateNote rid noteId userId p w =
             (Ok e,
              if contentChanged p (row note) then
                mkWorld (Repo.updateNote
                           (assignPatch p (Note.withVersion
                                             (Note.version (row note) + 1) (row note)))
                           (Repo.insertRevision
                              (snapshotOf rid noteId userId (row note)) (db w)))
                        (io w) (outbox w)
              else
                mkWorld (Repo.updateNote (assignPatch p (row note)) (db w))
                        (io w) (outbox w))).
Proof.
  destruct (Repo.findNote noteId (db w)) as [note|] eqn:Hfind.
  - destruct (canEdit userId note) eqn:Hperm.
    + right. destruct (updateNote_permitted rid noteId userId p w note Hfind Hperm)
        as [e [He _]]. exists note, e. auto.
    + left. exists msgNoEdit. apply (updateNote_denied _ _ _ _ _ _ Hfind Hperm).
  - left. exists msgNoteNotFound. unfold updateNote, bind, query.
    rewrite Hfind. reflexivity.
Qed.


(** What one write of a note row does to the row stored under any id. *)
Lemma stored_after_write nid (x : Note.t) (old : Note.t) db0 db1 io' out' :
  noteRepository db1 = noteRepository db0 ->
  List.find (fun n => String.eqb (Note.id n) (Note.id x)) (noteRepository db0)
  = Some old ->
  forall n, Repo.findNoteRow nid db0 = Some n ->
    stored nid (mkWorld (Repo.updateNote x db1) io' out')
    = Some (if String.eqb (Note.id x) nid then x else n).
Proof.
  intros Hrepo Hold n Hn. unfold stored, Repo.findNoteRow, Repo.updateNote. simpl.
  rewrite Hrepo. destruct (String.eqb (Note.id x) nid) eqn:E.
  - apply String.eqb_eq in E. eapply (find_replace Note.id); eauto.
  - apply String.eqb_neq in E. rewrite (find_replace_other Note.id) by exact E.
    exact Hn.
Qed.










(** ** restoreRevision *)

(** C5, where the code leaves the claim.  A user who is not the owner and
    whose share of the note is accepted, not revoked and carries [EDIT] may
    edit the note through [updateNote], yet [restoreRevision] refuses them:
    it scans the [shares] of the entity [getNoteById] returned, and
    [getNoteById] has emptied that list. *)
Theorem restoreRevision_edit_share_refused (rid noteId revisionId userId : string)
    (w : World) (note : NoteEntity) (s : NoteShare.t) :
  Repo.findNote noteId (db w) = Some note ->
  Note.ownerId (row note) <> userId ->
  List.find (grantsAccess userId) (shares note) = Some s ->
  NoteShare.permission s = EDIT ->
  canEdit userId note = true
  /\ fst (getNoteById noteId userId w)
     = Ok (withShares [] (withPermission EDIT note))
  /\ restoreRevision rid noteId revisionId userId w = (Throw msgNoEdit, w).
Proof.
  intros Hfind Hne Hs Hperm. apply String.eqb_neq in Hne.
  split; [|split].
  - unfold canEdit. rewrite Hs, Hperm. apply orb_true_r.
  - rewrite (getNoteById_eq _ _ _ _ Hfind), Hne, Hs, Hperm. reflexivity.
  - unfold restoreRevision, bind.
    rewrite (getNoteById_eq _ _ _ _ Hfind), Hne, Hs. simpl.
    rewrite Hne. reflexivity.
Qed.

Lemma restoreRevision_edit_share_refused_witness :
  Repo.findNote "n1" (db Demo.world)
  = Some (mkEntity Demo.note1 (Some Demo.alice)
            [Demo.shareBob; Demo.shareCarol; Demo.sharePending; Demo.shareNoEmail]
            None)
  /\ Repo.findRevision "r1" "n1" (db Demo.world) = Some Demo.rev1
  /\ restoreRevision "r2" "n1" "r1" "B" Demo.world = (Throw msgNoEdit, Demo.world).
Proof.
  split; [reflexivity|]. split; [reflexivity|].
  apply (restoreRevision_edit_share_refused "r2" "n1" "r1" "B" Demo.world _
           Demo.shareBob eq_refl);
    [discriminate | reflexivity | reflexivity].
Defined.

Lemma filter_all {A} (l : list A) : List.filter (fun _ => true) l = l.
Proof. induction l as [|x l IH]; simpl; [reflexivity|rewrite IH; reflexivity]. Qed.

(** Saving an entity whose [shares] were emptied orphans every share row of
    the note. *)
Lemma saveNote_emptied (note : NoteEntity) (w : World) :
  shares note = [] ->
  saveNote note w
  = match Repo.sharesOf (Note.id (row note)) (db w) with
    | [] => (Ok tt, mkWorld (Repo.updateNote (row note) (db w)) (io w) (outbox w))
    | _ :: _ => (Throw msgShareNoteIdNull, w)
    end.
Proof.
  intros Hnone. unfold saveNote, bind, query, orphanedShares. rewrite Hnone.
  cbn [List.existsb negb]. rewrite filter_all.
  destruct (Repo.sharesOf (Note.id (row note)) (db w)); reflexivity.
Qed.

(** [restoreRevision] by the owner of the note, for a revision of the note:
    the snapshot is inserted, and then the save of the entity [getNoteById]
    returned goes through only when the note has no share row. *)
Lemma restoreRevision_owner_eq rid noteId revisionId userId w note revision :
  Repo.findNote noteId (db w) = Some note ->
  Note.ownerId (row note) = userId ->
  Repo.findRevision revisionId noteId (db w) = Some revision ->
  let snapshot := snapshotOf rid noteId userId (row note) in
  let restored := Note.withContent (NoteRevision.content revision)
                    (Note.withVersion (Note.version (row note) + 1) (row note)) in
  restoreRevision rid noteId revisionId userId w
  = match Repo.sharesOf noteId (db w) with
    | [] =>
        (Ok (withRow restored (withShares [] (withPermission EDIT note))),
         mkWorld (Repo.updateNote restored (Repo.insertRevision snapshot (db w)))
                 (io w) (outbox w))
    | _ :: _ =>
        (Throw msgShareNoteIdNull,
         mkWorld (Repo.insertRevision snapshot (db w)) (io w) (outbox w))
    end.
Proof.
  intros Hfind Hown Hrev snapshot restored.
  pose proof (findNote_inv _ _ _ Hfind) as (Hrow & Hid & _).
  subst userId. unfold restoreRevision. unfold bind at 1.
  rewrite (getNoteById_eq _ _ _ _ Hfind), String.eqb_refl. cbn [negb].
  unfold bind at 1. cbn [row withShares withPermission withRow].
  rewrite String.eqb_refl. cbn [negb]. unfold ret at 1.
  unfold bind at 1, query at 1. rewrite Hrev.
  cbn [Note.incrementVersion]. unfold Note.incrementVersion.
  cbn [fst snd Note.version Note.withVersion Note.content].
  rewrite Z.add_simpl_r.
  fold (snapshotOf rid noteId (Note.ownerId (row note)) (row note)). fold snapshot.
  fold restored.
  unfold bind at 1, write at 1. cbn [db io outbox].
  unfold bind. rewrite saveNote_emptied by reflexivity.
  cbn [row withRow db io outbox].
  change (Note.id restored) with (Note.id (row note)). rewrite Hid.
  change (Repo.sharesOf noteId (Repo.insertRevision snapshot (db w)))
    with (Repo.sharesOf noteId (db w)).
  destruct (Repo.sharesOf noteId (db w)); reflexivity.
Qed.

(** For the owner of a note that has no share row [restoreRevision] does
    what the claim says: the content becomes the revision's, the version
    grows by one, one snapshot of the content and version it had is appended,
    and no revision is removed or changed. *)
Lemma restoreRevision_owner rid noteId revisionId userId w note revision :
  Repo.findNote noteId (db w) = Some note ->
  Note.ownerId (row note) = userId ->
  Repo.findRevision revisionId noteId (db w) = Some revision ->
  Repo.sharesOf noteId (db w) = [] ->
  exists e w',
    restoreRevision rid noteId revisionId userId w = (Ok e, w')
    /\ stored noteId w'
       = Some (Note.withContent (NoteRevision.content revision)
                 (Note.withVersion (Note.version (row note) + 1) (row note)))
    /\ revisionRepository (db w')
       = revisionRepository (db w) ++ [snapshotOf rid noteId userId (row note)]
    /\ ledger noteId w' = ledger noteId w ++ [snapshotOf rid noteId userId (row note)]
    /\ noteShareRepository (db w') = noteShareRepository (db w).
Proof.
  intros Hfind Hown Hrev Hunshared.
  pose proof (findNote_inv _ _ _ Hfind) as (Hrow & Hid & _).
  rewrite (restoreRevision_owner_eq _ _ _ _ _ _ _ Hfind Hown Hrev), Hunshared.
  eexists _, _. split; [reflexivity|]. split; [|split; [|split]].
  - eapply stored_after_update; eauto.
  - reflexivity.
  - apply ledger_after_snapshot. reflexivity.
  - reflexivity.
Qed.

(** For the owner of a note that has a share row, [restoreRevision] throws
    after it has inserted the snapshot: the note keeps its content and its
    version, and the ledger has one revision more, at the note's version. *)
Lemma restoreRevision_owner_shared rid noteId revisionId userId w note revision :
  Repo.findNote noteId (db w) = Some note ->
  Note.ownerId (row note) = userId ->
  Repo.findRevision revisionId noteId (db w) = Some revision ->
  Repo.sharesOf noteId (db w) <> [] ->
  exists w',
    restoreRevision rid noteId revisionId userId w = (Throw msgShareNoteIdNull, w')
    /\ stored noteId w' = Some (row note)
    /\ noteRepository (db w') = noteRepository (db w)
    /\ noteShareRepository (db w') = noteShareRepository (db w)
    /\ ledger noteId w' = ledger noteId w ++ [snapshotOf rid noteId userId (row note)].
Proof.
  intros Hfind Hown Hrev Hshared.
  pose proof (findNote_inv _ _ _ Hfind) as (Hrow & Hid & _).
  rewrite (restoreRevision_owner_eq _ _ _ _ _ _ _ Hfind Hown Hrev).
  destruct (Repo.sharesOf noteId (db w)) as [|s l]; [contradiction|].
  eexists. split; [reflexivity|]. split; [exact Hrow|].
  split; [reflexivity|]. split; [reflexivity|].
  unfold ledger, Repo.revisionsOf. cbn [db Repo.insertRevision Repo.log revisionRepository].
  rewrite List.filter_app. cbn [List.filter snapshotOf NoteRevision.noteId].
  rewrite String.eqb_refl. reflexivity.
Qed.

(** Restoring the same revision twice in a row, by the owner of a note
    without share rows, appends two revisions. *)
Lemma restoreRevision_owner_twice rid1 rid2 noteId revisionId userId w note revision :
  Repo.findNote noteId (db w) = Some note ->
  Note.ownerId (row note) = userId ->
  Repo.findRevision revisionId noteId (db w) = Some revision ->
  Repo.sharesOf noteId (db w) = [] ->
  let w1 := snd (restoreRevision rid1 noteId revisionId userId w) in
  let w2 := snd (restoreRevision rid2 noteId revisionId userId w1) in
  ledger noteId w2
  = ledger noteId w
    ++ [snapshotOf rid1 noteId userId (row note);
        NoteRevision.mk rid2 (NoteRevision.content revision)
                        (Note.version (row note) + 1) noteId userId].
Proof.
  intros Hfind Hown Hrev Hunshared w1 w2.
  destruct (restoreRevision_owner rid1 noteId revisionId userId w note revision
              Hfind Hown Hrev Hunshared)
    as (e1 & w1' & H1 & Hst1 & Hrepo1 & Hl1 & Hsh1).
  assert (w1 = w1') as Hw1 by (unfold w1; rewrite H1; reflexivity).
  pose proof (findNote_of_stored _ _ _ (eq_trans (f_equal (stored noteId) Hw1) Hst1))
    as Hfind1.
  assert (Hrev1 : Repo.findRevision revisionId noteId (db w1) = Some revision).
  { rewrite Hw1. unfold Repo.findRevision in *. rewrite Hrepo1.
    apply List.find_some in Hrev as Hin.
    clear - Hrev. induction (revisionRepository (db w)) as [|r l IH];
      simpl in *; [discriminate|].
    destruct (_ && _); [exact Hrev | apply IH, Hrev]. }
  assert (Hunshared1 : Repo.sharesOf noteId (db w1) = []).
  { rewrite Hw1. unfold Repo.sharesOf in *. rewrite Hsh1. exact Hunshared. }
  destruct (restoreRevision_owner rid2 noteId revisionId userId w1 _ revision
              Hfind1 Hown Hrev1 Hunshared1) as (e2 & w2' & H2 & _ & _ & Hl2 & _).
  assert (w2 = w2') as -> by (unfold w2; rewrite H2; reflexivity).
  rewrite Hl2, Hw1, Hl1, <- List.app_assoc. reflexivity.
Qed.

(** ** deleteNote *)

Lemma find_filter_out {A} (key : A -> string) (k : string) (l : list A) :
  List.find (fun r => String.eqb (key r) k)
            (List.filter (fun r => negb (String.eqb (key r) k)) l) = None.
Proof.
  induction l as [|r l IH]; simpl; [reflexivity|].
  destruct (String.eqb (key r) k) eqn:E; simpl; [exact IH|].
  rewrite E. exact IH.
Qed.

Lemma filter_filter_out {A} (key : A -> string) (k : string) (l : list A) :
  List.filter (fun r => String.eqb (key r) k)
              (List.filter (fun r => negb (String.eqb (key r) k)) l) = [].
Proof.
  induction l as [|r l IH]; simpl; [reflexivity|].
  destruct (String.eqb (key r) k) eqn:E; simpl; [exact IH|].
  rewrite E. exact IH.
Qed.

Lemma deleteNote_cascade_eq faults noteId w note :
  Repo.findNote noteId (db w) = Some note ->
  deleteNote faults noteId (Note.ownerId (row note)) w =
    tryCatch
      (let* _ := exec faults (DeleteRevisionsOf noteId)
                      (Repo.deleteRevisionsOf noteId) in
       let* _ := exec faults (DeleteSharesOf noteId) (Repo.deleteSharesOf noteId) in
       exec faults (RemoveNote noteId) (Repo.removeNote noteId))
      (fun message => throw (deleteFailure message)) w.
Proof.
  intros Hfind. pose proof (findNote_inv _ _ _ Hfind) as (_ & Hid & _).
  unfold deleteNote. unfold bind at 1.
  rewrite (getNoteById_eq _ _ _ _ Hfind), String.eqb_refl. simpl.
  rewrite String.eqb_refl, Hid. reflexivity.
Qed.

(** C7.  [deleteNote] on a stored note: a requester who is not the owner gets
    a permission error and the world stays as it was.  For the owner the
    service sends, in this order, the deletion of the note's revisions, the
    deletion of its shares and the removal of the note; if all three succeed
    the note, its ledger and its shares are gone; if one of them fails the
    call throws the wrapped failure, the statements before it have run and the
    statements after it have not. *)
Theorem deleteNote_owner_only_cascade (faults : DbWrite -> option string)
    (w : World) (noteId userId : string) (note : NoteEntity) :
  Repo.findNote noteId (db w) = Some note ->
  (Note.ownerId (row note) <> userId ->
     exists msg, deleteNote faults noteId userId w = (Throw msg, w)
                 /\ (msg = msgNoAccess \/ msg = msgOwnerDelete))
  /\ (Note.ownerId (row note) = userId ->
      (faults (DeleteRevisionsOf noteId) = None ->
       faults (DeleteSharesOf noteId) = None ->
       faults (RemoveNote noteId) = None ->
       exists w',
         deleteNote faults noteId userId w = (Ok tt, w')
         /\ db w' = Repo.removeNote noteId
                      (Repo.deleteSharesOf noteId
                         (Repo.deleteRevisionsOf noteId (db w)))
         /\ journal (db w')
            = journal (db w)
              ++ [DeleteRevisionsOf noteId; DeleteSharesOf noteId; RemoveNote noteId]
         /\ ledger noteId w' = []
         /\ Repo.sharesOf noteId (db w') = []
         /\ stored noteId w' = None)
      /\ (forall m, faults (DeleteRevisionsOf noteId) = Some m ->
          deleteNote faults noteId userId w = (Throw (deleteFailure m), w))
      /\ (forall m, faults (DeleteRevisionsOf noteId) = None ->
          faults (DeleteSharesOf noteId) = Some m ->
          exists w',
            deleteNote faults noteId userId w = (Throw (deleteFailure m), w')
            /\ db w' = Repo.deleteRevisionsOf noteId (db w)
            /\ journal (db w') = journal (db w) ++ [DeleteRevisionsOf noteId]
            /\ noteShareRepository (db w') = noteShareRepository (db w)
            /\ stored noteId w' = Some (row note))
      /\ (forall m, faults (DeleteRevisionsOf noteId) = None ->
          faults (DeleteSharesOf noteId) = None ->
          faults (RemoveNote noteId) = Some m ->
          exists w',
            deleteNote faults noteId userId w = (Throw (deleteFailure m), w')
            /\ db w' = Repo.deleteSharesOf noteId
                         (Repo.deleteRevisionsOf noteId (db w))
            /\ journal (db w')
               = journal (db w) ++ [DeleteRevisionsOf noteId; DeleteSharesOf noteId]
            /\ stored noteId w' = Some (row note))).
Proof.
  intros Hfind. pose proof (findNote_inv _ _ _ Hfind) as (Hrow & Hid & _).
  split.
  - intros Hne. apply String.eqb_neq in Hne.
    unfold deleteNote, bind. rewrite (getNoteById_eq _ _ _ _ Hfind), Hne. simpl.
    destruct (List.find (grantsAccess userId) (shares note)); simpl.
    + rewrite Hne. simpl. eauto.
    + eauto.
  - intros <-. rewrite (deleteNote_cascade_eq faults noteId w note Hfind).
    unfold tryCatch, bind, exec, write, throw.
    split; [|split; [|split]].
    + intros -> -> ->. simpl. eexists. split; [reflexivity|]. simpl.
      split; [reflexivity|]. split; [|split; [|split]].
      * rewrite <- !List.app_assoc. reflexivity.
      * apply (filter_filter_out NoteRevision.noteId).
      * apply (filter_filter_out NoteShare.noteId).
      * apply (find_filter_out Note.id).
    + intros m ->. reflexivity.
    + intros m -> ->. simpl. eexists. split; [reflexivity|]. simpl.
      repeat (split; [reflexivity|]). exact Hrow.
    + intros m -> -> ->. simpl. eexists. split; [reflexivity|]. simpl.
      split; [reflexivity|]. split; [|exact Hrow].
      rewrite <- !List.app_assoc. reflexivity.
Qed.

Lemma deleteNote_owner_only_cascade_witness :
  Repo.findNote "n1" (db Demo.world)
  = Some (mkEntity Demo.note1 (Some Demo.alice)
            [Demo.shareBob; Demo.shareCarol; Demo.sharePending; Demo.shareNoEmail]
            None)
  /\ (exists msg, deleteNote noFaults "n1" "B" Demo.world = (Throw msg, Demo.world)
                  /\ (msg = msgNoAccess \/ msg = msgOwnerDelete))
  /\ (exists w', deleteNote noFaults "n1" "A" Demo.world = (Ok tt, w')
                 /\ journal (db w')
                    = [DeleteRevisionsOf "n1"; DeleteSharesOf "n1"; RemoveNote "n1"]
                 /\ stored "n1" w' = None)
  /\ (exists w',
        deleteNote Demo.sharesLocked "n1" "A" Demo.world
        = (Throw (deleteFailure "deadlock detected"), w')
        /\ journal (db w') = [DeleteRevisionsOf "n1"]
        /\ stored "n1" w' = Some Demo.note1).
Proof.
  split; [reflexivity|].
  pose proof (deleteNote_owner_only_cascade noFaults Demo.world "n1" "B" _ eq_refl)
    as [HB _].
  pose proof (deleteNote_owner_only_cascade noFaults Demo.world "n1" "A" _ eq_refl)
    as [_ HA].
  pose proof (deleteNote_owner_only_cascade Demo.sharesLocked Demo.world "n1" "A" _
                eq_refl) as [_ HL].
  split; [apply HB; discriminate|].
  split.
  - destruct (HA eq_refl) as [Hok _].
    destruct (Hok eq_refl eq_refl eq_refl) as (w' & H1 & _ & H3 & _ & _ & H6).
    exists w'. auto.
  - destruct (HL eq_refl) as (_ & _ & Hshares & _).
    destruct (Hshares "deadlock detected" eq_refl eq_refl)
      as (w' & H1 & _ & H3 & _ & H5).
    exists w'. auto.
Defined.

(** ** Emits leave the store alone *)

Lemma emit_db t p w : db (snd (emit t p w)) = db w /\ io (snd (emit t p w)) = io w.
Proof. split; reflexivity. Qed.

Lemma sendUserNotification_ok userId message data w :
  exists out,
    sendUserNotification userId message data w
    = (Ok tt, mkWorld (db w) (io w) out).
Proof.
  unfold sendUserNotification.
  destruct (userRooms (io w) !! userId) as [room|].
  - destruct (Js.truthyStr room).
    + eexists. reflexivity.
    + exists (outbox w). destruct w; reflexivity.
  - exists (outbox w). destruct w; reflexivity.
Qed.

Lemma notifyOwner_cases socketService loaded message data w :
  (exists out,
     notifyOwner socketService loaded message data w
     = (Ok tt, mkWorld (db w) (io w) out))
  \/ (notifyOwner socketService loaded message data w = (Throw nullDeref, w)
      /\ socketService = true /\ shareNoteRel loaded = None).
Proof.
  unfold notifyOwner. destruct socketService.
  - destruct (shareNoteRel loaded) as [n|]; [|right; auto].
    destruct (owner n) as [o|].
    + left. apply sendUserNotification_ok.
    + left. exists (outbox w). destruct w; reflexivity.
  - left. exists (outbox w). destruct w; reflexivity.
Qed.

(** ** acceptSharedNote and declineSharedNote *)

(** Either [acceptSharedNote] stops at a guard and leaves the world as it
    was, or every guard passed and the accepted row was saved. *)
Lemma acceptSharedNote_cases socketService token userId w :
  (exists msg,
     acceptSharedNote socketService token userId w = (Throw msg, w)
     /\ (Repo.findShareByToken token (db w) = None -> msg = msgInvalidToken)
     /\ (forall loaded, Repo.findShareByToken token (db w) = Some loaded ->
         let share := shareRow loaded in
         if NoteShare.isRevoked share then msg = msgRevoked
         else if NoteShare.isAccepted share then msg = msgAlreadyAccepted
         else if Js.truthy (NoteShare.sharedWithId share)
                 && negb (Js.strictEq (NoteShare.sharedWithId share) userId)
         then msg = msgNotForYou
         else match Repo.findUser userId (db w) with
              | None => msg = msgUserNotFound
              | Some user =>
                  Js.truthy (NoteShare.email share)
                  && negb (Js.strictEq (NoteShare.email share) (User.email user))
                  = true
                  /\ msg = msgOtherEmail
              end))
  \/ (exists loaded user out r,
        Repo.findShareByToken token (db w) = Some loaded
        /\ NoteShare.isRevoked (shareRow loaded) = false
        /\ NoteShare.isAccepted (shareRow loaded) = false
        /\ Js.truthy (NoteShare.sharedWithId (shareRow loaded))
           && negb (Js.strictEq (NoteShare.sharedWithId (shareRow loaded)) userId)
           = false
        /\ Repo.findUser userId (db w) = Some user
        /\ Js.truthy (NoteShare.email (shareRow loaded))
           && negb (Js.strictEq (NoteShare.email (shareRow loaded)) (User.email user))
           = false
        /\ acceptSharedNote socketService token userId w
           = (r, mkWorld (Repo.updateShare (accepted userId (shareRow loaded)) (db w))
                         (io w) out)
        /\ (r = Ok (option_map row (shareNoteRel loaded))
            \/ (r = Throw nullDeref /\ shareNoteRel loaded = None))).
Proof.
  unfold acceptSharedNote, bind, query.
  destruct (Repo.findShareByToken token (db w)) as [loaded|] eqn:Hfind.
  2:{ left. exists msgInvalidToken. split; [reflexivity|]. split; [auto|discriminate]. }
  destruct (NoteShare.isRevoked (shareRow loaded)) eqn:Hr.
  { left. exists msgRevoked. split; [reflexivity|]. split; [discriminate|].
    intros ? [= <-]. simpl. rewrite Hr. reflexivity. }
  destruct (NoteShare.isAccepted (shareRow loaded)) eqn:Ha.
  { left. exists msgAlreadyAccepted. split; [reflexivity|]. split; [discriminate|].
    intros ? [= <-]. simpl. rewrite Hr, Ha. reflexivity. }
  destruct (Js.truthy (NoteShare.sharedWithId (shareRow loaded))
            && negb (Js.strictEq (NoteShare.sharedWithId (shareRow loaded)) userId))
    eqn:Hb.
  { left. exists msgNotForYou. split; [reflexivity|]. split; [discriminate|].
    intros ? [= <-]. simpl. rewrite Hr, Ha, Hb. reflexivity. }
  simpl. destruct (Repo.findUser userId (db w)) as [user|] eqn:Hu.
  2:{ left. exists msgUserNotFound. split; [reflexivity|]. split; [discriminate|].
      intros ? [= <-]. simpl. rewrite Hr, Ha, Hb. reflexivity. }
  destruct (Js.truthy (NoteShare.email (shareRow loaded))
            && negb (Js.strictEq (NoteShare.email (shareRow loaded)) (User.email user)))
    eqn:He.
  { left. exists msgOtherEmail. split; [reflexivity|]. split; [discriminate|].
    intros ? [= <-]. simpl. rewrite Hr, Ha, Hb. auto. }
  right. unfold write. simpl. fold (accepted userId (shareRow loaded)).
  match goal with
  | |- context [notifyOwner ?ss ?l ?m ?d ?w0] =>
      destruct (notifyOwner_cases ss l m d w0) as [[out Hn]|(Hn & Hss & Hnote)];
      rewrite Hn
  end.
  - exists loaded, user, out, (Ok (option_map row (shareNoteRel loaded))).
    simpl. auto 10.
  - exists loaded, user, (outbox w), (Throw nullDeref). simpl. auto 10.
Qed.

(** After the row found under a token is saved with the same id and token,
    the token finds the saved row. *)
Lemma find_token_after_save tok (s s' : NoteShare.t) (l : list NoteShare.t) :
  List.find (fun r => Js.strictEq (NoteShare.shareToken r) tok) l = Some s ->
  NoteShare.id s' = NoteShare.id s ->
  NoteShare.shareToken s' = NoteShare.shareToken s ->
  List.find (fun r => Js.strictEq (NoteShare.shareToken r) tok)
    (List.map (fun r => if String.eqb (NoteShare.id r) (NoteShare.id s') then s' else r) l)
  = Some s'.
Proof.
  intros Hfind Hid Htok.
  pose proof (List.find_some _ _ Hfind) as [_ Hs]. cbv beta in Hs.
  induction l as [|r l IH]; cbn [List.find List.map] in *; [discriminate|].
  destruct (String.eqb (NoteShare.id r) (NoteShare.id s')) eqn:E.
  - rewrite Htok, Hs. reflexivity.
  - destruct (Js.strictEq (NoteShare.shareToken r) tok) eqn:Et.
    + injection Hfind as ->. rewrite Hid, String.eqb_refl in E. discriminate.
    + apply IH. exact Hfind.
Qed.

Lemma findShareByToken_inv tok db loaded :
  Repo.findShareByToken tok db = Some loaded ->
  List.find (fun r => Js.strictEq (NoteShare.shareToken r) tok)
            (noteShareRepository db) = Some (shareRow loaded)
  /\ loaded = Repo.loadShare (shareRow loaded) db.
Proof.
  unfold Repo.findShareByToken.
  destruct (List.find _ _) as [s|]; [|discriminate].
  intros [= <-]. split; reflexivity.
Qed.

Lemma updateShare_other_rows s' db r :
  In r (noteShareRepository db) ->
  NoteShare.id r <> NoteShare.id s' ->
  In r (noteShareRepository (Repo.updateShare s' db)).
Proof.
  intros Hin Hne. unfold Repo.updateShare. simpl.
  apply List.in_map_iff. exists r. split; [|exact Hin].
  apply String.eqb_neq in Hne. rewrite Hne. reflexivity.
Qed.

Lemma bound_to_caller_or_nobody (sharedWithId : option string) (userId : string) :
  (Js.truthy sharedWithId = true -> sharedWithId = Some userId) ->
  Js.truthy sharedWithId && negb (Js.strictEq sharedWithId userId) = false.
Proof.
  intros H. destruct (Js.truthy sharedWithId) eqn:E; [|reflexivity].
  rewrite (H eq_refl). simpl. rewrite String.eqb_refl. reflexivity.
Qed.

(** C4, with the order of the guards made explicit.  [acceptSharedNote]
    throws "Invalid share token" when no share carries the token; otherwise,
    for the share found, it throws at the first of these checks that applies:
    "revoked" when the share is revoked; "already accepted" when it is
    accepted; "not intended for you" when it is bound to a (non-empty) user
    id other than the caller's; "User not found" when the caller is no user;
    "intended for a different email address" when the share carries a
    non-empty email that is not the caller's.  So it fails, whatever check is
    the first to fire, when the share carries a non-empty email and the
    caller is no user with that email.  Every such failure leaves the world
    as it was.  When no check fires the accepted row is saved and the call
    returns (provided the share's note can be loaded); and whenever the call
    returns, the saved row is the share bound to the caller with [isAccepted]
    set, all its other columns as before, the other rows and tables
    untouched. *)
Theorem acceptSharedNote_guards_then_binds (socketService : bool)
    (token userId : string) (w : World) :
  (Repo.findShareByToken token (db w) = None ->
   acceptSharedNote socketService token userId w = (Throw msgInvalidToken, w))
  /\ forall loaded,
      Repo.findShareByToken token (db w) = Some loaded ->
      let share := shareRow loaded in
      (NoteShare.isRevoked share = true ->
       acceptSharedNote socketService token userId w = (Throw msgRevoked, w))
      /\ (NoteShare.isRevoked share = false ->
          NoteShare.isAccepted share = true ->
          acceptSharedNote socketService token userId w
          = (Throw msgAlreadyAccepted, w))
      /\ (NoteShare.isRevoked share = false ->
          NoteShare.isAccepted share = false ->
          forall bound, NoteShare.sharedWithId share = Some bound ->
                        Js.truthyStr bound = true -> bound <> userId ->
          acceptSharedNote socketService token userId w = (Throw msgNotForYou, w))
      /\ (NoteShare.isRevoked share = false ->
          NoteShare.isAccepted share = false ->
          (Js.truthy (NoteShare.sharedWithId share) = true ->
           NoteShare.sharedWithId share = Some userId) ->
          Repo.findUser userId (db w) = None ->
          acceptSharedNote socketService token userId w = (Throw msgUserNotFound, w))
      /\ (NoteShare.isRevoked share = false ->
          NoteShare.isAccepted share = false ->
          (Js.truthy (NoteShare.sharedWithId share) = true ->
           NoteShare.sharedWithId share = Some userId) ->
          forall u, Repo.findUser userId (db w) = Some u ->
          forall e, NoteShare.email share = Some e -> Js.truthyStr e = true ->
                    e <> User.email u ->
          acceptSharedNote socketService token userId w = (Throw msgOtherEmail, w))
      /\ (forall e, NoteShare.email share = Some e -> Js.truthyStr e = true ->
          (forall u, Repo.findUser userId (db w) = Some u -> User.email u <> e) ->
          exists msg, acceptSharedNote socketService token userId w = (Throw msg, w))
      /\ (NoteShare.isRevoked share = false ->
          NoteShare.isAccepted share = false ->
          (Js.truthy (NoteShare.sharedWithId share) = true ->
           NoteShare.sharedWithId share = Some userId) ->
          forall u, Repo.findUser userId (db w) = Some u ->
          (Js.truthy (NoteShare.email share) = true ->
           NoteShare.email share = Some (User.email u)) ->
          db (snd (acceptSharedNote socketService token userId w))
          = Repo.updateShare (accepted userId share) (db w)
          /\ (is_Some (shareNoteRel loaded) ->
              exists r w', acceptSharedNote socketService token userId w = (Ok r, w')))
      /\ (forall r w',
          acceptSharedNote socketService token userId w = (Ok r, w') ->
          let share' := accepted userId share in
          db w' = Repo.updateShare share' (db w)
          /\ (exists loaded', Repo.findShareByToken token (db w') = Some loaded'
                              /\ shareRow loaded' = share')
          /\ NoteShare.sharedWithId share' = Some userId
          /\ NoteShare.isAccepted share' = true
          /\ NoteShare.id share' = NoteShare.id share
          /\ NoteShare.noteId share' = NoteShare.noteId share
          /\ NoteShare.email share' = NoteShare.email share
          /\ NoteShare.permission share' = NoteShare.permission share
          /\ NoteShare.isRevoked share' = NoteShare.isRevoked share
          /\ NoteShare.shareToken share' = NoteShare.shareToken share
          /\ (forall other, In other (noteShareRepository (db w)) ->
                            NoteShare.id other <> NoteShare.id share ->
                            In other (noteShareRepository (db w')))
          /\ userRepository (db w') = userRepository (db w)
          /\ noteRepository (db w') = noteRepository (db w)
          /\ revisionRepository (db w') = revisionRepository (db w)
          /\ io w' = io w).
Proof.
  destruct (acceptSharedNote_cases socketService token userId w)
    as [(msg & Heq & Hnone & Hsome)
       |(loaded0 & user & out & r0 & Hfind & Hr & Ha & Hb & Hu & He & Heq & Hres)].
  - (* a guard fired *)
    split; [intros H; rewrite Heq, (Hnone H); reflexivity|].
    intros loaded Hfind share. specialize (Hsome loaded Hfind). simpl in Hsome.
    fold share in Hsome.
    split; [|split; [|split; [|split; [|split; [|split; [|split]]]]]].
    + intros H. rewrite H in Hsome. rewrite Heq, Hsome. reflexivity.
    + intros H1 H2. rewrite H1, H2 in Hsome. rewrite Heq, Hsome. reflexivity.
    + intros H1 H2 bound Hbound Ht Hne. rewrite H1, H2, Hbound in Hsome.
      simpl in Hsome. apply String.eqb_neq in Hne. rewrite Ht, Hne in Hsome.
      simpl in Hsome. rewrite Heq, Hsome. reflexivity.
    + intros H1 H2 Hbound Hnouser.
      rewrite H1, H2, (bound_to_caller_or_nobody _ _ Hbound), Hnouser in Hsome.
      rewrite Heq, Hsome. reflexivity.
    + intros H1 H2 Hbound u Hu e Hemail Ht Hne.
      rewrite H1, H2, (bound_to_caller_or_nobody _ _ Hbound), Hu in Hsome.
      destruct Hsome as [_ ->]. exact Heq.
    + intros. exists msg. exact Heq.
    + intros H1 H2 Hbound u Hu Hemail. exfalso.
      rewrite H1, H2, (bound_to_caller_or_nobody _ _ Hbound), Hu in Hsome.
      destruct Hsome as [Hx _].
      destruct (Js.truthy (NoteShare.email share)) eqn:Ee; [|discriminate].
      rewrite (Hemail eq_refl) in Hx. simpl in Hx.
      rewrite String.eqb_refl in Hx. discriminate.
    + intros r w' H. rewrite Heq in H. discriminate.
  - (* every guard passed *)
    split; [intros H; rewrite H in Hfind; discriminate|].
    intros loaded Hfind' share. rewrite Hfind in Hfind'. injection Hfind' as <-.
    fold share in Hr, Ha, Hb, He, Heq.
    split; [|split; [|split; [|split; [|split; [|split; [|split]]]]]].
    + intros H. rewrite H in Hr. discriminate.
    + intros _ H. rewrite H in Ha. discriminate.
    + intros _ _ bound Hbound Ht Hne. exfalso. rewrite Hbound in Hb. simpl in Hb.
      apply String.eqb_neq in Hne. rewrite Ht, Hne in Hb. discriminate.
    + intros _ _ _ Hnouser. rewrite Hnouser in Hu. discriminate.
    + intros _ _ _ u Hu' e Hemail Ht Hne. exfalso.
      rewrite Hu in Hu'. injection Hu' as <-.
      rewrite Hemail in He. simpl in He. rewrite Ht in He. simpl in He.
      apply negb_false_iff, String.eqb_eq in He. contradiction.
    + intros e Hemail Ht Hdiff. exfalso. rewrite Hemail in He. simpl in He.
      rewrite Ht in He. simpl in He. apply negb_false_iff, String.eqb_eq in He.
      apply (Hdiff user Hu). symmetry. exact He.
    + intros _ _ _ u _ _. rewrite Heq. split; [reflexivity|].
      intros [n Hn].
      destruct Hres as [->|[_ Hnone]]; [eauto|].
      fold share in Hnone. unfold share in Hn. congruence.
    + intros r w' H. rewrite Heq in H. injection H as _ <-. simpl.
      pose proof (findShareByToken_inv _ _ _ Hfind) as [Hrow _].
      split; [reflexivity|]. split.
      { unfold Repo.findShareByToken, Repo.updateShare. simpl.
        rewrite (find_token_after_save token share (accepted userId share));
          [simpl; eauto | exact Hrow | reflexivity | reflexivity]. }
      repeat (split; [reflexivity|]).
      split; [|auto].
      intros other Hin Hne.
      apply (updateShare_other_rows (accepted userId share)); [exact Hin | exact Hne].
Qed.

Lemma acceptSharedNote_guards_then_binds_witness :
  Repo.findShareByToken "tok3" (db Demo.world)
  = Some (Repo.loadShare Demo.sharePending Demo.store)
  /\ acceptSharedNote true "tok3" "C" Demo.world = (Throw msgNotForYou, Demo.world)
  /\ (exists r w',
        acceptSharedNote true "tok3" "B" Demo.world = (Ok r, w')
        /\ exists loaded',
             Repo.findShareByToken "tok3" (db w') = Some loaded'
             /\ shareRow loaded'
                = NoteShare.mk "s3" "n1" (Some "B") (Some "b@x.com") READ true false
                               (Some "tok3"))
  /\ Repo.findUser "ZZ" (db Demo.world) = None
  /\ acceptSharedNote true "tok4" "ZZ" Demo.world
     = (Throw msgUserNotFound, Demo.world)
  /\ acceptSharedNote true "tok8" "ZZ" Demo.afterDecline
     = (Throw msgUserNotFound, Demo.afterDecline)
  /\ acceptSharedNote true "tok8" "B" Demo.afterDecline
     = (Throw msgOtherEmail, Demo.afterDecline).
Proof.
  split; [reflexivity|].
  pose proof (acceptSharedNote_guards_then_binds true "tok3" "C" Demo.world)
    as [_ HC].
  pose proof (acceptSharedNote_guards_then_binds true "tok3" "B" Demo.world)
    as [_ HB].
  pose proof (acceptSharedNote_guards_then_binds true "tok4" "ZZ" Demo.world)
    as [_ HZ].
  pose proof (acceptSharedNote_guards_then_binds true "tok8" "ZZ" Demo.afterDecline)
    as [_ HZ8].
  pose proof (acceptSharedNote_guards_then_binds true "tok8" "B" Demo.afterDecline)
    as [_ HB8].
  specialize (HC _ eq_refl). specialize (HB _ eq_refl). specialize (HZ _ eq_refl).
  specialize (HZ8 _ eq_refl). specialize (HB8 _ eq_refl).
  destruct HC as (_ & _ & Hnot & _).
  destruct HB as (_ & _ & _ & _ & _ & _ & Hreturns & Hbinds).
  destruct HZ as (_ & _ & _ & Hnouser & _).
  destruct HZ8 as (_ & _ & _ & Hnouser8 & _).
  destruct HB8 as (_ & _ & _ & _ & Hother & _).
  split; [|split; [|split; [reflexivity|split; [|split]]]].
  - apply (Hnot eq_refl eq_refl "B" eq_refl eq_refl). discriminate.
  - destruct (Hreturns eq_refl eq_refl (fun _ => eq_refl) Demo.bob eq_refl
                (fun _ => eq_refl)) as [_ Hok].
    destruct Hok as (r & w' & Hok); [eexists; reflexivity|].
    exists r, w'. split; [exact Hok|].
    destruct (Hbinds r w' Hok) as (_ & Hfound & _). exact Hfound.
  - apply (Hnouser eq_refl eq_refl); [intros H; discriminate H|reflexivity].
  - apply (Hnouser8 eq_refl eq_refl); [intros H; discriminate H|reflexivity].
  - apply (Hother eq_refl eq_refl) with (u := Demo.bob) (e := "c@x.com");
      [intros H; discriminate H|reflexivity|reflexivity|reflexivity|discriminate].
Defined.

(** C4 as the spec words it fails in two places.  Carol's share is accepted
    and revoked: redeeming its token again is answered with the "revoked"
    message, not with "already accepted".  The share created with an empty
    email carries an email that differs from Carol's, yet Carol's accept of
    its token succeeds, because the email guard is skipped for a falsy
    email. *)
Lemma acceptSharedNote_messages_counterexample :
  (exists loaded,
     Repo.findShareByToken "tok2" (db Demo.world) = Some loaded
     /\ NoteShare.isAccepted (shareRow loaded) = true
     /\ fst (acceptSharedNote true "tok2" "C" Demo.world) = Throw msgRevoked
     /\ fst (acceptSharedNote true "tok2" "C" Demo.world) <> Throw msgAlreadyAccepted)
  /\ (exists loaded,
        Repo.findShareByToken "tok4" (db Demo.world) = Some loaded
        /\ NoteShare.email (shareRow loaded) = Some EmptyString
        /\ Repo.findUser "C" (db Demo.world) = Some Demo.carol
        /\ NoteShare.email (shareRow loaded) <> Some (User.email Demo.carol)
        /\ fst (acceptSharedNote true "tok4" "C" Demo.world) = Ok (Some Demo.note1)).
Proof.
  split.
  - eexists. split; [reflexivity|]. split; [reflexivity|].
    split; [reflexivity|]. discriminate.
  - eexists. split; [reflexivity|]. split; [reflexivity|].
    split; [reflexivity|]. split; [discriminate|]. vm_compute. reflexivity.
Qed.

(** ** revokeShare *)

Lemma sendUserNotification_eq userId message data w :
  sendUserNotification userId message data w
  = (Ok tt, mkWorld (db w) (io w)
                    (outbox w ++ notificationDeliveries userId message data (io w))).
Proof.
  unfold sendUserNotification, notificationDeliveries.
  destruct (userRooms (io w) !! userId) as [room|].
  - destruct (Js.truthyStr room); [reflexivity|].
    rewrite List.app_nil_r. destruct w; reflexivity.
  - rewrite List.app_nil_r. destruct w; reflexivity.
Qed.

Lemma getNoteById_result noteId userId w :
  exists r, getNoteById noteId userId w = (r, w).
Proof.
  exists (fst (getNoteById noteId userId w)).
  rewrite <- (getNoteById_pure noteId userId w) at 3.
  destruct (getNoteById noteId userId w); reflexivity.
Qed.

Lemma revokeShare_cases socketService shareId userId w :
  (exists msg, revokeShare socketService shareId userId w = (Throw msg, w))
  \/ (exists loaded note,
        Repo.findShareById shareId (db w) = Some loaded
        /\ getNoteById (NoteShare.noteId (shareRow loaded)) userId w = (Ok note, w)
        /\ revokeShare socketService shareId userId w
           = (Ok tt,
              mkWorld (Repo.updateShare (NoteShare.withRevoked true (shareRow loaded))
                                        (db w))
                      (io w)
                      (outbox w
                       ++ revokeDeliveries socketService userId loaded
                            (Note.title (row note)) (io w)))).
Proof.
  unfold revokeShare, bind, query.
  destruct (Repo.findShareById shareId (db w)) as [loaded|] eqn:Hfind;
    [|left; eexists; reflexivity].
  destruct (getNoteById_result (NoteShare.noteId (shareRow loaded)) userId w)
    as [r Hget]. rewrite Hget.
  destruct r as [note|msg]; [|left; eexists; reflexivity].
  destruct (owner note) as [o|]; [|left; eexists; reflexivity].
  destruct (negb (String.eqb (User.id o) userId)); [left; eexists; reflexivity|].
  right. exists loaded, note. split; [reflexivity|]. split; [exact Hget|].
  unfold write, revokeDeliveries, broadcastShareUpdate, ret.
  cbn [db io outbox].
  set (share' := NoteShare.withRevoked true (shareRow loaded)).
  destruct (socketService && Js.truthy (NoteShare.sharedWithId share')) eqn:Hcond.
  - unfold bind. rewrite sendUserNotification_eq. cbn [db io outbox].
    unfold emit. cbn [db io outbox].
    destruct socketService; [|discriminate].
    rewrite sendUserNotification_eq. cbn [db io outbox].
    unfold deliveries. rewrite <- !List.app_assoc. reflexivity.
  - destruct socketService.
    + rewrite sendUserNotification_eq. cbn [db io outbox]. reflexivity.
    + simpl. rewrite List.app_nil_r. reflexivity.
Qed.

(** C10.  With a socket service attached (as every controller constructs the
    note service), a [revokeShare] that returns, on a share bound to a
    recipient, delivers one [share:updated] event to every connected socket,
    member of the note's room or not; the event carries the note id, the share
    id, [revoked = true] and the share row as saved, email included. *)
Theorem revokeShare_broadcasts_to_all (shareId userId : string) (w w' : World)
    (loaded : ShareEntity) :
  revokeShare true shareId userId w = (Ok tt, w') ->
  Repo.findShareById shareId (db w) = Some loaded ->
  Js.truthy (NoteShare.sharedWithId (shareRow loaded)) = true ->
  exists note sent,
    getNoteById (NoteShare.noteId (shareRow loaded)) userId w = (Ok note, w)
    /\ outbox w' = outbox w ++ sent
    /\ sockets (io w') = sockets (io w)
    /\ let share' := NoteShare.withRevoked true (shareRow loaded) in
       let event :=
         ShareUpdated (NoteShare.noteId (shareRow loaded))
                      (NoteShare.id (shareRow loaded)) true share'
                      (sharedWithRel loaded) (Note.title (row note)) in
       eventName event = "share:updated"
       /\ NoteShare.email share' = NoteShare.email (shareRow loaded)
       /\ NoteShare.isRevoked share' = true
       /\ forall c, In c (sockets (io w)) -> In (Socket.sid c, event) sent.
Proof.
  intros Hok Hfind Hbound.
  destruct (revokeShare_cases true shareId userId w)
    as [[msg Hthrow]|(loaded0 & note & Hfind0 & Hget & Heq)].
  - rewrite Hthrow in Hok. discriminate.
  - rewrite Hfind in Hfind0. injection Hfind0 as <-.
    rewrite Heq in Hok. injection Hok as <-.
    exists note, (revokeDeliveries true userId loaded (Note.title (row note)) (io w)).
    split; [exact Hget|]. split; [reflexivity|]. split; [reflexivity|].
    cbn zeta. split; [reflexivity|]. split; [reflexivity|]. split; [reflexivity|].
    intros c Hc. unfold revokeDeliveries.
    cbn [andb NoteShare.withRevoked NoteShare.sharedWithId NoteShare.noteId
         NoteShare.id].
    rewrite Hbound. apply List.in_or_app. left. apply List.in_or_app. right.
    unfold deliveries, receivers.
    apply List.in_map_iff. exists (Socket.sid c). split; [reflexivity|].
    apply List.in_map. exact Hc.
Qed.

Lemma revokeShare_broadcasts_to_all_witness :
  Repo.findShareById "s1" (db Demo.world)
  = Some (Repo.loadShare Demo.shareBob Demo.store)
  /\ exists w' note sent,
       revokeShare true "s1" "A" Demo.world = (Ok tt, w')
       /\ getNoteById "n1" "A" Demo.world = (Ok note, Demo.world)
       /\ outbox w' = sent
       /\ forall c, In c [Demo.socketA; Demo.socketB; Demo.socketC] ->
            In (Socket.sid c,
                ShareUpdated "n1" "s1" true
                  (NoteShare.mk "s1" "n1" (Some "B") (Some "b@x.com") EDIT true true
                                (Some "tok1"))
                  (Some Demo.bob) "T")
               sent.
Proof.
  split; [reflexivity|].
  assert (Hrun : exists w', revokeShare true "s1" "A" Demo.world = (Ok tt, w')).
  { eexists. vm_compute. reflexivity. }
  destruct Hrun as [w' Hrun].
  destruct (revokeShare_broadcasts_to_all "s1" "A" Demo.world w' _ Hrun
              eq_refl eq_refl)
    as (note & sent & Hget & Hout & _ & _ & _ & _ & Hall).
  exists w', note, sent. split; [exact Hrun|].
  pose proof Hget as Hget'. simpl in Hget'.
  split; [exact Hget|]. split; [exact Hout|].
  injection Hget' as <-. exact Hall.
Defined.

(** ** The share lifecycle *)

Lemma evolves_refl s : evolves s s.
Proof. unfold evolves. auto. Qed.

Lemma evolves_trans s1 s2 s3 : evolves s1 s2 -> evolves s2 s3 -> evolves s1 s3.
Proof.
  unfold evolves. intros (Hi & Hr & Ha & Hf) (Hi' & Hr' & Ha' & Hf').
  repeat split; try congruence; auto.
  intros H. rewrite (Hf' (Hr H)). auto.
Qed.

Lemma findShareByToken_in tok db loaded :
  Repo.findShareByToken tok db = Some loaded ->
  In (shareRow loaded) (noteShareRepository db).
Proof.
  intros H. apply findShareByToken_inv in H as [H _].
  apply List.find_some in H. apply H.
Qed.

Lemma findShareById_in sid db loaded :
  Repo.findShareById sid db = Some loaded ->
  In (shareRow loaded) (noteShareRepository db).
Proof.
  unfold Repo.findShareById.
  destruct (List.find _ _) as [s|] eqn:E; [|discriminate].
  intros [= <-]. simpl. apply List.find_some in E. apply E.
Qed.

Lemma acceptSharedNote_tableStep socketService token userId w :
  tableStep (shareTable w)
            (shareTable (snd (acceptSharedNote socketService token userId w))).
Proof.
  destruct (acceptSharedNote_cases socketService token userId w)
    as [(msg & -> & _)
       |(loaded & user & out & r & Hfind & Hr & Ha & _ & _ & _ & -> & _)].
  - apply StepSame. reflexivity.
  - eapply StepSave with (s := shareRow loaded)
                         (s' := accepted userId (shareRow loaded)).
    + eapply findShareByToken_in. exact Hfind.
    + unfold evolves. simpl. rewrite Hr. repeat split; auto; discriminate.
    + reflexivity.
Qed.

Lemma declineSharedNote_tableStep socketService token userId w :
  tableStep (shareTable w)
            (shareTable (snd (declineSharedNote socketService token userId w))).
Proof.
  unfold declineSharedNote, bind, query.
  destruct (Repo.findShareByToken token (db w)) as [loaded|] eqn:Hfind;
    [|apply StepSame; reflexivity].
  destruct (NoteShare.isRevoked (shareRow loaded)) eqn:Hr;
    [apply StepSame; reflexivity|].
  destruct (NoteShare.isAccepted (shareRow loaded)) eqn:Ha;
    [apply StepSame; reflexivity|].
  destruct (Js.truthy _ && negb _); [apply StepSame; reflexivity|].
  simpl. destruct (Repo.findUser userId (db w)) as [user|];
    [|apply StepSame; reflexivity].
  destruct (Js.truthy _ && negb _); [apply StepSame; reflexivity|].
  unfold write. simpl.
  match goal with
  | |- context [notifyOwner ?ss ?l ?m ?d ?w0] =>
      destruct (notifyOwner_cases ss l m d w0) as [[out Hn]|(Hn & _)]; rewrite Hn
  end;
    (eapply StepSave with (s := shareRow loaded)
                          (s' := declined userId (shareRow loaded));
     [ eapply findShareByToken_in; exact Hfind
     | unfold evolves; simpl; rewrite Hr, Ha; repeat split; auto; discriminate
     | reflexivity ]).
Qed.

Lemma revokeShare_tableStep socketService shareId userId w :
  tableStep (shareTable w)
            (shareTable (snd (revokeShare socketService shareId userId w))).
Proof.
  destruct (revokeShare_cases socketService shareId userId w)
    as [[msg ->]|(loaded & note & Hfind & _ & ->)].
  - apply StepSame. reflexivity.
  - eapply StepSave with (s := shareRow loaded)
                         (s' := NoteShare.withRevoked true (shareRow loaded)).
    + eapply findShareById_in. exact Hfind.
    + unfold evolves. simpl. auto.
    + reflexivity.
Qed.

Lemma existsb_eqb_in (x : string) (l : list string) :
  List.existsb (String.eqb x) l = false -> ~ In x l.
Proof.
  intros H Hin. assert (List.existsb (String.eqb x) l = true) as Ht.
  { apply List.existsb_exists. exists x. split; [exact Hin|apply String.eqb_refl]. }
  congruence.
Qed.

Lemma shareNote_tableStep socketService newShareId newToken userId shareData w :
  freshFor (OpShareNote newShareId newToken userId shareData) w = true ->
  tableStep (shareTable w)
    (shareTable (snd (shareNote socketService newShareId newToken userId shareData w))).
Proof.
  intros Hfresh. simpl in Hfresh. apply negb_true_iff, existsb_eqb_in in Hfresh.
  unfold shareNote, bind, query.
  destruct (getNoteById_result (share_noteId shareData) userId w) as [r Hget].
  rewrite Hget.
  destruct r as [note|msg]; [|apply StepSame; reflexivity].
  destruct (owner note) as [o|]; [|apply StepSame; reflexivity].
  destruct (negb (String.eqb (User.id o) userId)); [apply StepSame; reflexivity|].
  unfold write. simpl.
  destruct (Repo.findUserByEmail (share_email shareData) (db w)) as [target|];
    [destruct socketService|]; simpl;
    (eapply StepInsert; [|reflexivity]; exact Hfresh).
Qed.

Lemma runOp_tableStep socketService op w :
  freshFor op w = true ->
  tableStep (shareTable w) (shareTable (runOp socketService op w)).
Proof.
  destruct op; intros Hfresh; simpl.
  - apply shareNote_tableStep. exact Hfresh.
  - apply acceptSharedNote_tableStep.
  - apply declineSharedNote_tableStep.
  - apply revokeShare_tableStep.
Qed.

Lemma NoDup_key_inj {A} (key : A -> string) (l : list A) (x y : A) :
  List.NoDup (List.map key l) -> In x l -> In y l -> key x = key y -> x = y.
Proof.
  induction l as [|a l IH]; simpl; [intros _ []|].
  intros Hnd Hx Hy Hk. inversion Hnd as [|? ? Hnotin Hnd']; subst.
  destruct Hx as [->|Hx], Hy as [->|Hy]; auto.
  - exfalso. apply Hnotin. rewrite Hk. apply List.in_map. exact Hy.
  - exfalso. apply Hnotin. rewrite <- Hk. apply List.in_map. exact Hx.
Qed.

Lemma NoDup_snoc (l : list string) (x : string) :
  List.NoDup l -> ~ In x l -> List.NoDup (l ++ [x]).
Proof.
  induction l as [|a l IH]; simpl; intros Hnd Hx.
  - constructor; [intros []|constructor].
  - inversion Hnd as [|? ? Hnotin Hnd']; subst. constructor.
    + intros Hin. apply List.in_app_or in Hin as [Hin|[->|[]]]; auto.
    + apply IH; auto.
Qed.

Lemma map_id_replace (s' : NoteShare.t) (t : list NoteShare.t) :
  List.map NoteShare.id
    (List.map (fun r => if String.eqb (NoteShare.id r) (NoteShare.id s') then s' else r) t)
  = List.map NoteShare.id t.
Proof.
  rewrite List.map_map. apply List.map_ext. intros r.
  destruct (String.eqb (NoteShare.id r) (NoteShare.id s')) eqn:E; [|reflexivity].
  apply String.eqb_eq in E. congruence.
Qed.

(** One step keeps the ids distinct, keeps every row in its place and lets it
    only evolve. *)
Lemma tableStep_evolves (t t' : list NoteShare.t) :
  List.NoDup (List.map NoteShare.id t) ->
  tableStep t t' ->
  List.NoDup (List.map NoteShare.id t')
  /\ forall i s, List.nth_error t i = Some s ->
       exists s', List.nth_error t' i = Some s' /\ evolves s s'.
Proof.
  intros Hnd [->|s s' Hin Hev ->|new Hfresh ->].
  - split; [exact Hnd|]. intros i s H. exists s. split; [exact H|apply evolves_refl].
  - split; [rewrite map_id_replace; exact Hnd|].
    intros i r Hr. rewrite List.nth_error_map, Hr. simpl.
    destruct (String.eqb (NoteShare.id r) (NoteShare.id s')) eqn:E.
    + exists s'. split; [reflexivity|].
      apply String.eqb_eq in E. destruct Hev as [Hid Hrest].
      assert (r = s) as ->.
      { apply (NoDup_key_inj NoteShare.id t); auto.
        - eapply List.nth_error_In. exact Hr.
        - congruence. }
      split; assumption.
    + exists r. split; [reflexivity|apply evolves_refl].
  - split.
    + rewrite List.map_app. simpl. apply NoDup_snoc; assumption.
    + intros i s H. exists s. split; [|apply evolves_refl].
      rewrite List.nth_error_app1; [exact H|].
      apply List.nth_error_Some. congruence.
Qed.

(** C3.  Start from a share table with distinct ids and run any sequence of
    [shareNote], [acceptSharedNote], [declineSharedNote] and [revokeShare]
    calls (each [shareNote] bringing an id the table does not hold yet),
    whatever each call returns or throws.  Every share row is still in its
    place with its id; if it was revoked it is revoked; if it was accepted it
    is accepted; and if it was revoked without being accepted it is not
    accepted: no operation sets [isAccepted] on a revoked share. *)
Theorem share_flags_monotone (socketService : bool) (ops : list ShareOp) :
  forall (w : World) (i : nat) (s : NoteShare.t),
    List.NoDup (shareIds w) ->
    admissible socketService ops w = true ->
    List.nth_error (shareTable w) i = Some s ->
    exists s',
      List.nth_error (shareTable (runOps socketService ops w)) i = Some s'
      /\ NoteShare.id s' = NoteShare.id s
      /\ (NoteShare.isRevoked s = true -> NoteShare.isRevoked s' = true)
      /\ (NoteShare.isAccepted s = true -> NoteShare.isAccepted s' = true)
      /\ (NoteShare.isRevoked s = true -> NoteShare.isAccepted s = false ->
          NoteShare.isAccepted s' = false).
Proof.
  assert (Hgen : forall w i s,
             List.NoDup (shareIds w) ->
             admissible socketService ops w = true ->
             List.nth_error (shareTable w) i = Some s ->
             exists s',
               List.nth_error (shareTable (runOps socketService ops w)) i = Some s'
               /\ evolves s s').
  { induction ops as [|op rest IH]; intros w i s Hnd Hadm Hs.
    - exists s. split; [exact Hs|apply evolves_refl].
    - simpl in Hadm. apply andb_true_iff in Hadm as [Hfresh Hadm].
      destruct (tableStep_evolves _ _ Hnd (runOp_tableStep socketService op w Hfresh))
        as [Hnd' Hrows].
      destruct (Hrows i s Hs) as (s1 & Hs1 & Hev1).
      destruct (IH _ i s1 Hnd' Hadm Hs1) as (s' & Hs' & Hev').
      exists s'. split; [exact Hs'|]. eapply evolves_trans; eassumption. }
  intros w i s Hnd Hadm Hs.
  destruct (Hgen w i s Hnd Hadm Hs) as (s' & Hs' & Hid & Hr & Ha & Hf).
  exists s'. repeat split; auto.
  intros H1 H2. rewrite (Hf H1). exact H2.
Qed.

Lemma share_flags_monotone_witness :
  List.NoDup (shareIds Demo.afterDecline)
  /\ admissible true Demo.retries Demo.afterDecline = true
  /\ List.nth_error (shareTable Demo.afterDecline) 0 = Some Demo.shareBob
  /\ List.nth_error (shareTable Demo.afterDecline) 1 = Some Demo.shareCarol
  /\ List.nth_error (shareTable Demo.afterDecline) 4 = Some Demo.shareDeclined
  /\ (exists s',
        List.nth_error (shareTable (runOps true Demo.retries Demo.afterDecline)) 0
        = Some s'
        /\ NoteShare.id s' = "s1"
        /\ NoteShare.isAccepted s' = true)
  /\ (exists s',
        List.nth_error (shareTable (runOps true Demo.retries Demo.afterDecline)) 1
        = Some s'
        /\ NoteShare.id s' = "s2"
        /\ NoteShare.isRevoked s' = true
        /\ NoteShare.isAccepted s' = true)
  /\ (exists s',
        List.nth_error (shareTable (runOps true Demo.retries Demo.afterDecline)) 4
        = Some s'
        /\ NoteShare.id s' = "s6"
        /\ NoteShare.isRevoked s' = true
        /\ NoteShare.isAccepted s' = false).
Proof.
  assert (Hnd : List.NoDup (shareIds Demo.afterDecline)).
  { repeat (constructor; [simpl; intuition discriminate|]). constructor. }
  assert (Hadm : admissible true Demo.retries Demo.afterDecline = true)
    by (vm_compute; reflexivity).
  split; [exact Hnd|]. split; [exact Hadm|].
  split; [reflexivity|]. split; [reflexivity|]. split; [reflexivity|].
  split; [|split].
  - destruct (share_flags_monotone true Demo.retries Demo.afterDecline 0
                Demo.shareBob Hnd Hadm eq_refl) as (s' & Hs' & Hid & _ & Hacc & _).
    exists s'. split; [exact Hs'|]. split; [exact Hid|]. apply Hacc. reflexivity.
  - destruct (share_flags_monotone true Demo.retries Demo.afterDecline 1
                Demo.shareCarol Hnd Hadm eq_refl) as (s' & Hs' & Hid & Hrev & Hacc & _).
    exists s'. split; [exact Hs'|]. split; [exact Hid|].
    split; [apply Hrev|apply Hacc]; reflexivity.
  - destruct (share_flags_monotone true Demo.retries Demo.afterDecline 4
                Demo.shareDeclined Hnd Hadm eq_refl)
      as (s' & Hs' & Hid & Hrev & _ & Hnever).
    exists s'. split; [exact Hs'|]. split; [exact Hid|].
    split; [apply Hrev|apply Hnever]; reflexivity.
Defined.

(** A share that was accepted and is revoked afterwards keeps [isAccepted]:
    both flags are set on the row [revokeShare] saves. *)
Example accepted_then_revoked_keeps_both_flags :
  List.nth_error
    (shareTable (runOps true [OpAccept "tok3" "B"; OpRevoke "s3" "A"] Demo.world)) 2
  = Some (NoteShare.mk "s3" "n1" (Some "B") (Some "b@x.com") READ true true
                       (Some "tok3")).
Proof. vm_compute. reflexivity. Qed.

(** ** The content-change handler *)

Lemma receivers_except room sender (ss : list Socket.t) (c : Socket.t) :
  In c ss ->
  (In (Socket.sid c) (receivers (ToRoomExcept room sender) ss)
   <-> exists c', In c' ss /\ Socket.sid c' = Socket.sid c
                  /\ room ∈ Socket.rooms c' /\ Socket.sid c' <> sender).
Proof.
  intros Hin. unfold receivers. rewrite List.in_map_iff. split.
  - intros (c' & Hsid & Hc'). apply List.filter_In in Hc' as [Hc' Hf].
    apply andb_true_iff in Hf as [Hroom Hne].
    exists c'. repeat split; auto.
    + unfold inRoom in Hroom. apply bool_decide_eq_true in Hroom. exact Hroom.
    + apply negb_true_iff, Nat.eqb_neq in Hne. exact Hne.
  - intros (c' & Hc' & Hsid & Hroom & Hne). exists c'. split; [exact Hsid|].
    apply List.filter_In. split; [exact Hc'|].
    apply andb_true_iff. split.
    + unfold inRoom. apply bool_decide_eq_true. exact Hroom.
    + apply negb_true_iff, Nat.eqb_neq. exact Hne.
Qed.

Lemma receivers_except_sender room sender (ss : list Socket.t) :
  ~ In sender (receivers (ToRoomExcept room sender) ss).
Proof.
  unfold receivers. rewrite List.in_map_iff. intros (c & Hsid & Hc).
  apply List.filter_In in Hc as [_ Hf]. apply andb_true_iff in Hf as [_ Hne].
  apply negb_true_iff, Nat.eqb_neq in Hne. congruence.
Qed.

(** C8, with the save guard as the code has it.  A content-change message
    from an authenticated socket that is not in the note's room changes
    nothing: no event, no write.  From a socket in the room, the delta is
    delivered, tagged with the sender's user id and the server time, to the
    sockets that are in the room other than the sender, and never to the
    sender.  After that the handler calls [updateNote] with the content and
    the title exactly when the title of the delta is truthy (present and not
    empty); a failing save is answered with an error event to the sender
    only. *)
Theorem onContentChange_relay (now : Z) (newRevisionId : string) (sid : nat)
    (change : ContentChange) (w : World) (socket : Socket.t) (userId : string) :
  findSocket sid (io w) = Some socket ->
  authenticated socket = Some userId ->
  let noteId := change_noteId change in
  let event := ContentUpdate noteId (change_content change) (change_title change)
                             (change_cursorPosition change) userId now in
  let sent := deliveries (ToRoomExcept (noteRoom noteId) sid) event (io w) in
  let relayed := mkWorld (db w) (io w) (outbox w ++ sent) in
  let patch := mkPatch (change_title change) (Some (change_content change)) None in
  (noteRoom noteId ∉ Socket.currentRooms socket ->
   onContentChange now newRevisionId sid change w = (Ok tt, w))
  /\ (noteRoom noteId ∈ Socket.currentRooms socket ->
      (forall c, In c (sockets (io w)) ->
         (In (Socket.sid c, event) sent
          <-> exists c', In c' (sockets (io w)) /\ Socket.sid c' = Socket.sid c
                         /\ noteRoom noteId ∈ Socket.rooms c'
                         /\ Socket.sid c' <> sid))
      /\ ~ In (sid, event) sent
      /\ (Js.truthy (change_title change) = false ->
          onContentChange now newRevisionId sid change w = (Ok tt, relayed))
      /\ (Js.truthy (change_title change) = true ->
          exists r w1,
            updateNote newRevisionId noteId userId patch relayed = (r, w1)
            /\ onContentChange now newRevisionId sid change w
               = (Ok tt,
                  match r with
                  | Ok _ => w1
                  | Throw _ =>
                      mkWorld (db w1) (io w1)
                              (outbox w1 ++ [(sid, ErrorEvent "Failed to save note")])
                  end))).
Proof.
  intros Hsock Hauth noteId event sent relayed patch.
  unfold onContentChange, onSocket. rewrite Hsock.
  unfold tryCatch at 1. rewrite Hauth. fold noteId.
  split.
  - intros Hout. rewrite bool_decide_eq_false_2 by exact Hout. reflexivity.
  - intros Hin. rewrite bool_decide_eq_true_2 by exact Hin.
    split; [|split; [|split]].
    + intros c Hc. unfold sent, deliveries. rewrite List.in_map_iff.
      rewrite <- (receivers_except (noteRoom noteId) sid (sockets (io w)) c Hc).
      split.
      * intros (r & [= <-] & Hr). exact Hr.
      * intros Hr. exists (Socket.sid c). split; [reflexivity|exact Hr].
    + unfold sent, deliveries. rewrite List.in_map_iff.
      intros (r & [= <-] & Hr).
      exact (receivers_except_sender _ _ _ Hr).
    + intros Ht. unfold bind, emit. cbn [db io outbox]. rewrite Ht. reflexivity.
    + intros Ht. unfold bind at 1. unfold emit at 1. cbn [db io outbox].
      rewrite Ht. subst relayed sent. unfold deliveries.
      fold event. fold patch. unfold tryCatch, bind.
      destruct (updateNote newRevisionId noteId userId patch _) as [r w1].
      exists r, w1. split; [reflexivity|].
      destruct r; reflexivity.
Qed.

Lemma onContentChange_relay_witness :
  findSocket 1 (io Demo.world) = Some Demo.socketA
  /\ authenticated Demo.socketA = Some "A"
  /\ findSocket 3 (io Demo.world) = Some Demo.socketC
  /\ authenticated Demo.socketC = Some "C"
  /\ onContentChange 100 "r2" 3 Demo.save Demo.world = (Ok tt, Demo.world)
  /\ exists r w1,
       updateNote "r2" "n1" "A" (mkPatch (Some "T2") (Some "C2") None)
         (mkWorld Demo.store Demo.service
                  (deliveries (ToRoomExcept "note:n1" 1)
                     (ContentUpdate "n1" "C2" (Some "T2") None "A" 100)
                     Demo.service))
       = (r, w1)
       /\ onContentChange 100 "r2" 1 Demo.save Demo.world
          = (Ok tt,
             match r with
             | Ok _ => w1
             | Throw _ =>
                 mkWorld (db w1) (io w1)
                         (outbox w1 ++ [(1%nat, ErrorEvent "Failed to save note")])
             end).
Proof.
  split; [reflexivity|]. split; [reflexivity|].
  split; [reflexivity|]. split; [reflexivity|].
  pose proof (onContentChange_relay 100 "r2" 3 Demo.save Demo.world Demo.socketC "C"
                eq_refl eq_refl) as [HC _].
  pose proof (onContentChange_relay 100 "r2" 1 Demo.save Demo.world Demo.socketA "A"
                eq_refl eq_refl) as [_ HA].
  split.
  - apply HC. simpl. set_solver.
  - assert (Hin : noteRoom (change_noteId Demo.save) ∈ Socket.currentRooms Demo.socketA).
    { simpl. set_solver. }
    destruct (HA Hin) as (_ & _ & _ & Hsave).
    exact (Hsave eq_refl).
Defined.

(** C8 as the spec words it fails for a delta whose title is the empty
    string: Alice is in the room of [n1] and her delta supplies a title, the
    delta reaches Bob, but the store is not written; the same delta with the
    title [T2] is saved. *)
Lemma onContentChange_empty_title_not_saved :
  change_title Demo.keystroke = Some EmptyString
  /\ bool_decide ("note:n1" ∈ Socket.currentRooms Demo.socketA) = true
  /\ outbox (snd (onContentChange 100 "r2" 1 Demo.keystroke Demo.world))
     = [(2%nat, ContentUpdate "n1" "C2" (Some EmptyString) None "A" 100)]
  /\ db (snd (onContentChange 100 "r2" 1 Demo.keystroke Demo.world)) = db Demo.world
  /\ stored "n1" (snd (onContentChange 100 "r2" 1 Demo.save Demo.world))
     = Some (Note.mk "n1" "T2" "C2" false "A" 2).
Proof.
  split; [reflexivity|]. split; [vm_compute; reflexivity|].
  split; [vm_compute; reflexivity|]. split; vm_compute; reflexivity.
Qed.

(** ** Room membership stays in sync *)

Lemma noteRoom_not_userRoom noteId userId : noteRoom noteId <> userRoom userId.
Proof. unfold noteRoom, userRoom. simpl. discriminate. Qed.

Lemma inSync_updateSocket sid f ss :
  inSync ss ->
  (forall s noteId,
     (noteRoom noteId ∈ Socket.currentRooms s <-> noteRoom noteId ∈ Socket.rooms s) ->
     (noteRoom noteId ∈ Socket.currentRooms (f s)
      <-> noteRoom noteId ∈ Socket.rooms (f s))) ->
  forall au ur,
    inSync (mkSocketService (sockets (updateSocket sid f ss)) au ur).
Proof.
  intros Hsync Hf au ur c Hc noteId. simpl in Hc.
  apply List.in_map_iff in Hc as (s & <- & Hs).
  destruct (Nat.eqb (Socket.sid s) sid).
  - apply Hf. apply Hsync. exact Hs.
  - apply Hsync. exact Hs.
Qed.

Lemma onConnection_inSync sid userId w :
  inSync (io w) -> inSync (io (snd (onConnection sid userId w))).
Proof.
  intros Hsync c Hc noteId. simpl in Hc.
  apply List.in_app_or in Hc as [Hc|[<-|[]]]; [apply Hsync; exact Hc|].
  simpl. destruct (Js.truthy userId); [destruct userId as [u|]|].
  - split; [set_solver|]. intros H. apply elem_of_singleton in H.
    exfalso. exact (noteRoom_not_userRoom _ _ H).
  - set_solver.
  - set_solver.
Qed.

Lemma onJoinNote_inSync sid noteId w :
  inSync (io w) -> inSync (io (snd (onJoinNote sid noteId w))).
Proof.
  intros Hsync. unfold onJoinNote, onSocket.
  destruct (findSocket sid (io w)) as [socket|]; [|exact Hsync].
  unfold tryCatch at 1.
  destruct (authenticated socket) as [userId|]; [|exact Hsync].
  unfold bind at 1. unfold tryCatch, bind.
  destruct (getNoteById_result noteId userId w) as [r ->].
  destruct r as [note|msg]; [|exact Hsync].
  simpl. apply inSync_updateSocket; [exact Hsync|].
  intros s n H. simpl. rewrite !elem_of_union, H. reflexivity.
Qed.

Lemma onLeaveNote_inSync sid noteId w :
  inSync (io w) -> inSync (io (snd (onLeaveNote sid noteId w))).
Proof.
  intros Hsync. unfold onLeaveNote, onSocket.
  destruct (findSocket sid (io w)) as [socket|]; [|exact Hsync].
  destruct (bool_decide _); [|exact Hsync].
  assert (Hleft : forall au ur,
             inSync (mkSocketService
                       (sockets (updateSocket sid (leaveRooms (noteRoom noteId)) (io w)))
                       au ur)).
  { apply inSync_updateSocket; [exact Hsync|].
    intros s n H. simpl. rewrite !elem_of_difference, H. reflexivity. }
  unfold bind, modifyIo, readIo. simpl.
  destruct (authenticated socket) as [userId|]; [|apply Hleft].
  destruct (bool_decide _); simpl; apply Hleft.
Qed.

Lemma updateNote_io rid noteId userId p w :
  io (snd (updateNote rid noteId userId p w)) = io w.
Proof.
  destruct (Repo.findNote noteId (db w)) as [note|] eqn:Hfind.
  - destruct (canEdit userId note) eqn:Hperm.
    + destruct (updateNote_permitted rid noteId userId p w note Hfind Hperm)
        as [e [-> _]].
      destruct (contentChanged p (row note)); reflexivity.
    + rewrite (updateNote_denied rid noteId userId p w note Hfind Hperm). reflexivity.
  - unfold updateNote, bind, query. rewrite Hfind. reflexivity.
Qed.

Lemma onContentChange_io now rid sid change w :
  io (snd (onContentChange now rid sid change w)) = io w.
Proof.
  unfold onContentChange, onSocket.
  destruct (findSocket sid (io w)) as [socket|]; [|reflexivity].
  unfold tryCatch at 1.
  destruct (authenticated socket) as [userId|]; [|reflexivity].
  destruct (bool_decide _); [|reflexivity].
  unfold bind at 1. unfold emit at 1. cbn [db io outbox].
  destruct (Js.truthy (change_title change)); [|reflexivity].
  unfold tryCatch, bind.
  match goal with
  | |- context [updateNote ?a ?b ?c ?d ?w0] =>
      pose proof (updateNote_io a b c d w0) as Hio;
      destruct (updateNote a b c d w0) as [r w1]
  end.
  simpl in Hio. destruct r; simpl; exact Hio.
Qed.

(** * Further properties of the note service *)

(** ** Creating and reading back *)

(** X1.  [createNote] for an id that is no user throws "User not found" and
    changes nothing.  For a user, with a note id the store does not hold yet,
    the created note can be read back by its creator with permission [EDIT],
    and, when no share row refers to that id, by nobody else. *)
Theorem createNote_then_getNoteById (nid rid userId : string) (data : NoteInput)
    (w : World) :
  (Repo.findUser userId (db w) = None ->
   createNote nid rid userId data w = (Throw msgUserNotFound, w))
  /\ forall u, Repo.findUser userId (db w) = Some u ->
       stored nid w = None ->
       let note := Note.mk nid (input_title data) (input_content data) false userId 1 in
       exists w1,
         createNote nid rid userId data w = (Ok note, w1)
         /\ getNoteById nid userId w1
            = (Ok (mkEntity note (Some u) [] (Some EDIT)), w1)
         /\ (Repo.sharesOf nid (db w) = [] ->
             forall other, other <> userId ->
               getNoteById nid other w1 = (Throw msgNoAccess, w1)).
Proof.
  split.
  - intros Hu. unfold createNote, bind, query. rewrite Hu. reflexivity.
  - intros u Hu Hfresh note.
    rewrite (createNote_eq nid rid userId data w u Hu). fold note.
    eexists. split; [reflexivity|].
    set (w1 := mkWorld _ _ _).
    assert (Hfind : Repo.findNote nid (db w1)
                    = Some (mkEntity note (Some u) (Repo.sharesOf nid (db w)) None)).
    { unfold Repo.findNote, Repo.findNoteRow, w1. simpl.
      rewrite find_app_none by exact Hfresh. simpl. rewrite String.eqb_refl.
      unfold Repo.findUser in *. simpl. rewrite Hu. reflexivity. }
    split.
    + rewrite (getNoteById_eq _ _ _ _ Hfind). simpl.
      rewrite String.eqb_refl. reflexivity.
    + intros Hnone other Hne. rewrite (getNoteById_eq _ _ _ _ Hfind). simpl.
      apply not_eq_sym, String.eqb_neq in Hne. rewrite Hne, Hnone. reflexivity.
Qed.

Lemma createNote_then_getNoteById_witness :
  Repo.findUser "A" (db Demo.empty) = Some Demo.alice
  /\ stored "n1" Demo.empty = None
  /\ exists w1,
       createNote "n1" "r1" "A" (mkNoteInput "T" "C1") Demo.empty
       = (Ok Demo.note1, w1)
       /\ getNoteById "n1" "A" w1
          = (Ok (mkEntity Demo.note1 (Some Demo.alice) [] (Some EDIT)), w1)
       /\ (Repo.sharesOf "n1" (db Demo.empty) = [] ->
           forall other, other <> "A" ->
             getNoteById "n1" other w1 = (Throw msgNoAccess, w1)).
Proof.
  split; [reflexivity|]. split; [reflexivity|].
  exact (proj2 (createNote_then_getNoteById "n1" "r1" "A" (mkNoteInput "T" "C1")
                  Demo.empty) Demo.alice eq_refl eq_refl).
Defined.

(** ** Who may write *)

(** X2.  A user who is not the owner and whose granting share carries [READ]
    reads the note with permission [READ]; their [updateNote], whatever the
    patch, and their [deleteNote] are refused and change nothing. *)
Theorem read_share_reads_but_does_not_write (noteId userId : string) (w : World)
    (note : NoteEntity) (s : NoteShare.t) :
  Repo.findNote noteId (db w) = Some note ->
  Note.ownerId (row note) <> userId ->
  List.find (grantsAccess userId) (shares note) = Some s ->
  NoteShare.permission s = READ ->
  getNoteById noteId userId w
  = (Ok (withShares [] (withPermission READ note)), w)
  /\ (forall rid p, updateNote rid noteId userId p w = (Throw msgNoEdit, w))
  /\ (forall faults, deleteNote faults noteId userId w = (Throw msgOwnerDelete, w)).
Proof.
  intros Hfind Hne Hs Hperm. pose proof Hne as Hne'.
  apply String.eqb_neq in Hne.
  assert (Hget : getNoteById noteId userId w
                 = (Ok (withShares [] (withPermission READ note)), w)).
  { rewrite (getNoteById_eq _ _ _ _ Hfind), Hne, Hs, Hperm. reflexivity. }
  split; [exact Hget|]. split.
  - intros rid p. apply (updateNote_denied rid noteId userId p w note Hfind).
    unfold canEdit. rewrite Hne, Hs, Hperm. reflexivity.
  - intros faults. unfold deleteNote, bind. rewrite Hget. simpl.
    rewrite Hne. reflexivity.
Qed.

Lemma read_share_reads_but_does_not_write_witness :
  Repo.findNote "n2" (db Demo.library)
  = Some (mkEntity Demo.note2 (Some Demo.alice) [Demo.shareRead] None)
  /\ getNoteById "n2" "C" Demo.library
     = (Ok (mkEntity Demo.note2 (Some Demo.alice) [] (Some READ)), Demo.library)
  /\ (forall rid p, updateNote rid "n2" "C" p Demo.library
                    = (Throw msgNoEdit, Demo.library))
  /\ (forall faults, deleteNote faults "n2" "C" Demo.library
                     = (Throw msgOwnerDelete, Demo.library)).
Proof.
  split; [reflexivity|].
  apply (read_share_reads_but_does_not_write "n2" "C" Demo.library _ Demo.shareRead
           eq_refl); [discriminate | reflexivity | reflexivity].
Defined.

(** ** Runs of note operations *)

Lemma assignPatch_ownerId p n : Note.ownerId (assignPatch p n) = Note.ownerId n.
Proof.
  unfold assignPatch.
  destruct (patch_title p), (patch_content p), (patch_isArchived p); reflexivity.
Qed.

Lemma find_app_some {A} (f : A -> bool) (l l' : list A) (a : A) :
  List.find f l = Some a -> List.find f (l ++ l') = Some a.
Proof.
  induction l as [|x l IH]; simpl; [discriminate|].
  destruct (f x); [auto|exact IH].
Qed.

(** Either [restoreRevision] throws and leaves the world as it was; or the
    caller owns the note, the snapshot is inserted and, when the note has no
    share row, the restored row is written; with a share row the call throws
    after the insert. *)
Lemma restoreRevision_cases rid noteId revisionId userId w :
  (exists msg, restoreRevision rid noteId revisionId userId w = (Throw msg, w))
  \/ (exists note revision,
        Repo.findNote noteId (db w) = Some note
        /\ Note.ownerId (row note) = userId
        /\ Repo.findRevision revisionId noteId (db w) = Some revision
        /\ ((Repo.sharesOf noteId (db w) = []
             /\ exists e,
                  restoreRevision rid noteId revisionId userId w =
                    (Ok e,
                     mkWorld (Repo.updateNote
                                (Note.withContent (NoteRevision.content revision)
                                   (Note.withVersion (Note.version (row note) + 1)
                                                     (row note)))
                                (Repo.insertRevision
                                   (snapshotOf rid noteId userId (row note)) (db w)))
                             (io w) (outbox w)))
            \/ (Repo.sharesOf noteId (db w) <> []
                /\ restoreRevision rid noteId revisionId userId w =
                     (Throw msgShareNoteIdNull,
                      mkWorld (Repo.insertRevision
                                 (snapshotOf rid noteId userId (row note)) (db w))
                              (io w) (outbox w))))).
Proof.
  destruct (Repo.findNote noteId (db w)) as [note|] eqn:Hfind.
  2:{ left. exists msgNoteNotFound. unfold restoreRevision, bind.
      rewrite (getNoteById_missing _ _ _ Hfind). reflexivity. }
  destruct (String.eqb (Note.ownerId (row note)) userId) eqn:Hown.
  - apply String.eqb_eq in Hown.
    destruct (Repo.findRevision revisionId noteId (db w)) as [revision|] eqn:Hrev.
    + right. exists note, revision. split; [reflexivity|]. split; [exact Hown|].
      split; [reflexivity|].
      rewrite (restoreRevision_owner_eq _ _ _ _ _ _ _ Hfind Hown Hrev).
      destruct (Repo.sharesOf noteId (db w)) as [|s l].
      * left. split; [reflexivity|]. eexists. reflexivity.
      * right. split; [discriminate|reflexivity].
    + left. exists "Revision not found". subst userId.
      unfold restoreRevision, bind, query.
      rewrite (getNoteById_eq _ _ _ _ Hfind), String.eqb_refl. simpl.
      rewrite String.eqb_refl. simpl. rewrite Hrev. reflexivity.
  - left. unfold restoreRevision, bind.
    rewrite (getNoteById_eq _ _ _ _ Hfind), Hown. simpl.
    destruct (List.find (grantsAccess userId) (shares note)); simpl.
    + rewrite Hown. simpl. eexists. reflexivity.
    + eexists. reflexivity.
Qed.

(** One operation: the revision table only grows at its end, by at most one
    row, and a stored note keeps its id and owner while its version stays or
    grows by one. *)
Lemma runNoteOp_step op w :
  (exists suffix,
     revisionRepository (db (runNoteOp op w)) = revisionRepository (db w) ++ suffix
     /\ (length suffix <= 1)%nat)
  /\ forall nid n, stored nid w = Some n ->
       exists n', stored nid (runNoteOp op w) = Some n'
                  /\ Note.id n' = Note.id n
                  /\ Note.ownerId n' = Note.ownerId n
                  /\ Note.version n <= Note.version n' <= Note.version n + 1.
Proof.
  assert (Hsame : forall w' : World, w' = w ->
            (exists suffix,
               revisionRepository (db w') = revisionRepository (db w) ++ suffix
               /\ (length suffix <= 1)%nat)
            /\ forall nid n, stored nid w = Some n ->
                 exists n', stored nid w' = Some n'
                            /\ Note.id n' = Note.id n
                            /\ Note.ownerId n' = Note.ownerId n
                            /\ Note.version n <= Note.version n' <= Note.version n + 1).
  { intros w' ->. split.
    - exists []. rewrite List.app_nil_r. split; [reflexivity|simpl; lia].
    - intros nid n Hn. exists n. repeat split; auto; lia. }
  destruct op as [nid0 rid userId data|rid noteId userId p|rid noteId revisionId userId];
    simpl.
  - (* createNote *)
    destruct (Repo.findUser userId (db w)) as [u|] eqn:Hu.
    + rewrite (createNote_eq nid0 rid userId data w u Hu). simpl. split.
      * eexists. split; [reflexivity|simpl; lia].
      * intros nid n Hn. exists n. split; [|repeat split; lia].
        unfold stored, Repo.findNoteRow in *. simpl.
        apply find_app_some. exact Hn.
    + apply Hsame. unfold createNote, bind, query. rewrite Hu. reflexivity.
  - (* updateNote *)
    destruct (updateNote_cases rid noteId userId p w)
      as [[msg ->]|(note & e & Hfind & _ & ->)]; [apply Hsame; reflexivity|].
    pose proof (findNote_inv _ _ _ Hfind) as (Hrow & Hid & _).
    simpl. destruct (contentChanged p (row note)); simpl; split.
    + eexists. split; [reflexivity|simpl; lia].
    + intros nid n Hn. eexists. split.
      * eapply stored_after_write; [reflexivity| |exact Hn].
        rewrite assignPatch_id. simpl. rewrite Hid. exact Hrow.
      * rewrite assignPatch_id. simpl Note.id. rewrite Hid.
        destruct (String.eqb noteId nid) eqn:E.
        -- apply String.eqb_eq in E. subst nid.
           unfold stored in Hn. rewrite Hrow in Hn. injection Hn as <-.
           rewrite assignPatch_id, assignPatch_ownerId, assignPatch_version.
           simpl. repeat split; lia.
        -- repeat split; lia.
    + exists []. rewrite List.app_nil_r. split; [reflexivity|simpl; lia].
    + intros nid n Hn. eexists. split.
      * eapply stored_after_write; [reflexivity| |exact Hn].
        rewrite assignPatch_id, Hid. exact Hrow.
      * rewrite assignPatch_id, Hid.
        destruct (String.eqb noteId nid) eqn:E.
        -- apply String.eqb_eq in E. subst nid.
           unfold stored in Hn. rewrite Hrow in Hn. injection Hn as <-.
           rewrite assignPatch_id, assignPatch_ownerId, assignPatch_version.
           repeat split; lia.
        -- repeat split; lia.
  - (* restoreRevision *)
    destruct (restoreRevision_cases rid noteId revisionId userId w)
      as [[msg ->]
         |(note & revision & Hfind & _ & _ & [(_ & e & ->)|(_ & ->)])];
      [apply Hsame; reflexivity| |].
    + (* the restored row is written *)
      pose proof (findNote_inv _ _ _ Hfind) as (Hrow & Hid & _).
      simpl. split.
      * eexists. split; [reflexivity|simpl; lia].
      * intros nid n Hn. eexists. split.
        -- eapply stored_after_write; [reflexivity| |exact Hn].
           simpl. rewrite Hid. exact Hrow.
        -- simpl Note.id. rewrite Hid.
           destruct (String.eqb noteId nid) eqn:E.
           ++ apply String.eqb_eq in E. subst nid.
              unfold stored in Hn. rewrite Hrow in Hn. injection Hn as <-.
              simpl. repeat split; lia.
           ++ repeat split; lia.
    + (* the save of the note failed after the snapshot *)
      cbn [snd]. split.
      * eexists. split; [reflexivity|simpl; lia].
      * intros nid n Hn. exists n. split; [exact Hn|]. repeat split; lia.
Qed.

(** X3.  Over any run of [createNote], [updateNote] and [restoreRevision]
    calls, returning or throwing: the revisions that were stored are still
    there, unchanged and in place (the table only grows at its end, by at
    most one row per call), and a stored note is still stored with the same
    id and owner and a version that never went down and grew by at most one
    per call. *)
Theorem note_runs_only_append_and_bump (ops : list NoteOp) :
  forall w : World,
    (exists suffix,
       revisionRepository (db (runNoteOps ops w))
       = revisionRepository (db w) ++ suffix
       /\ (length suffix <= length ops)%nat)
    /\ forall nid n, stored nid w = Some n ->
         exists n', stored nid (runNoteOps ops w) = Some n'
                    /\ Note.id n' = Note.id n
                    /\ Note.ownerId n' = Note.ownerId n
                    /\ Note.version n <= Note.version n'
                       <= Note.version n + Z.of_nat (length ops).
Proof.
  induction ops as [|op rest IH]; intros w.
  - split.
    + exists []. rewrite List.app_nil_r. split; [reflexivity|simpl; lia].
    + intros nid n Hn. exists n. simpl. repeat split; auto; lia.
  - destruct (runNoteOp_step op w) as [(s1 & Hs1 & Hl1) Hrow1].
    destruct (IH (runNoteOp op w)) as [(s2 & Hs2 & Hl2) Hrow2].
    split.
    + exists (s1 ++ s2). cbn [runNoteOps]. rewrite Hs2, Hs1, <- List.app_assoc.
      split; [reflexivity|]. rewrite List.length_app. simpl. lia.
    + intros nid n Hn.
      destruct (Hrow1 nid n Hn) as (n1 & Hn1 & Hi1 & Ho1 & Hv1).
      destruct (Hrow2 nid n1 Hn1) as (n2 & Hn2 & Hi2 & Ho2 & Hv2).
      exists n2. cbn [runNoteOps]. split; [exact Hn2|].
      split; [congruence|]. split; [congruence|].
      cbn [length]. lia.
Qed.

Lemma note_runs_only_append_and_bump_witness :
  stored "n2" Demo.library = Some Demo.note2
  /\ (exists suffix,
        revisionRepository (db (runNoteOps Demo.edits Demo.library))
        = revisionRepository (db Demo.library) ++ suffix
        /\ (length suffix <= 5)%nat)
  /\ (exists n', stored "n2" (runNoteOps Demo.edits Demo.library) = Some n'
                /\ Note.id n' = "n2"
                /\ Note.ownerId n' = "A"
                /\ 3 <= Note.version n' <= 3 + 5)
  /\ stored "n2" (runNoteOps Demo.edits Demo.library)
     = Some (Note.mk "n2" "T2b" "D2" false "A" 4)
  /\ List.map NoteRevision.id
       (revisionRepository (db (runNoteOps Demo.edits Demo.library)))
     = ["r1"; "r7"; "r6"; "r10"; "r12"; "r13"].
Proof.
  split; [reflexivity|].
  destruct (note_runs_only_append_and_bump Demo.edits Demo.library) as [Hrev Hrow].
  split; [exact Hrev|]. split; [exact (Hrow "n2" Demo.note2 eq_refl)|].
  split; vm_compute; reflexivity.
Defined.

(** ** After deleteNote *)

Lemma find_filter_other {A} (key : A -> string) (k k' : string) (l : list A) :
  k' <> k ->
  List.find (fun r => String.eqb (key r) k')
            (List.filter (fun r => negb (String.eqb (key r) k)) l)
  = List.find (fun r => String.eqb (key r) k') l.
Proof.
  intros Hne. induction l as [|r l IH]; simpl; [reflexivity|].
  destruct (String.eqb (key r) k) eqn:E; simpl.
  - apply String.eqb_eq in E. rewrite E.
    apply not_eq_sym, String.eqb_neq in Hne. rewrite Hne. exact IH.
  - rewrite IH. reflexivity.
Qed.

Lemma filter_filter_other {A} (key : A -> string) (k k' : string) (l : list A) :
  k' <> k ->
  List.filter (fun r => String.eqb (key r) k')
              (List.filter (fun r => negb (String.eqb (key r) k)) l)
  = List.filter (fun r => String.eqb (key r) k') l.
Proof.
  intros Hne. induction l as [|r l IH]; simpl; [reflexivity|].
  destruct (String.eqb (key r) k) eqn:E; simpl.
  - apply String.eqb_eq in E. rewrite E.
    apply not_eq_sym, String.eqb_neq in Hne. rewrite Hne. exact IH.
  - rewrite IH. reflexivity.
Qed.

Lemma find_token_filtered tok k (l : list NoteShare.t) :
  (forall s, In s l -> NoteShare.shareToken s = Some tok -> NoteShare.noteId s = k) ->
  List.find (fun s => Js.strictEq (NoteShare.shareToken s) tok)
            (List.filter (fun s => negb (String.eqb (NoteShare.noteId s) k)) l)
  = None.
Proof.
  intros Hall. induction l as [|r l IH]; simpl; [reflexivity|].
  assert (IH' := IH (fun s Hs => Hall s (or_intror Hs))).
  destruct (String.eqb (NoteShare.noteId r) k) eqn:E; simpl; [exact IH'|].
  destruct (Js.strictEq (NoteShare.shareToken r) tok) eqn:Et; [|exact IH'].
  exfalso. unfold Js.strictEq in Et.
  destruct (NoteShare.shareToken r) as [t|] eqn:Htok; [|discriminate].
  apply String.eqb_eq in Et. subst t.
  apply String.eqb_neq in E. apply E. apply Hall; [left; reflexivity|exact Htok].
Qed.

(** X4.  After the owner's [deleteNote] went through, the note is "not found"
    for every user, a token that only shares of that note carried is an
    invalid token, and every other note keeps its row, its ledger and its
    shares. *)
Theorem deleteNote_then_gone (faults : DbWrite -> option string)
    (noteId : string) (w : World) (note : NoteEntity) :
  Repo.findNote noteId (db w) = Some note ->
  faults (DeleteRevisionsOf noteId) = None ->
  faults (DeleteSharesOf noteId) = None ->
  faults (RemoveNote noteId) = None ->
  exists w',
    deleteNote faults noteId (Note.ownerId (row note)) w = (Ok tt, w')
    /\ (forall userId, getNoteById noteId userId w' = (Throw msgNoteNotFound, w'))
    /\ (forall socketService token userId,
          (forall s, In s (noteShareRepository (db w)) ->
                     NoteShare.shareToken s = Some token ->
                     NoteShare.noteId s = noteId) ->
          acceptSharedNote socketService token userId w'
          = (Throw msgInvalidToken, w'))
    /\ (forall other, other <> noteId ->
          stored other w' = stored other w
          /\ ledger other w' = ledger other w
          /\ Repo.sharesOf other (db w') = Repo.sharesOf other (db w)).
Proof.
  intros Hfind H1 H2 H3.
  rewrite (deleteNote_cascade_eq faults noteId w note Hfind).
  unfold tryCatch, bind, exec, write. rewrite H1, H2, H3. simpl.
  eexists. split; [reflexivity|]. split; [|split].
  - intros userId. apply getNoteById_missing. unfold Repo.findNote, Repo.findNoteRow.
    simpl. rewrite (find_filter_out Note.id). reflexivity.
  - intros ss token userId Hall. unfold acceptSharedNote, bind, query.
    unfold Repo.findShareByToken. simpl.
    rewrite (find_token_filtered token noteId _ Hall). reflexivity.
  - intros other Hne. split; [|split].
    + unfold stored, Repo.findNoteRow. simpl. apply (find_filter_other Note.id).
      exact Hne.
    + unfold ledger, Repo.revisionsOf. simpl.
      apply (filter_filter_other NoteRevision.noteId). exact Hne.
    + unfold Repo.sharesOf. simpl.
      apply (filter_filter_other NoteShare.noteId). exact Hne.
Qed.

Lemma deleteNote_then_gone_witness :
  Repo.findNote "n2" (db Demo.library)
  = Some (mkEntity Demo.note2 (Some Demo.alice) [Demo.shareRead] None)
  /\ exists w',
       deleteNote noFaults "n2" "A" Demo.library = (Ok tt, w')
       /\ getNoteById "n2" "C" w' = (Throw msgNoteNotFound, w')
       /\ acceptSharedNote true "tok9" "C" w' = (Throw msgInvalidToken, w')
       /\ stored "n1" w' = Some Demo.note1
       /\ ledger "n1" w' = [Demo.rev1]
       /\ Repo.sharesOf "n1" (db w') = [Demo.shareBob].
Proof.
  split; [reflexivity|].
  destruct (deleteNote_then_gone noFaults "n2" Demo.library _ eq_refl
              eq_refl eq_refl eq_refl) as (w' & Hdel & Hget & Htok & Hother).
  exists w'. split; [exact Hdel|]. split; [apply Hget|]. split.
  - apply Htok. intros s Hin Ht. simpl in Hin.
    destruct Hin as [<-|[<-|[]]]; [discriminate|reflexivity].
  - destruct (Hother "n1") as (Hs & Hl & Hsh); [discriminate|].
    rewrite Hs, Hl, Hsh. repeat split; reflexivity.
Defined.

(** ** shareNote *)

Lemma findUser_id uid db u : Repo.findUser uid db = Some u -> User.id u = uid.
Proof.
  unfold Repo.findUser. intros H. apply List.find_some in H as [_ H].
  apply String.eqb_eq in H. exact H.
Qed.

(** Either [shareNote] throws and leaves the world as it was, or the caller
    owns the note and the invitation is inserted. *)
Lemma shareNote_cases socketService newShareId newToken userId shareData w :
  (exists msg,
     shareNote socketService newShareId newToken userId shareData w = (Throw msg, w))
  \/ (exists note out,
        Repo.findNote (share_noteId shareData) (db w) = Some note
        /\ Note.ownerId (row note) = userId
        /\ shareNote socketService newShareId newToken userId shareData w
           = (Ok (invitation newShareId newToken shareData (db w)),
              mkWorld (Repo.insertShare
                         (invitation newShareId newToken shareData (db w)) (db w))
                      (io w) out)).
Proof.
  unfold shareNote, bind, query.
  destruct (Repo.findNote (share_noteId shareData) (db w)) as [note|] eqn:Hfind.
  2:{ left. rewrite (getNoteById_missing _ _ _ Hfind). eexists. reflexivity. }
  pose proof (findNote_inv _ _ _ Hfind) as (_ & _ & _ & Howner & _).
  rewrite (getNoteById_eq _ _ _ _ Hfind).
  destruct (String.eqb (Note.ownerId (row note)) userId) eqn:Hown; simpl.
  - apply String.eqb_eq in Hown.
    destruct (owner note) as [o|] eqn:Ho; [|left; eexists; reflexivity].
    symmetry in Howner. apply findUser_id in Howner.
    rewrite Howner, Hown, String.eqb_refl. simpl.
    right. exists note. unfold write. simpl.
    fold (invitation newShareId newToken shareData (db w)).
    destruct (Repo.findUserByEmail (share_email shareData) (db w)) as [target|];
      [destruct socketService|]; simpl.
    + eexists. split; [reflexivity|]. split; [exact Hown|]. reflexivity.
    + exists (outbox w). split; [reflexivity|]. split; [exact Hown|]. reflexivity.
    + exists (outbox w). split; [reflexivity|]. split; [exact Hown|]. reflexivity.
  - destruct (List.find (grantsAccess userId) (shares note)) as [s|];
      [|left; eexists; reflexivity].
    simpl. destruct (owner note) as [o|] eqn:Ho; [|left; eexists; reflexivity].
    symmetry in Howner. apply findUser_id in Howner.
    rewrite Howner, Hown. simpl. left. eexists. reflexivity.
Qed.

Lemma find_app_miss {A} (f : A -> bool) (l : list A) (x : A) :
  f x = false -> List.find f (l ++ [x]) = List.find f l.
Proof.
  intros Hx. induction l as [|y l IH]; simpl; [rewrite Hx; reflexivity|].
  destruct (f y); [reflexivity|exact IH].
Qed.

(** Inserting a share that grants nothing changes no access decision. *)
Lemma getNoteById_after_insertShare share nid userId w out :
  NoteShare.isAccepted share = false ->
  fst (getNoteById nid userId
         (mkWorld (Repo.insertShare share (db w)) (io w) out))
  = fst (getNoteById nid userId w).
Proof.
  intros Hpending.
  destruct (Repo.findNote nid (db w)) as [note|] eqn:Hfind.
  - pose proof (findNote_inv _ _ _ Hfind) as (Hrow & Hid & Hshares & Howner & Hperm).
    set (w' := mkWorld _ _ _).
    assert (Hfind' : exists l, Repo.findNote nid (db w')
                               = Some (mkEntity (row note) (owner note) l None)
                               /\ List.find (grantsAccess userId) l
                                  = List.find (grantsAccess userId) (shares note)).
    { unfold Repo.findNote, Repo.findNoteRow in *. simpl.
      destruct (List.find _ (noteRepository (db w))) as [n|]; [|discriminate].
      injection Hfind as <-. simpl in *. eexists. split; [reflexivity|].
      unfold Repo.sharesOf. simpl. rewrite List.filter_app. simpl.
      destruct (String.eqb (NoteShare.noteId share) (Note.id n)).
      - apply find_app_miss. unfold grantsAccess. rewrite Hpending.
        apply andb_false_r.
      - rewrite List.app_nil_r. reflexivity. }
    destruct Hfind' as (l & Hfind' & Hl).
    rewrite (getNoteById_eq _ _ _ _ Hfind'), (getNoteById_eq _ _ _ _ Hfind).
    simpl. rewrite Hl. destruct note as [r o sh pm]. simpl in *. subst pm.
    destruct (negb _); [|reflexivity].
    destruct (List.find (grantsAccess userId) sh); reflexivity.
  - rewrite (getNoteById_missing _ _ _ Hfind).
    rewrite getNoteById_missing; [reflexivity|].
    unfold Repo.findNote, Repo.findNoteRow in *. simpl.
    destruct (List.find _ (noteRepository (db w))); [discriminate|reflexivity].
Qed.

(** X5.  [shareNote] returns only for the owner of the note.  What it inserts
    is a pending invitation: not accepted, not revoked, carrying the new token
    and the email, bound at once to the user registered under that email if
    there is one, with permission [READ] unless one was given.  It changes no
    other row, and after it every user's access to every note is what it was:
    sharing alone grants nothing. *)
Theorem shareNote_invites_without_granting (socketService : bool)
    (newShareId newToken userId : string) (shareData : ShareNoteInput)
    (w w' : World) (share : NoteShare.t) :
  shareNote socketService newShareId newToken userId shareData w = (Ok share, w') ->
  (exists n, stored (share_noteId shareData) w = Some n /\ Note.ownerId n = userId)
  /\ share = invitation newShareId newToken shareData (db w)
  /\ noteShareRepository (db w') = noteShareRepository (db w) ++ [share]
  /\ noteRepository (db w') = noteRepository (db w)
  /\ revisionRepository (db w') = revisionRepository (db w)
  /\ forall nid user,
       fst (getNoteById nid user w') = fst (getNoteById nid user w).
Proof.
  intros Hok.
  destruct (shareNote_cases socketService newShareId newToken userId shareData w)
    as [[msg Hthrow]|(note & out & Hfind & Hown & Heq)].
  - rewrite Hthrow in Hok. discriminate.
  - rewrite Heq in Hok. injection Hok as <- <-.
    pose proof (findNote_inv _ _ _ Hfind) as (Hrow & _).
    split; [exists (row note); split; assumption|].
    repeat (split; [reflexivity|]).
    intros nid user. apply getNoteById_after_insertShare. reflexivity.
Qed.

Lemma shareNote_invites_without_granting_witness :
  exists share w',
    shareNote true "s10" "tok10" "A" (mkShareInput "n2" "b@x.com" None) Demo.library
    = (Ok share, w')
    /\ share = NoteShare.mk "s10" "n2" (Some "B") (Some "b@x.com") READ false false
                            (Some "tok10")
    /\ noteShareRepository (db w') = [Demo.shareBob; Demo.shareRead; share]
    /\ fst (getNoteById "n2" "B" w') = Throw msgNoAccess.
Proof.
  assert (Hrun : exists share w',
             shareNote true "s10" "tok10" "A" (mkShareInput "n2" "b@x.com" None)
                       Demo.library = (Ok share, w')).
  { eexists _, _. vm_compute. reflexivity. }
  destruct Hrun as (share & w' & Hrun).
  destruct (shareNote_invites_without_granting _ _ _ _ _ _ _ _ Hrun)
    as (_ & Hshare & Htable & _ & _ & Haccess).
  exists share, w'. split; [exact Hrun|]. split; [exact Hshare|].
  split; [exact Htable|]. rewrite Haccess. reflexivity.
Defined.

(** X6.  [shareNote] by anyone but the owner, a holder of an edit share
    included, throws and changes nothing. *)
Theorem shareNote_owner_only (socketService : bool)
    (newShareId newToken userId : string) (shareData : ShareNoteInput)
    (w : World) (note : NoteEntity) :
  Repo.findNote (share_noteId shareData) (db w) = Some note ->
  Note.ownerId (row note) <> userId ->
  exists msg,
    shareNote socketService newShareId newToken userId shareData w = (Throw msg, w).
Proof.
  intros Hfind Hne.
  destruct (shareNote_cases socketService newShareId newToken userId shareData w)
    as [Hthrow|(note' & out & Hfind' & Hown & _)]; [exact Hthrow|].
  rewrite Hfind in Hfind'. injection Hfind' as <-. contradiction.
Qed.

Lemma shareNote_owner_only_witness :
  Repo.findNote "n1" (db Demo.world)
  = Some (mkEntity Demo.note1 (Some Demo.alice)
            [Demo.shareBob; Demo.shareCarol; Demo.sharePending; Demo.shareNoEmail]
            None)
  /\ canEdit "B" (mkEntity Demo.note1 (Some Demo.alice)
                    [Demo.shareBob; Demo.shareCarol; Demo.sharePending;
                     Demo.shareNoEmail] None) = true
  /\ exists msg,
       shareNote true "s10" "tok10" "B" (mkShareInput "n1" "c@x.com" (Some EDIT))
                 Demo.world = (Throw msg, Demo.world).
Proof.
  split; [reflexivity|]. split; [reflexivity|].
  apply (shareNote_owner_only true "s10" "tok10" "B"
           (mkShareInput "n1" "c@x.com" (Some EDIT)) Demo.world _ eq_refl).
  discriminate.
Defined.

(** ** Invite, accept, read *)

Lemma map_replace_fresh (s' : NoteShare.t) (t : list NoteShare.t) :
  ~ In (NoteShare.id s') (List.map NoteShare.id t) ->
  List.map (fun r => if String.eqb (NoteShare.id r) (NoteShare.id s') then s' else r) t
  = t.
Proof.
  induction t as [|r t IH]; simpl; [reflexivity|]. intros Hnotin.
  destruct (String.eqb (NoteShare.id r) (NoteShare.id s')) eqn:E.
  - exfalso. apply String.eqb_eq in E. apply Hnotin. left. exact E.
  - rewrite IH; [reflexivity|]. intros Hin. apply Hnotin. right. exact Hin.
Qed.

Lemma findUserByEmail_email e db u :
  Repo.findUserByEmail e db = Some u -> User.email u = e.
Proof.
  unfold Repo.findUserByEmail. intros H. apply List.find_some in H as [_ H].
  apply String.eqb_eq in H. exact H.
Qed.

(** X7.  The owner invites the user registered under an email, with a share
    id and a token the table does not hold yet; that user then redeems the
    token.  The accept returns the note, and, unless the user is the owner,
    [getNoteById] now lets them in: with the permission of the invitation
    when they had no granting share before, with the permission of the
    earlier share otherwise. *)
Theorem invite_accept_read (socketService : bool)
    (newShareId newToken ownerId : string) (shareData : ShareNoteInput)
    (w w1 : World) (share : NoteShare.t) (b : User.t) :
  shareNote socketService newShareId newToken ownerId shareData w = (Ok share, w1) ->
  ~ In newShareId (shareIds w) ->
  (forall s, In s (shareTable w) -> NoteShare.shareToken s <> Some newToken) ->
  Repo.findUserByEmail (share_email shareData) (db w) = Some b ->
  Repo.findUser (User.id b) (db w) = Some b ->
  exists n w2,
    stored (share_noteId shareData) w = Some n
    /\ acceptSharedNote socketService newToken (User.id b) w1 = (Ok (Some n), w2)
    /\ (User.id b <> ownerId ->
        exists e,
          getNoteById (share_noteId shareData) (User.id b) w2 = (Ok e, w2)
          /\ row e = n
          /\ permission e
             = Some (match List.find (grantsAccess (User.id b))
                                     (Repo.sharesOf (share_noteId shareData) (db w))
                     with
                     | Some earlier => NoteShare.permission earlier
                     | None => default READ (share_permission shareData)
                     end)).
Proof.
  intros Hshare Hfreshid Hfreshtok Hb Hbid.
  destruct (shareNote_cases socketService newShareId newToken ownerId shareData w)
    as [[msg Hthrow]|(note & out & Hfind & Hown & Heq)].
  { rewrite Hthrow in Hshare. discriminate. }
  rewrite Heq in Hshare. injection Hshare as <- <-.
  pose proof (findNote_inv _ _ _ Hfind) as (Hrow & Hid & Hshares & Howner & Hperm).
  set (inv := invitation newShareId newToken shareData (db w)) in *.
  set (w1 := mkWorld (Repo.insertShare inv (db w)) (io w) out).
  assert (Hinv_id : NoteShare.sharedWithId inv = Some (User.id b)).
  { unfold inv, invitation. rewrite Hb. reflexivity. }
  assert (Htok : List.find (fun s => Js.strictEq (NoteShare.shareToken s) newToken)
                           (noteShareRepository (db w1)) = Some inv).
  { unfold w1. simpl. rewrite find_app_none.
    - simpl. rewrite String.eqb_refl. reflexivity.
    - destruct (List.find _ (noteShareRepository (db w))) as [s|] eqn:E;
        [|reflexivity].
      exfalso. apply List.find_some in E as [Hin Ht]. apply (Hfreshtok s Hin).
      unfold Js.strictEq in Ht. destruct (NoteShare.shareToken s); [|discriminate].
      apply String.eqb_eq in Ht. congruence. }
  assert (Hload : Repo.findShareByToken newToken (db w1)
                  = Some (Repo.loadShare inv (db w1))).
  { unfold Repo.findShareByToken. rewrite Htok. reflexivity. }
  assert (Hnote1 : Repo.findNoteRow (share_noteId shareData) (db w1) = Some (row note))
    by exact Hrow.
  exists (row note).
  destruct (acceptSharedNote_cases socketService newToken (User.id b) w1)
    as [(msg & _ & _ & Hsome)
       |(loaded & user & out2 & r & Hfound & _ & _ & _ & _ & _ & Hacc & Hres)].
  - exfalso. specialize (Hsome _ Hload). cbn zeta in Hsome.
    change (shareRow (Repo.loadShare inv (db w1))) with inv in Hsome.
    change (NoteShare.isRevoked inv) with false in Hsome.
    change (NoteShare.isAccepted inv) with false in Hsome.
    cbv iota in Hsome. rewrite Hinv_id in Hsome. simpl Js.strictEq in Hsome.
    rewrite String.eqb_refl, andb_false_r in Hsome.
    change (Repo.findUser (User.id b) (db w1))
      with (Repo.findUser (User.id b) (db w)) in Hsome.
    rewrite Hbid in Hsome. destruct Hsome as [Hx _].
    change (NoteShare.email inv) with (Some (share_email shareData)) in Hx.
    simpl Js.strictEq in Hx.
    rewrite (findUserByEmail_email _ _ _ Hb), String.eqb_refl, andb_false_r in Hx.
    discriminate.
  - rewrite Hload in Hfound. injection Hfound as <-.
    change (shareRow (Repo.loadShare inv (db w1))) with inv in *.
    assert (Hrel : shareNoteRel (Repo.loadShare inv (db w1))
                   = Repo.findNote (share_noteId shareData) (db w1)) by reflexivity.
    assert (Hrel' : exists e1, Repo.findNote (share_noteId shareData) (db w1) = Some e1
                               /\ row e1 = row note).
    { unfold Repo.findNote. rewrite Hnote1. eexists. split; reflexivity. }
    destruct Hrel' as (e1 & He1 & Hrow1).
    destruct Hres as [->|[_ Hnone]];
      [|exfalso;
        change (Repo.findNote (share_noteId shareData) (db w1) = None) in Hnone;
        congruence].
    assert (Hacc' : acceptSharedNote socketService newToken (User.id b) w1
                    = (Ok (Some (row note)),
                       mkWorld (Repo.updateShare (accepted (User.id b) inv) (db w1))
                               (io w) out2)).
    { rewrite Hacc.
      change (shareNoteRel (Repo.loadShare inv (Repo.insertShare inv (db w))))
        with (Repo.findNote (share_noteId shareData) (db w1)).
      rewrite He1. simpl option_map. rewrite Hrow1. reflexivity. }
    clear Hacc.
    eexists. split; [exact Hrow|]. split; [exact Hacc'|].
    intros Hnotowner.
    set (w2 := mkWorld (Repo.updateShare _ _) _ _).
    assert (Htable : noteShareRepository (db w2)
                     = noteShareRepository (db w) ++ [accepted (User.id b) inv]).
    { unfold w2, w1. simpl. rewrite List.map_app. simpl.
      rewrite String.eqb_refl.
      rewrite (map_replace_fresh (accepted (User.id b) inv)); [reflexivity|].
      exact Hfreshid. }
    assert (Hfind2 : Repo.findNote (share_noteId shareData) (db w2)
                     = Some (mkEntity (row note) (owner note)
                               (shares note ++ [accepted (User.id b) inv]) None)).
    { unfold Repo.findNote.
      change (Repo.findNoteRow (share_noteId shareData) (db w2))
        with (Repo.findNoteRow (share_noteId shareData) (db w)).
      rewrite Hrow.
      change (Repo.findUser (Note.ownerId (row note)) (db w2))
        with (Repo.findUser (Note.ownerId (row note)) (db w)).
      rewrite <- Howner. unfold Repo.sharesOf. rewrite Htable, List.filter_app.
      simpl. rewrite Hid, String.eqb_refl.
      rewrite Hshares. reflexivity. }
    rewrite (getNoteById_eq _ _ _ _ Hfind2). simpl.
    rewrite Hown. apply not_eq_sym, String.eqb_neq in Hnotowner.
    rewrite Hnotowner. simpl. rewrite <- Hshares.
    destruct (List.find (grantsAccess (User.id b)) (shares note)) as [earlier|] eqn:E.
    + rewrite (find_app_some _ _ _ _ E). eexists. repeat split; reflexivity.
    + rewrite find_app_none by exact E. simpl.
      unfold grantsAccess. simpl. rewrite String.eqb_refl. simpl.
      eexists. repeat split; reflexivity.
Qed.

Lemma invite_accept_read_witness :
  exists share w1,
    shareNote true "s10" "tok10" "A" (mkShareInput "n1" "c@x.com" (Some READ))
              Demo.library = (Ok share, w1)
    /\ ~ In "s10" (shareIds Demo.library)
    /\ Repo.findUserByEmail "c@x.com" (db Demo.library) = Some Demo.carol
    /\ exists n w2,
         stored "n1" Demo.library = Some n
         /\ acceptSharedNote true "tok10" "C" w1 = (Ok (Some n), w2)
         /\ exists e, getNoteById "n1" "C" w2 = (Ok e, w2)
                      /\ row e = n
                      /\ permission e = Some READ.
Proof.
  assert (Hrun : exists share w1,
             shareNote true "s10" "tok10" "A"
                       (mkShareInput "n1" "c@x.com" (Some READ)) Demo.library
             = (Ok share, w1)).
  { eexists _, _. vm_compute. reflexivity. }
  destruct Hrun as (share & w1 & Hrun).
  assert (Hid : ~ In "s10" (shareIds Demo.library)).
  { simpl. intuition discriminate. }
  exists share, w1. split; [exact Hrun|]. split; [exact Hid|].
  split; [reflexivity|].
  destruct (invite_accept_read true "s10" "tok10" "A"
              (mkShareInput "n1" "c@x.com" (Some READ)) Demo.library w1 share
              Demo.carol Hrun Hid)
    as (n & w2 & Hn & Hacc & Hread).
  - intros s Hin. simpl in Hin. destruct Hin as [<-|[<-|[]]]; discriminate.
  - reflexivity.
  - reflexivity.
  - exists n, w2. split; [exact Hn|]. split; [exact Hacc|].
    destruct Hread as (e & He & Hrow & Hperm); [discriminate|].
    exists e. split; [exact He|]. split; [exact Hrow|]. exact Hperm.
Defined.

(** ** declineSharedNote *)

(** Either [declineSharedNote] stops at a guard and leaves the world as it
    was, or the declined row was saved. *)
Lemma declineSharedNote_cases socketService token userId w :
  (exists msg, declineSharedNote socketService token userId w = (Throw msg, w))
  \/ (exists loaded out r,
        Repo.findShareByToken token (db w) = Some loaded
        /\ NoteShare.isRevoked (shareRow loaded) = false
        /\ NoteShare.isAccepted (shareRow loaded) = false
        /\ declineSharedNote socketService token userId w
           = (r, mkWorld (Repo.updateShare (declined userId (shareRow loaded)) (db w))
                         (io w) out)).
Proof.
  unfold declineSharedNote, bind, query.
  destruct (Repo.findShareByToken token (db w)) as [loaded|] eqn:Hfind;
    [|left; eexists; reflexivity].
  destruct (NoteShare.isRevoked (shareRow loaded)) eqn:Hr;
    [left; eexists; reflexivity|].
  destruct (NoteShare.isAccepted (shareRow loaded)) eqn:Ha;
    [left; eexists; reflexivity|].
  destruct (Js.truthy _ && negb _); [left; eexists; reflexivity|].
  simpl. destruct (Repo.findUser userId (db w)) as [user|];
    [|left; eexists; reflexivity].
  destruct (Js.truthy _ && negb _); [left; eexists; reflexivity|].
  right. unfold write. simpl. fold (declined userId (shareRow loaded)).
  match goal with
  | |- context [notifyOwner ?ss ?l ?m ?d ?w0] =>
      destruct (notifyOwner_cases ss l m d w0) as [[out Hn]|(Hn & _)]; rewrite Hn
  end.
  - exists loaded, out, (Ok tt). auto.
  - exists loaded, (outbox w), (Throw nullDeref). auto.
Qed.

(** X8.  Once [declineSharedNote] has returned, the invitation is spent: the
    saved row is revoked, not accepted and bound to the caller, it gives
    nobody access, and redeeming or declining its token again, by anyone, is
    answered with "This share has been revoked". *)
Theorem declineSharedNote_is_final (socketService : bool) (token userId : string)
    (w : World) :
  fst (declineSharedNote socketService token userId w) = Ok tt ->
  exists loaded,
    Repo.findShareByToken token (db w) = Some loaded
    /\ let w' := snd (declineSharedNote socketService token userId w) in
       let saved := declined userId (shareRow loaded) in
       db w' = Repo.updateShare saved (db w)
       /\ NoteShare.isRevoked saved = true
       /\ NoteShare.isAccepted saved = false
       /\ NoteShare.sharedWithId saved = Some userId
       /\ (forall user, grantsAccess user saved = false)
       /\ (forall ss user,
             acceptSharedNote ss token user w' = (Throw msgRevoked, w')
             /\ declineSharedNote ss token user w' = (Throw msgRevoked, w')).
Proof.
  intros Hok.
  destruct (declineSharedNote_cases socketService token userId w)
    as [[msg Hthrow]|(loaded & out & r & Hfind & Hr & Ha & Heq)].
  - rewrite Hthrow in Hok. discriminate.
  - exists loaded. split; [exact Hfind|]. rewrite Heq. cbn [snd].
    split; [reflexivity|]. split; [reflexivity|]. split; [exact Ha|].
    split; [reflexivity|]. split.
    + intros user. unfold grantsAccess. simpl. apply andb_false_iff. left.
      apply andb_false_r.
    + intros ss user.
      pose proof (findShareByToken_inv _ _ _ Hfind) as [Hrow _].
      set (w' := mkWorld _ _ _).
      assert (Hfind' : exists loaded',
                 Repo.findShareByToken token (db w') = Some loaded'
                 /\ shareRow loaded' = declined userId (shareRow loaded)).
      { unfold Repo.findShareByToken, w', Repo.updateShare. simpl.
        rewrite (find_token_after_save token (shareRow loaded)
                   (declined userId (shareRow loaded)));
          [simpl; eauto | exact Hrow | reflexivity | reflexivity]. }
      destruct Hfind' as (loaded' & Hfind' & Hrow').
      split.
      * unfold acceptSharedNote, bind, query. rewrite Hfind'. simpl.
        rewrite Hrow'. reflexivity.
      * unfold declineSharedNote, bind, query. rewrite Hfind'. simpl.
        rewrite Hrow'. reflexivity.
Qed.

Lemma declineSharedNote_is_final_witness :
  fst (declineSharedNote true "tok3" "B" Demo.world) = Ok tt
  /\ exists loaded,
       Repo.findShareByToken "tok3" (db Demo.world) = Some loaded
       /\ let w' := snd (declineSharedNote true "tok3" "B" Demo.world) in
          acceptSharedNote true "tok3" "B" w' = (Throw msgRevoked, w').
Proof.
  assert (Hok : fst (declineSharedNote true "tok3" "B" Demo.world) = Ok tt)
    by (vm_compute; reflexivity).
  split; [exact Hok|].
  destruct (declineSharedNote_is_final true "tok3" "B" Demo.world Hok)
    as (loaded & Hfind & _ & _ & _ & _ & _ & Hagain).
  exists loaded. split; [exact Hfind|]. apply (Hagain true "B").
Defined.

(** ** revokeShare: who, what it ends, and doing it twice *)

Lemma revokeShare_run socketService shareId userId w loaded note o :
  Repo.findShareById shareId (db w) = Some loaded ->
  getNoteById (NoteShare.noteId (shareRow loaded)) userId w = (Ok note, w) ->
  owner note = Some o ->
  User.id o = userId ->
  revokeShare socketService shareId userId w
  = (Ok tt,
     mkWorld (Repo.updateShare (NoteShare.withRevoked true (shareRow loaded)) (db w))
             (io w)
             (outbox w ++ revokeDeliveries socketService userId loaded
                            (Note.title (row note)) (io w))).
Proof.
  intros Hfind Hget Ho Hid.
  unfold revokeShare, bind, query.
  rewrite Hfind, Hget, Ho, Hid, String.eqb_refl. cbn [negb].
  unfold write, revokeDeliveries, broadcastShareUpdate, ret.
  cbn [db io outbox].
  set (share' := NoteShare.withRevoked true (shareRow loaded)).
  destruct (socketService && Js.truthy (NoteShare.sharedWithId share')) eqn:Hcond.
  - unfold bind. rewrite sendUserNotification_eq. cbn [db io outbox].
    unfold emit. cbn [db io outbox].
    destruct socketService; [|discriminate].
    rewrite sendUserNotification_eq. cbn [db io outbox].
    unfold deliveries. rewrite <- !List.app_assoc. reflexivity.
  - destruct socketService.
    + rewrite sendUserNotification_eq. cbn [db io outbox]. reflexivity.
    + simpl. rewrite List.app_nil_r. reflexivity.
Qed.

Lemma revokeShare_ok_inv socketService shareId userId w w' :
  revokeShare socketService shareId userId w = (Ok tt, w') ->
  exists loaded note o,
    Repo.findShareById shareId (db w) = Some loaded
    /\ getNoteById (NoteShare.noteId (shareRow loaded)) userId w = (Ok note, w)
    /\ owner note = Some o
    /\ User.id o = userId.
Proof.
  unfold revokeShare, bind, query.
  destruct (Repo.findShareById shareId (db w)) as [loaded|]; [|discriminate].
  destruct (getNoteById_result (NoteShare.noteId (shareRow loaded)) userId w)
    as [r Hget]. rewrite Hget.
  destruct r as [note|msg]; [|discriminate].
  destruct (owner note) as [o|] eqn:Ho; [|discriminate].
  destruct (String.eqb (User.id o) userId) eqn:E; [|discriminate].
  intros _. apply String.eqb_eq in E. exists loaded, note, o. auto.
Qed.

(** What [getNoteById] answers when it answers. *)
Lemma getNoteById_ok_inv noteId userId w e :
  getNoteById noteId userId w = (Ok e, w) ->
  exists note,
    Repo.findNote noteId (db w) = Some note
    /\ row e = row note /\ owner e = owner note /\ shares e = []
    /\ (Note.ownerId (row note) = userId -> permission e = Some EDIT).
Proof.
  destruct (Repo.findNote noteId (db w)) as [note|] eqn:Hfind.
  - rewrite (getNoteById_eq _ _ _ _ Hfind). exists note. split; [reflexivity|].
    destruct (String.eqb (Note.ownerId (row note)) userId) eqn:E; simpl in H.
    + injection H as <-. repeat split; reflexivity.
    + destruct (List.find _ _); [|discriminate]. injection H as <-.
      repeat split; try reflexivity.
      intros Hown. apply String.eqb_neq in E. contradiction.
  - rewrite (getNoteById_missing _ _ _ Hfind). discriminate.
Qed.

Lemma map_replace_twice (s' : NoteShare.t) (t : list NoteShare.t) :
  let replace := fun r => if String.eqb (NoteShare.id r) (NoteShare.id s')
                          then s' else r in
  List.map replace (List.map replace t) = List.map replace t.
Proof.
  intros replace. rewrite List.map_map. apply List.map_ext. intros r.
  unfold replace. destruct (String.eqb (NoteShare.id r) (NoteShare.id s')) eqn:E.
  - rewrite String.eqb_refl. reflexivity.
  - rewrite E. reflexivity.
Qed.

(** X9.  After a [revokeShare] that returned, a user who is not the owner and
    whose every granting share of that note was the revoked one is refused by
    [getNoteById]. *)
Theorem revokeShare_ends_access (socketService : bool) (shareId ownerId userId : string)
    (w w' : World) (loaded : ShareEntity) (note : NoteEntity) :
  revokeShare socketService shareId ownerId w = (Ok tt, w') ->
  Repo.findShareById shareId (db w) = Some loaded ->
  Repo.findNote (NoteShare.noteId (shareRow loaded)) (db w) = Some note ->
  Note.ownerId (row note) <> userId ->
  (forall s, In s (shares note) -> grantsAccess userId s = true ->
             NoteShare.id s = shareId) ->
  getNoteById (NoteShare.noteId (shareRow loaded)) userId w' = (Throw msgNoAccess, w').
Proof.
  intros Hok Hfind Hnote Hne Honly.
  destruct (revokeShare_ok_inv _ _ _ _ _ Hok) as (loaded0 & e & o & Hf0 & Hget & Ho & Hid).
  rewrite Hfind in Hf0. injection Hf0 as <-.
  rewrite (revokeShare_run _ _ _ _ _ _ _ Hfind Hget Ho Hid) in Hok.
  injection Hok as <-.
  pose proof (findNote_inv _ _ _ Hnote) as (Hrow & Hnid & Hshares & Howner & _).
  set (nid := NoteShare.noteId (shareRow loaded)) in *.
  set (saved := NoteShare.withRevoked true (shareRow loaded)).
  set (w' := mkWorld _ _ _).
  assert (Hsid : NoteShare.id (shareRow loaded) = shareId).
  { unfold Repo.findShareById in Hfind.
    destruct (List.find _ _) as [s|] eqn:E; [|discriminate].
    injection Hfind as <-. simpl. apply List.find_some in E as [_ E].
    apply String.eqb_eq in E. exact E. }
  assert (Hfind' : exists l,
             Repo.findNote nid (db w') = Some (mkEntity (row note) (owner note) l None)
             /\ List.find (grantsAccess userId) l = None).
  { unfold Repo.findNote.
    change (Repo.findNoteRow nid (db w')) with (Repo.findNoteRow nid (db w)).
    rewrite Hrow, Hnid.
    change (Repo.findUser (Note.ownerId (row note)) (db w'))
      with (Repo.findUser (Note.ownerId (row note)) (db w)).
    rewrite <- Howner. eexists. split; [reflexivity|].
    destruct (List.find _ _) as [s|] eqn:E; [|reflexivity].
    exfalso. apply List.find_some in E as [Hin Hg].
    unfold Repo.sharesOf, w' in Hin. simpl in Hin.
    apply List.filter_In in Hin as [Hin Hn].
    apply List.in_map_iff in Hin as (r & Hr & Hrin).
    destruct (String.eqb (NoteShare.id r) (NoteShare.id (shareRow loaded))) eqn:E.
    - subst s. unfold grantsAccess in Hg.
      change (NoteShare.isRevoked saved) with true in Hg.
      destruct (Js.strictEq (NoteShare.sharedWithId saved) userId);
        simpl in Hg; discriminate.
    - subst s. apply String.eqb_neq in E. apply E.
      rewrite Hsid. apply Honly; [|exact Hg].
      rewrite Hshares. unfold Repo.sharesOf. apply List.filter_In.
      split; assumption. }
  destruct Hfind' as (l & Hfind' & Hl).
  rewrite (getNoteById_eq _ _ _ _ Hfind'). simpl.
  apply String.eqb_neq in Hne. rewrite Hne, Hl. reflexivity.
Qed.

Lemma revokeShare_ends_access_witness :
  exists w',
    revokeShare true "s9" "A" Demo.library = (Ok tt, w')
    /\ fst (getNoteById "n2" "C" Demo.library)
       = Ok (mkEntity Demo.note2 (Some Demo.alice) [] (Some READ))
    /\ getNoteById "n2" "C" w' = (Throw msgNoAccess, w').
Proof.
  assert (Hrun : exists w', revokeShare true "s9" "A" Demo.library = (Ok tt, w')).
  { eexists. vm_compute. reflexivity. }
  destruct Hrun as [w' Hrun]. exists w'. split; [exact Hrun|].
  split; [reflexivity|].
  apply (revokeShare_ends_access true "s9" "A" "C" Demo.library w'
           (Repo.loadShare Demo.shareRead (db Demo.library))
           (mkEntity Demo.note2 (Some Demo.alice) [Demo.shareRead] None)
           Hrun eq_refl eq_refl).
  - discriminate.
  - intros s Hin _. simpl in Hin. destruct Hin as [<-|[]]. reflexivity.
Defined.

Lemma findShareById_inv sid db loaded :
  Repo.findShareById sid db = Some loaded ->
  List.find (fun r => String.eqb (NoteShare.id r) sid) (noteShareRepository db)
  = Some (shareRow loaded)
  /\ NoteShare.id (shareRow loaded) = sid
  /\ loaded = Repo.loadShare (shareRow loaded) db.
Proof.
  unfold Repo.findShareById.
  destruct (List.find _ _) as [s|] eqn:E; [|discriminate].
  intros [= <-]. simpl. apply List.find_some in E as [_ E].
  apply String.eqb_eq in E. auto.
Qed.

Lemma findShareById_after_save sid db loaded s' :
  Repo.findShareById sid db = Some loaded ->
  NoteShare.id s' = NoteShare.id (shareRow loaded) ->
  Repo.findShareById sid (Repo.updateShare s' db)
  = Some (Repo.loadShare s' (Repo.updateShare s' db)).
Proof.
  intros Hfind Hid. destruct (findShareById_inv _ _ _ Hfind) as (Hrow & Hsid & _).
  unfold Repo.findShareById, Repo.updateShare, Repo.log.
  cbn [noteShareRepository].
  rewrite (find_replace NoteShare.id sid s' (shareRow loaded) _ Hrow);
    [reflexivity|congruence].
Qed.

(** X10.  Revoking a share the owner has already revoked is accepted again:
    the share table stays as the first revoke left it, and every delivery of
    the first revoke (to the recipient, to all sockets, to the owner) is
    made a second time. *)
Theorem revokeShare_twice (socketService : bool) (shareId userId : string)
    (w w1 : World) :
  revokeShare socketService shareId userId w = (Ok tt, w1) ->
  exists w2 sent,
    revokeShare socketService shareId userId w1 = (Ok tt, w2)
    /\ shareTable w2 = shareTable w1
    /\ outbox w1 = outbox w ++ sent
    /\ outbox w2 = outbox w1 ++ sent.
Proof.
  intros Hok.
  destruct (revokeShare_ok_inv _ _ _ _ _ Hok) as (loaded & e & o & Hfind & Hget & Ho & Hid).
  rewrite (revokeShare_run _ _ _ _ _ _ _ Hfind Hget Ho Hid) in Hok.
  injection Hok as <-.
  destruct (findShareById_inv _ _ _ Hfind) as (Hrow & Hsid & Hload).
  destruct (getNoteById_ok_inv _ _ _ _ Hget)
    as (note & Hnote & Hre & Hoe & Hse & Hpe).
  pose proof (findNote_inv _ _ _ Hnote) as (Hnrow & Hnid & _ & Howner & _).
  assert (Hown : Note.ownerId (row note) = userId).
  { rewrite Hoe, Howner in Ho. apply findUser_id in Ho. congruence. }
  set (nid := NoteShare.noteId (shareRow loaded)) in *.
  set (saved := NoteShare.withRevoked true (shareRow loaded)).
  set (sent := revokeDeliveries socketService userId loaded (Note.title (row e)) (io w)).
  set (w1 := mkWorld _ _ _).
  assert (Hfind1 : Repo.findShareById shareId (db w1)
                   = Some (Repo.loadShare saved (db w1))).
  { apply (findShareById_after_save shareId (db w) loaded saved Hfind).
    reflexivity. }
  assert (Hget1 : getNoteById nid userId w1 = (Ok e, w1)).
  { assert (Hnote1 : exists l, Repo.findNote nid (db w1)
                               = Some (mkEntity (row note) (owner note) l None)).
    { unfold Repo.findNote.
      change (Repo.findNoteRow nid (db w1)) with (Repo.findNoteRow nid (db w)).
      rewrite Hnrow.
      change (Repo.findUser (Note.ownerId (row note)) (db w1))
        with (Repo.findUser (Note.ownerId (row note)) (db w)).
      rewrite <- Howner. eexists. reflexivity. }
    destruct Hnote1 as [l Hnote1].
    rewrite (getNoteById_eq _ _ _ _ Hnote1). simpl.
    rewrite Hown, String.eqb_refl. simpl.
    destruct e as [re oe se pe]. simpl in *. subst re oe se.
    rewrite (Hpe Hown), Hoe. reflexivity. }
  pose proof (revokeShare_run socketService shareId userId w1
                (Repo.loadShare saved (db w1)) e o Hfind1 Hget1 Ho Hid) as Hrun2.
  eexists _, sent. split; [exact Hrun2|]. split; [|split].
  - unfold shareTable, w1. simpl. apply (map_replace_twice saved).
  - reflexivity.
  - simpl. f_equal. unfold sent, revokeDeliveries. rewrite Hload. reflexivity.
Qed.

Lemma revokeShare_twice_witness :
  exists w1 w2 sent,
    revokeShare true "s1" "A" Demo.world = (Ok tt, w1)
    /\ revokeShare true "s1" "A" w1 = (Ok tt, w2)
    /\ shareTable w2 = shareTable w1
    /\ outbox w1 = outbox Demo.world ++ sent
    /\ outbox w2 = outbox w1 ++ sent
    /\ length sent = 5%nat.
Proof.
  assert (Hrun : exists w1, revokeShare true "s1" "A" Demo.world = (Ok tt, w1)).
  { eexists. vm_compute. reflexivity. }
  destruct Hrun as [w1 Hrun].
  destruct (revokeShare_twice true "s1" "A" Demo.world w1 Hrun)
    as (w2 & sent & H2 & Ht & Ho1 & Ho2).
  exists w1, w2, sent. repeat (split; [assumption|]).
  assert (Hlen : length (outbox w1) = 5%nat).
  { replace w1 with (snd (revokeShare true "s1" "A" Demo.world))
      by (rewrite Hrun; reflexivity).
    vm_compute. reflexivity. }
  rewrite Ho1 in Hlen. exact Hlen.
Defined.

(** X11.  [revokeShare] by anyone but the owner of the share's note throws and
    changes nothing, whether or not the caller can read the note. *)
Theorem revokeShare_owner_only (socketService : bool) (shareId userId : string)
    (w : World) (loaded : ShareEntity) (note : NoteEntity) :
  Repo.findShareById shareId (db w) = Some loaded ->
  Repo.findNote (NoteShare.noteId (shareRow loaded)) (db w) = Some note ->
  Note.ownerId (row note) <> userId ->
  exists msg, revokeShare socketService shareId userId w = (Throw msg, w).
Proof.
  intros Hfind Hnote Hne.
  destruct (revokeShare_cases socketService shareId userId w)
    as [Hthrow|(loaded' & e & _ & _ & Heq)]; [exact Hthrow|].
  exfalso.
  destruct (revokeShare_ok_inv _ _ _ _ _ Heq) as (l0 & e0 & o & Hf0 & Hget & Ho & Hid).
  rewrite Hfind in Hf0. injection Hf0 as <-.
  destruct (getNoteById_ok_inv _ _ _ _ Hget) as (note0 & Hnote0 & _ & Hoe & _).
  rewrite Hnote in Hnote0. injection Hnote0 as <-.
  pose proof (findNote_inv _ _ _ Hnote) as (_ & _ & _ & Howner & _).
  rewrite Hoe, Howner in Ho. apply findUser_id in Ho. congruence.
Qed.

Lemma revokeShare_owner_only_witness :
  Repo.findShareById "s2" (db Demo.world)
  = Some (Repo.loadShare Demo.shareCarol Demo.store)
  /\ fst (getNoteById "n1" "B" Demo.world)
     = Ok (mkEntity Demo.note1 (Some Demo.alice) [] (Some EDIT))
  /\ exists msg, revokeShare true "s2" "B" Demo.world = (Throw msg, Demo.world).
Proof.
  split; [reflexivity|]. split; [reflexivity|].
  apply (revokeShare_owner_only true "s2" "B" Demo.world _
           (mkEntity Demo.note1 (Some Demo.alice)
              [Demo.shareBob; Demo.shareCarol; Demo.sharePending; Demo.shareNoEmail]
              None) eq_refl eq_refl).
  discriminate.
Defined.

(** ** The list queries *)

Lemma activeShareOf_grantsAccess userId s :
  activeShareOf userId s = grantsAccess userId s.
Proof.
  unfold activeShareOf, grantsAccess.
  destruct (Js.strictEq _ _), (NoteShare.isAccepted s), (NoteShare.isRevoked s);
    reflexivity.
Qed.

Lemma notesOfShares_ok db l notes :
  notesOfShares db l = Ok notes ->
  (forall share, In share l ->
     exists n, In n notes
               /\ Repo.findNoteRow (NoteShare.noteId share) db = Some (listedRow n)
               /\ listedPermission n = Some (NoteShare.permission share))
  /\ (forall n, In n notes ->
        exists share, In share l
                      /\ Repo.findNoteRow (NoteShare.noteId share) db
                         = Some (listedRow n)
                      /\ listedPermission n = Some (NoteShare.permission share)
                      /\ listedOwner n = Repo.findUser (Note.ownerId (listedRow n)) db).
Proof.
  revert notes. induction l as [|share rest IH]; simpl; intros notes H.
  - injection H as <-. split; intros ? [].
  - destruct (Repo.findNoteRow (NoteShare.noteId share) db) as [n|] eqn:E;
      [|discriminate].
    destruct (notesOfShares db rest) as [notes'|]; [|discriminate].
    injection H as <-. destruct (IH notes' eq_refl) as [IH1 IH2]. split.
    + intros s [<-|Hin].
      * eexists. split; [left; reflexivity|]. simpl. auto.
      * destruct (IH1 s Hin) as (n' & Hn' & Hrest). exists n'. split; [right|]; auto.
    + intros n' [<-|Hin].
      * exists share. simpl. auto.
      * destruct (IH2 n' Hin) as (s & Hs & Hrest). exists s. split; [right|]; auto.
Qed.

(** X12.  When [getSharedNotes] returns, it changes nothing, every note it
    lists can be opened by that user through [getNoteById] (same row), and
    every note a non-owner can open through [getNoteById] is listed: the
    list is what the access decision grants through shares. *)
Theorem getSharedNotes_matches_access (userId : string) (w w' : World)
    (notes : list ListedNote) :
  getSharedNotes userId w = (Ok notes, w') ->
  w' = w
  /\ (forall n, In n notes ->
        exists e, getNoteById (Note.id (listedRow n)) userId w = (Ok e, w)
                  /\ row e = listedRow n)
  /\ (forall nid e, getNoteById nid userId w = (Ok e, w) ->
        Note.ownerId (row e) <> userId ->
        exists n, In n notes /\ listedRow n = row e).
Proof.
  unfold getSharedNotes. intros H. injection H as Hnotes <-.
  destruct (notesOfShares_ok _ _ _ Hnotes) as [Hall Hback].
  split; [reflexivity|]. split.
  - intros n Hn. destruct (Hback n Hn) as (share & Hin & Hrow & _).
    apply List.filter_In in Hin as [Hin Hact].
    rewrite activeShareOf_grantsAccess in Hact.
    pose proof (findNoteRow_id _ _ _ Hrow) as Hid. rewrite Hid.
    assert (Hfind : Repo.findNote (NoteShare.noteId share) (db w)
                    = Some (mkEntity (listedRow n)
                              (Repo.findUser (Note.ownerId (listedRow n)) (db w))
                              (Repo.sharesOf (Note.id (listedRow n)) (db w)) None)).
    { unfold Repo.findNote. rewrite Hrow. reflexivity. }
    rewrite (getNoteById_eq _ _ _ _ Hfind). simpl.
    destruct (negb _); [|eexists; split; reflexivity].
    destruct (List.find (grantsAccess userId) _) as [s|] eqn:E;
      [eexists; split; reflexivity|].
    exfalso. assert (Hmem : In share (Repo.sharesOf (Note.id (listedRow n)) (db w))).
    { unfold Repo.sharesOf. apply List.filter_In. split; [exact Hin|].
      rewrite Hid. apply String.eqb_refl. }
    pose proof (List.find_none _ _ E share Hmem). congruence.
  - intros nid e Hget Hne.
    destruct (getNoteById_ok_inv _ _ _ _ Hget) as (note & Hnote & Hre & _).
    pose proof (findNote_inv _ _ _ Hnote) as (Hrow & Hid & Hshares & _).
    rewrite (getNoteById_eq _ _ _ _ Hnote) in Hget.
    rewrite Hre in Hne. apply String.eqb_neq in Hne. rewrite Hne in Hget.
    simpl in Hget.
    destruct (List.find (grantsAccess userId) (shares note)) as [s|] eqn:E;
      [|discriminate].
    apply List.find_some in E as [Hin Hg]. rewrite Hshares in Hin.
    unfold Repo.sharesOf in Hin. apply List.filter_In in Hin as [Hin Hn].
    apply String.eqb_eq in Hn.
    destruct (Hall s) as (n & Hnin & Hnrow & _).
    { apply List.filter_In. split; [exact Hin|].
      rewrite activeShareOf_grantsAccess. exact Hg. }
    exists n. split; [exact Hnin|].
    rewrite Hn, Hrow in Hnrow. injection Hnrow as Hx. congruence.
Qed.

Lemma getSharedNotes_matches_access_witness :
  getSharedNotes "C" Demo.library
  = (Ok [mkListed Demo.note2 (Some Demo.alice) (Some READ)], Demo.library)
  /\ exists e, getNoteById "n2" "C" Demo.library = (Ok e, Demo.library)
               /\ row e = Demo.note2.
Proof.
  assert (H : getSharedNotes "C" Demo.library
              = (Ok [mkListed Demo.note2 (Some Demo.alice) (Some READ)], Demo.library))
    by reflexivity.
  split; [exact H|].
  destruct (getSharedNotes_matches_access "C" Demo.library Demo.library _ H)
    as (_ & Hread & _).
  apply (Hread (mkListed Demo.note2 (Some Demo.alice) (Some READ))).
  left. reflexivity.
Defined.

Lemma filter_split_length {A} (f : A -> bool) (l : list A) :
  length l = (length (List.filter (fun x => Bool.eqb (f x) false) l)
              + length (List.filter f l))%nat.
Proof.
  induction l as [|x l IH]; simpl; [reflexivity|].
  destruct (f x); simpl; lia.
Qed.

(** X13.  For every user, the notes [getUserNotes] lists with archived ones
    included are all owned by the user and split exactly into the notes it
    lists without them, none archived, and the notes the archived-notes
    controller answers with, all archived. *)
Theorem archived_and_active_partition (userId : string) (w : World) :
  exists everything active archived,
    getUserNotes userId true w = (Ok everything, w)
    /\ getUserNotes userId false w = (Ok active, w)
    /\ Controller.getArchivedNotes (Some userId) w
       = (mkResponse 200 true "Archived notes retrieved successfully" (Some archived),
          w)
    /\ (forall n, In n everything -> Note.ownerId (listedRow n) = userId)
    /\ (forall n, In n everything <-> In n active \/ In n archived)
    /\ (forall n, In n active -> Note.isArchived (listedRow n) = false)
    /\ (forall n, In n archived -> Note.isArchived (listedRow n) = true)
    /\ length everything = (length active + length archived)%nat.
Proof.
  unfold Controller.getArchivedNotes, Controller.handle, getUserNotes, bind, query, ret.
  cbn [negb]. set (owned := List.filter _ (noteRepository (db w))).
  eexists _, _, _. split; [reflexivity|]. split; [reflexivity|].
  split; [reflexivity|]. split; [|split; [|split; [|split]]].
  - intros n Hn. apply List.in_map_iff in Hn as (r & <- & Hr).
    apply List.filter_In in Hr as [_ Hr]. apply String.eqb_eq in Hr. exact Hr.
  - intros n. rewrite List.filter_In, !List.in_map_iff. split.
    + intros (r & <- & Hr). destruct (Note.isArchived r) eqn:E.
      * right. split; [|exact E]. exists r. auto.
      * left. exists r. split; [reflexivity|]. apply List.filter_In.
        rewrite E. auto.
    + intros [(r & <- & Hr)|[H _]]; [|exact H].
      apply List.filter_In in Hr as [Hr _]. exists r. auto.
  - intros n Hn. apply List.in_map_iff in Hn as (r & <- & Hr).
    apply List.filter_In in Hr as [_ Hr]. simpl.
    destruct (Note.isArchived r); [discriminate|reflexivity].
  - intros n Hn. apply List.filter_In in Hn as [_ Hn]. exact Hn.
  - rewrite !List.length_map.
    rewrite (filter_split_length Note.isArchived owned). f_equal.
    clear. induction owned as [|r l IH]; simpl; [reflexivity|].
    destruct (Note.isArchived r); simpl; rewrite IH; reflexivity.
Qed.

(** ** getNoteRevisions *)

Lemma insertByVersion_perm r l : Permutation (insertByVersion r l) (r :: l).
Proof.
  induction l as [|x l IH]; simpl; [reflexivity|].
  destruct (Z.ltb (NoteRevision.version r) (NoteRevision.version x)).
  - rewrite IH. apply perm_swap.
  - reflexivity.
Qed.

Lemma insertByVersion_hd r x l :
  newerFirst x r -> HdRel newerFirst x l -> HdRel newerFirst x (insertByVersion r l).
Proof.
  intros Hxr Hhd. destruct l as [|y l]; simpl; [constructor; exact Hxr|].
  destruct (Z.ltb (NoteRevision.version r) (NoteRevision.version y));
    constructor; [inversion Hhd; assumption|exact Hxr].
Qed.

Lemma insertByVersion_sorted r l :
  Sorted newerFirst l -> Sorted newerFirst (insertByVersion r l).
Proof.
  induction l as [|x l IH]; simpl; intros Hs.
  - constructor; constructor.
  - inversion Hs as [|? ? Hs' Hhd]; subst.
    destruct (Z.ltb (NoteRevision.version r) (NoteRevision.version x)) eqn:E.
    + constructor; [apply IH; exact Hs'|].
      apply insertByVersion_hd; [|exact Hhd].
      unfold newerFirst. apply Z.ltb_lt in E. lia.
    + constructor; [exact Hs|]. constructor.
      unfold newerFirst. apply Z.ltb_ge in E. exact E.
Qed.

Lemma sortByVersionDesc_spec l :
  Permutation (sortByVersionDesc l) l /\ Sorted newerFirst (sortByVersionDesc l).
Proof.
  induction l as [|r l [IHp IHs]]; simpl.
  - split; constructor.
  - split.
    + rewrite insertByVersion_perm. constructor. exact IHp.
    + apply insertByVersion_sorted. exact IHs.
Qed.

(** X14.  [getNoteRevisions] answers a user [getNoteById] refuses with the
    same error and no revision.  For a user it admits, a read-only share
    holder included, it changes nothing and returns the whole ledger of the
    note, rearranged so that no revision comes before one of a higher
    version, each with the user who wrote it. *)
Theorem getNoteRevisions_checked_and_sorted (noteId userId : string) (w : World) :
  (forall msg, getNoteById noteId userId w = (Throw msg, w) ->
     getNoteRevisions noteId userId w = (Throw msg, w))
  /\ (forall e, getNoteById noteId userId w = (Ok e, w) ->
        exists revisions,
          getNoteRevisions noteId userId w = (Ok revisions, w)
          /\ Permutation (List.map fst revisions) (ledger noteId w)
          /\ Sorted newerFirst (List.map fst revisions)
          /\ forall r u, In (r, u) revisions ->
               u = Repo.findUser (NoteRevision.userId r) (db w)).
Proof.
  split.
  - intros msg H. unfold getNoteRevisions, bind. rewrite H. reflexivity.
  - intros e H. unfold getNoteRevisions, bind, query. rewrite H.
    eexists. split; [reflexivity|].
    rewrite List.map_map. simpl. rewrite List.map_id.
    destruct (sortByVersionDesc_spec (Repo.revisionsOf noteId (db w))) as [Hp Hs].
    split; [exact Hp|]. split; [exact Hs|].
    intros r u Hin. apply List.in_map_iff in Hin as (r' & [= <- <-] & _).
    reflexivity.
Qed.

Lemma getNoteRevisions_checked_and_sorted_witness :
  getNoteById "n2" "C" Demo.library
  = (Ok (mkEntity Demo.note2 (Some Demo.alice) [] (Some READ)), Demo.library)
  /\ getNoteRevisions "n2" "B" Demo.library = (Throw msgNoAccess, Demo.library)
  /\ exists revisions,
       getNoteRevisions "n2" "C" Demo.library = (Ok revisions, Demo.library)
       /\ List.map (fun p => NoteRevision.version (fst p)) revisions = [2; 1]
       /\ Sorted newerFirst (List.map fst revisions).
Proof.
  split; [reflexivity|].
  destruct (getNoteRevisions_checked_and_sorted "n2" "B" Demo.library) as [HB _].
  destruct (getNoteRevisions_checked_and_sorted "n2" "C" Demo.library) as [_ HC].
  split; [apply HB; reflexivity|].
  destruct (HC _ eq_refl) as (revisions & Hrun & _ & Hsorted & _).
  exists revisions. split; [exact Hrun|]. split; [|exact Hsorted].
  assert (Hval : fst (getNoteRevisions "n2" "C" Demo.library)
                 = Ok [(NoteRevision.mk "r7" "D0" 2 "n2" "A", Some Demo.alice);
                       (NoteRevision.mk "r6" "D00" 1 "n2" "A", Some Demo.alice)])
    by reflexivity.
  rewrite Hrun in Hval. injection Hval as ->. reflexivity.
Defined.

(** ** getPendingShares *)

Lemma mapHas_false k m : mapHas k m = false -> ~ In k (List.map fst m).
Proof.
  unfold mapHas. intros H Hin. apply List.in_map_iff in Hin as ([k' v] & <- & Hin).
  assert (List.existsb (fun kv => String.eqb (fst kv) k') m = true) as Ht.
  { apply List.existsb_exists. exists (k', v). split; [exact Hin|].
    apply String.eqb_refl. }
  simpl in H. congruence.
Qed.

Lemma mapHas_true k m :
  mapHas k m = true -> exists v, mapGet k m = Some v /\ In (k, v) m.
Proof.
  unfold mapHas, mapGet. intros H. apply List.existsb_exists in H as ([k' v] & Hin & Hk).
  destruct (List.find (fun kv => String.eqb (fst kv) k) m) as [[k1 v1]|] eqn:E.
  - exists v1. split; [reflexivity|]. apply List.find_some in E as [Hin1 Hk1].
    apply String.eqb_eq in Hk1. simpl in Hk1. subst k1. exact Hin1.
  - exfalso. pose proof (List.find_none _ _ E _ Hin) as Hn. simpl in *. congruence.
Qed.

Lemma pendingInv_step processed m share note :
  pendingInv processed m ->
  pendingInv (processed ++ [(share, note)]) (collectPending m (share, note)).
Proof.
  intros (Hnd & Hfrom & Hcover).
  set (k := Note.id (row note)).
  set (v := mkPending (row note) (owner note) (NoteShare.shareToken share)
                      (NoteShare.id share)).
  assert (Hold : forall s n, In (s, n) processed -> In (s, n) (processed ++ [(share, note)])).
  { intros. apply List.in_or_app. left. assumption. }
  assert (Hnew : In (share, note) (processed ++ [(share, note)])).
  { apply List.in_or_app. right. left. reflexivity. }
  unfold collectPending. fold k. fold v.
  destruct (mapHas k m) eqn:Hhas; cbn [negb orb].
  - destruct (mapHas_true _ _ Hhas) as (existing & Hget & Hex).
    rewrite Hget.
    destruct (Js.truthy (NoteShare.shareToken share)
              && negb (Js.truthy (pendingToken existing))) eqn:Hcond.
    + (* the entry of this note is replaced *)
      apply andb_true_iff in Hcond as [Htok _].
      unfold mapSet. rewrite Hhas.
      set (replace := fun kv : string * PendingNote =>
                        if String.eqb (fst kv) k then (k, v) else kv).
      assert (Hkeys : List.map fst (List.map replace m) = List.map fst m).
      { rewrite List.map_map. apply List.map_ext. intros [k' v']. unfold replace.
        simpl. destruct (String.eqb k' k) eqn:E; [|reflexivity].
        apply String.eqb_eq in E. simpl. congruence. }
      split; [rewrite Hkeys; exact Hnd|]. split.
      * intros k' v' Hin. apply List.in_map_iff in Hin as ([k0 v0] & Hrep & Hin).
        unfold replace in Hrep. simpl in Hrep.
        destruct (String.eqb k0 k).
        -- injection Hrep as <- <-. exists share, note. auto.
        -- injection Hrep as <- <-. destruct (Hfrom _ _ Hin) as (s & n & Hp & Hrest).
           exists s, n. auto.
      * intros s n Hin. apply List.in_app_or in Hin as [Hin|[[= <- <-]|[]]].
        -- destruct (Hcover s n Hin) as (v0 & Hv0 & Himp).
           destruct (String.eqb (Note.id (row n)) k) eqn:E.
           ++ exists v. split; [|intros _; exact Htok].
              apply List.in_map_iff. exists (Note.id (row n), v0).
              unfold replace. simpl. rewrite E. apply String.eqb_eq in E.
              split; [rewrite E; reflexivity|exact Hv0].
           ++ exists v0. split; [|exact Himp].
              apply List.in_map_iff. exists (Note.id (row n), v0).
              unfold replace. simpl. rewrite E. auto.
        -- exists v. split; [|intros _; exact Htok].
           apply List.in_map_iff. exists (k, existing).
           unfold replace. simpl. rewrite String.eqb_refl. auto.
    + (* the map stays as it is *)
      split; [exact Hnd|]. split.
      * intros k' v' Hin. destruct (Hfrom _ _ Hin) as (s & n & Hp & Hrest).
        exists s, n. auto.
      * intros s n Hin. apply List.in_app_or in Hin as [Hin|[[= <- <-]|[]]].
        -- apply Hcover. exact Hin.
        -- exists existing. split; [exact Hex|]. intros Htok.
           rewrite Htok in Hcond. simpl in Hcond.
           apply negb_false_iff in Hcond. exact Hcond.
  - (* a new note *)
    unfold mapSet. rewrite Hhas. split; [|split].
    + rewrite List.map_app. simpl. apply NoDup_snoc; [exact Hnd|].
      apply mapHas_false. exact Hhas.
    + intros k' v' Hin. apply List.in_app_or in Hin as [Hin|[[= <- <-]|[]]].
      * destruct (Hfrom _ _ Hin) as (s & n & Hp & Hrest). exists s, n. auto.
      * exists share, note. auto.
    + intros s n Hin. apply List.in_app_or in Hin as [Hin|[[= <- <-]|[]]].
      * destruct (Hcover s n Hin) as (v0 & Hv0 & Himp). exists v0.
        split; [apply List.in_or_app; left; exact Hv0|exact Himp].
      * exists v. split; [apply List.in_or_app; right; left; reflexivity|].
        intros H. exact H.
Qed.

Lemma pendingInv_fold l :
  forall processed m,
    pendingInv processed m ->
    pendingInv (processed ++ l) (List.fold_left collectPending l m).
Proof.
  induction l as [|[share note] l IH]; intros processed m Hinv; simpl.
  - rewrite List.app_nil_r. exact Hinv.
  - replace (processed ++ (share, note) :: l)
      with ((processed ++ [(share, note)]) ++ l)
      by (rewrite <- List.app_assoc; reflexivity).
    apply IH. apply pendingInv_step. exact Hinv.
Qed.

Lemma withNotes_ok db l l' :
  withNotes db l = Ok l' ->
  List.map fst l' = l
  /\ forall share note, In (share, note) l' ->
       Repo.findNote (NoteShare.noteId share) db = Some note.
Proof.
  revert l'. induction l as [|s rest IH]; simpl; intros l' H.
  - injection H as <-. split; [reflexivity|intros ? ? []].
  - destruct (Repo.findNote (NoteShare.noteId s) db) as [note|] eqn:E; [|discriminate].
    destruct (withNotes db rest) as [l0|]; [|discriminate].
    injection H as <-. destruct (IH l0 eq_refl) as [IH1 IH2]. split.
    + simpl. rewrite IH1. reflexivity.
    + intros share n [[= <- <-]|Hin]; [exact E|apply IH2; exact Hin].
Qed.

(** What [getPendingShares] went through when it returns: the pending shares
    of both queries, each with its note, and the map they were folded into. *)
Lemma getPendingShares_inv (nullMeansIsNull : bool)
    (userId : string) (w w' : World) (result : list PendingNote) :
  getPendingShares nullMeansIsNull userId w = (Ok result, w') ->
  w' = w
  /\ exists processed m,
       result = List.map snd m
       /\ pendingInv processed m
       /\ (forall share note, In (share, note) processed ->
             In share (noteShareRepository (db w))
             /\ NoteShare.isAccepted share = false
             /\ NoteShare.isRevoked share = false
             /\ NoteShare.noteId share = Note.id (row note))
       /\ (forall share, In share (noteShareRepository (db w)) ->
             (pendingForUser userId share = true
              \/ exists user,
                   Repo.findUser userId (db w) = Some user
                   /\ pendingForEmail nullMeansIsNull (User.email user) share = true) ->
             exists note, In (share, note) processed).
Proof.
  intros Hrun. unfold getPendingShares in Hrun.
  destruct (withNotes (db w)
              (List.filter (pendingForUser userId) (noteShareRepository (db w))))
    as [byId|e] eqn:EbyId; [|discriminate].
  destruct (Repo.findUser userId (db w)) as [user|]; [|discriminate].
  destruct (withNotes (db w)
              (List.filter (pendingForEmail nullMeansIsNull (User.email user))
                           (noteShareRepository (db w))))
    as [byEmail|e] eqn:EbyEmail; [|discriminate].
  injection Hrun as <- <-.
  destruct (withNotes_ok _ _ _ EbyId) as [HidL HidN].
  destruct (withNotes_ok _ _ _ EbyEmail) as [HemL HemN].
  split; [reflexivity|].
  exists (byId ++ byEmail), (List.fold_left collectPending (byId ++ byEmail) []).
  split; [reflexivity|]. split; [|split].
  - apply (pendingInv_fold (byId ++ byEmail) [] []). split; [constructor|]. split.
    + intros ? ? [].
    + intros ? ? [].
  - intros share note Hin.
    assert (Hnote : Repo.findNote (NoteShare.noteId share) (db w) = Some note).
    { apply List.in_app_or in Hin as [Hin|Hin]; [apply HidN|apply HemN]; exact Hin. }
    destruct (findNote_inv _ _ _ Hnote) as (_ & Hnid & _).
    assert (Hfil : In share (List.filter (pendingForUser userId)
                               (noteShareRepository (db w)))
                   \/ In share (List.filter
                                  (pendingForEmail nullMeansIsNull (User.email user))
                                  (noteShareRepository (db w)))).
    { apply List.in_app_or in Hin as [Hin|Hin]; [left; rewrite <- HidL|right; rewrite <- HemL];
        apply (List.in_map fst _ _ Hin). }
    destruct Hfil as [Hfil|Hfil]; apply List.filter_In in Hfil as [Hrepo Hcond].
    + unfold pendingForUser in Hcond.
      apply andb_true_iff in Hcond as [Hcond Hrev].
      apply andb_true_iff in Hcond as [_ Hacc].
      apply Bool.eqb_prop in Hrev, Hacc. auto.
    + unfold pendingForEmail in Hcond.
      apply andb_true_iff in Hcond as [Hcond Hrev].
      apply andb_true_iff in Hcond as [_ Hacc].
      apply Bool.eqb_prop in Hrev, Hacc. auto.
  - intros share Hrepo Hcond.
    assert (Hfil : In share (List.map fst (byId ++ byEmail))).
    { rewrite List.map_app, HidL, HemL. apply List.in_or_app.
      destruct Hcond as [Hcond|(user' & [= <-] & Hcond)]; [left|right];
        apply List.filter_In; auto. }
    apply List.in_map_iff in Hfil as ([share' note] & Hs & Hproc).
    simpl in Hs. subst share'. exists note. exact Hproc.
Qed.

(** X15. When [getPendingShares] returns, the database is as before and no
    note is listed twice; every entry carries the token and the id of one
    stored share of its note that is neither accepted nor revoked; and every
    note with a pending share found by the user's id or by the user's email
    is listed, with a token whenever that share has one.  This holds however
    the store reads [sharedWithId: null]. *)
Theorem getPendingShares_one_entry_per_note (nullMeansIsNull : bool)
    (userId : string) (w w' : World) (result : list PendingNote)
    (Hrun : getPendingShares nullMeansIsNull userId w = (Ok result, w')) :
  w' = w
  /\ List.NoDup (List.map (fun p => Note.id (pendingRow p)) result)
  /\ (forall p, In p result ->
        exists share,
          In share (noteShareRepository (db w))
          /\ NoteShare.noteId share = Note.id (pendingRow p)
          /\ NoteShare.id share = pendingShareId p
          /\ NoteShare.shareToken share = pendingToken p
          /\ NoteShare.isAccepted share = false
          /\ NoteShare.isRevoked share = false)
  /\ (forall share, In share (noteShareRepository (db w)) ->
        (pendingForUser userId share = true
         \/ exists user, Repo.findUser userId (db w) = Some user
                         /\ pendingForEmail nullMeansIsNull (User.email user) share
                            = true) ->
        exists p, In p result
                  /\ Note.id (pendingRow p) = NoteShare.noteId share
                  /\ (Js.truthy (NoteShare.shareToken share) = true ->
                      Js.truthy (pendingToken p) = true)).
Proof.
  destruct (getPendingShares_inv _ _ _ _ _ Hrun)
    as (Hw & processed & m & -> & (Hnd & Hfrom & Hcover) & Hpending & Hall).
  split; [exact Hw|]. split; [|split].
  - replace (List.map (fun p => Note.id (pendingRow p)) (List.map snd m))
      with (List.map fst m); [exact Hnd|].
    rewrite List.map_map. apply List.map_ext_in. intros [k v] Hin.
    destruct (Hfrom _ _ Hin) as (share & note & _ & -> & ->). reflexivity.
  - intros p Hp. apply List.in_map_iff in Hp as ([k v] & <- & Hin).
    destruct (Hfrom _ _ Hin) as (share & note & Hproc & -> & ->).
    destruct (Hpending _ _ Hproc) as (Hrepo & Hacc & Hrev & Hnid).
    exists share. simpl. auto 7.
  - intros share Hrepo Hcond.
    destruct (Hall share Hrepo Hcond) as [note Hproc].
    destruct (Hcover _ _ Hproc) as (v & Hv & Htok).
    destruct (Hpending _ _ Hproc) as (_ & _ & _ & Hnid).
    exists v. split; [|split].
    + apply List.in_map_iff. exists (Note.id (row note), v). auto.
    + destruct (Hfrom _ _ Hv) as (s2 & n2 & _ & Hk & ->). simpl. congruence.
    + exact Htok.
Qed.

Lemma getPendingShares_one_entry_per_note_witness :
  let result := [mkPending Demo.note1 (Some Demo.alice) (Some "tok3") "s3"] in
  getPendingShares false "B" Demo.world = (Ok result, Demo.world)
  /\ List.NoDup (List.map (fun p => Note.id (pendingRow p)) result).
Proof.
  intros result.
  assert (Hrun : getPendingShares false "B" Demo.world = (Ok result, Demo.world))
    by (vm_compute; reflexivity).
  split; [exact Hrun|].
  exact (proj1 (proj2 (getPendingShares_one_entry_per_note _ _ _ _ _ Hrun))).
Defined.

(** ** getSharedByMeNotes *)

(** X16. Once [shareNote] has returned, [getSharedByMeNotes] of the sharer
    lists the note, with the new invitation among its shares, although nobody
    has accepted it yet.  Whatever it lists is a note of the sharer that has a
    stored share which is not revoked. *)
Theorem shareNote_then_getSharedByMeNotes (socketService : bool)
    (newShareId newToken userId : string) (shareData : ShareNoteInput)
    (w w' : World) (share : NoteShare.t)
    (Hshare : shareNote socketService newShareId newToken userId shareData w
              = (Ok share, w')) :
  exists notes,
    getSharedByMeNotes userId w' = (Ok notes, w')
    /\ (exists e, In e notes
                  /\ Note.id (row e) = share_noteId shareData
                  /\ In share (shares e)
                  /\ NoteShare.isAccepted share = false)
    /\ forall e, In e notes ->
         Note.ownerId (row e) = userId
         /\ exists s, In s (noteShareRepository (db w'))
                      /\ NoteShare.noteId s = Note.id (row e)
                      /\ NoteShare.isRevoked s = false.
Proof.
  destruct (shareNote_cases socketService newShareId newToken userId shareData w)
    as [[msg Hthrow]|(note & out & Hfind & Hown & Heq)].
  { rewrite Hthrow in Hshare. discriminate. }
  rewrite Heq in Hshare. injection Hshare as <- <-.
  pose proof (findNote_inv _ _ _ Hfind) as (Hrow & Hid & _).
  unfold getSharedByMeNotes, query. eexists. split; [reflexivity|]. split.
  - set (db' := Repo.insertShare (invitation newShareId newToken shareData (db w)) (db w)).
    exists (mkEntity (row note) (Repo.findUser (Note.ownerId (row note)) db')
                     (Repo.sharesOf (Note.id (row note)) db') None).
    assert (Hmem : In (invitation newShareId newToken shareData (db w))
                      (Repo.sharesOf (Note.id (row note)) db')).
    { unfold Repo.sharesOf. apply List.filter_In. split.
      - simpl. apply List.in_or_app. right. left. reflexivity.
      - simpl. rewrite Hid. apply String.eqb_refl. }
    split; [|split; [exact Hid|split; [exact Hmem|reflexivity]]].
    apply List.filter_In. split.
    + apply List.in_map_iff. exists (row note). split; [reflexivity|].
      apply List.filter_In. split.
      * unfold Repo.findNoteRow in Hrow. apply List.find_some in Hrow as [Hin _].
        exact Hin.
      * rewrite Hown. apply String.eqb_refl.
    + cbn [shares]. apply List.existsb_exists.
      exists (invitation newShareId newToken shareData (db w)).
      split; [exact Hmem|reflexivity].
  - intros e He. apply List.filter_In in He as [He Hsome].
    apply List.in_map_iff in He as (n & <- & Hn).
    apply List.filter_In in Hn as [_ Hn]. apply String.eqb_eq in Hn.
    split; [exact Hn|].
    cbn [shares] in Hsome. apply List.existsb_exists in Hsome as (s & Hs & Hrev).
    unfold Repo.sharesOf in Hs. apply List.filter_In in Hs as [Hs Hnid].
    apply String.eqb_eq in Hnid. apply negb_true_iff in Hrev.
    exists s. auto.
Qed.

Lemma shareNote_then_getSharedByMeNotes_witness :
  exists share w' notes,
    shareNote true "s10" "tok10" "A" (mkShareInput "n2" "b@x.com" None) Demo.library
    = (Ok share, w')
    /\ getSharedByMeNotes "A" w' = (Ok notes, w')
    /\ exists e, In e notes /\ Note.id (row e) = "n2" /\ In share (shares e).
Proof.
  assert (Hrun : exists share w',
             shareNote true "s10" "tok10" "A" (mkShareInput "n2" "b@x.com" None)
                       Demo.library = (Ok share, w')).
  { eexists _, _. vm_compute. reflexivity. }
  destruct Hrun as (share & w' & Hrun).
  destruct (shareNote_then_getSharedByMeNotes _ _ _ _ _ _ _ _ Hrun)
    as (notes & Hlist & (e & He & Hid & Hin & _) & _).
  exists share, w', notes. split; [exact Hrun|]. split; [exact Hlist|].
  exists e. auto.
Defined.

(** ** searchNotes *)

Lemma find_by_key {A} (key : A -> string) (l : list A) (x : A) :
  List.NoDup (List.map key l) -> In x l ->
  List.find (fun r => String.eqb (key r) (key x)) l = Some x.
Proof.
  induction l as [|y l IH]; simpl; intros Hnd Hin; [contradiction|].
  inversion Hnd as [|? ? Hnotin Hnd']; subst.
  destruct Hin as [->|Hin].
  - rewrite String.eqb_refl. reflexivity.
  - destruct (String.eqb (key y) (key x)) eqn:E.
    + apply String.eqb_eq in E. exfalso. apply Hnotin. rewrite E.
      apply List.in_map. exact Hin.
    + apply IH; assumption.
Qed.

Lemma getNoteById_opens noteId userId w note :
  Repo.findNote noteId (db w) = Some note ->
  (Note.ownerId (row note) = userId
   \/ exists s, In s (shares note) /\ grantsAccess userId s = true) ->
  exists e, getNoteById noteId userId w = (Ok e, w) /\ row e = row note.
Proof.
  intros Hfind Hmay. rewrite (getNoteById_eq _ _ _ _ Hfind).
  destruct (String.eqb (Note.ownerId (row note)) userId) eqn:E; simpl.
  - eexists. split; reflexivity.
  - destruct Hmay as [Hown|(s & Hin & Hg)].
    + apply String.eqb_neq in E. contradiction.
    + destruct (List.find (grantsAccess userId) (shares note)) as [s'|] eqn:Ef.
      * eexists. split; reflexivity.
      * pose proof (List.find_none _ _ Ef s Hin). congruence.
Qed.

(** X17. [searchNotes] always returns and changes nothing.  With note ids
    unique in the table, every note it lists matches the query in title or
    content, is not archived and can be opened by that user through
    [getNoteById]; and every note the user can open that matches and is not
    archived is listed.  This holds whatever [ILIKE] decides. *)
Theorem searchNotes_lists_what_the_user_can_open
    (ilike : string -> string -> bool) (userId q : string) (w : World)
    (Hkey : List.NoDup (List.map Note.id (noteRepository (db w)))) :
  exists notes,
    searchNotes ilike userId q w = (Ok notes, w)
    /\ (forall n, In n notes ->
          matchesQuery ilike q (listedRow n) = true
          /\ Note.isArchived (listedRow n) = false
          /\ exists e, getNoteById (Note.id (listedRow n)) userId w = (Ok e, w)
                       /\ row e = listedRow n)
    /\ (forall nid e, getNoteById nid userId w = (Ok e, w) ->
          matchesQuery ilike q (row e) = true ->
          Note.isArchived (row e) = false ->
          exists n, In n notes /\ listedRow n = row e).
Proof.
  set (owned := List.filter (fun n => String.eqb (Note.ownerId n) userId
                                      && matchesQuery ilike q n
                                      && Bool.eqb (Note.isArchived n) false)
                            (noteRepository (db w))).
  set (ids := List.map NoteShare.noteId
                (List.filter (activeShareOf userId) (noteShareRepository (db w)))).
  set (shared := List.filter (fun n => List.existsb (String.eqb (Note.id n)) ids
                                       && matchesQuery ilike q n
                                       && Bool.eqb (Note.isArchived n) false)
                             (noteRepository (db w))).
  assert (Hrun : searchNotes ilike userId q w
                 = (Ok (List.map (listed (db w))
                          (if Nat.eqb (length ids) 0 then owned else owned ++ shared)),
                    w)).
  { unfold searchNotes, bind, query, ret. cbn [db]. fold owned. fold ids.
    destruct (Nat.eqb (length ids) 0); [reflexivity|].
    fold shared. rewrite List.map_app. reflexivity. }
  assert (Hfind : forall n, In n (noteRepository (db w)) ->
            Repo.findNote (Note.id n) (db w)
            = Some (mkEntity n (Repo.findUser (Note.ownerId n) (db w))
                             (Repo.sharesOf (Note.id n) (db w)) None)).
  { intros n Hn. unfold Repo.findNote, Repo.findNoteRow.
    rewrite (find_by_key Note.id _ _ Hkey Hn). reflexivity. }
  assert (Howned : forall n, In n owned ->
            In n (noteRepository (db w)) /\ matchesQuery ilike q n = true
            /\ Note.isArchived n = false /\ Note.ownerId n = userId).
  { intros n Hn. apply List.filter_In in Hn as [Hn Hc].
    apply andb_true_iff in Hc as [Hc Harch]. apply andb_true_iff in Hc as [Hown Hm].
    apply Bool.eqb_prop in Harch. apply String.eqb_eq in Hown. auto. }
  assert (Hshared : forall n, In n shared ->
            In n (noteRepository (db w)) /\ matchesQuery ilike q n = true
            /\ Note.isArchived n = false
            /\ exists s, In s (Repo.sharesOf (Note.id n) (db w))
                         /\ grantsAccess userId s = true).
  { intros n Hn. apply List.filter_In in Hn as [Hn Hc].
    apply andb_true_iff in Hc as [Hc Harch]. apply andb_true_iff in Hc as [Hid Hm].
    apply Bool.eqb_prop in Harch.
    apply List.existsb_exists in Hid as (k & Hk & Hkn). apply String.eqb_eq in Hkn.
    apply List.in_map_iff in Hk as (s & Hs & Hsin).
    apply List.filter_In in Hsin as [Hsin Hact].
    rewrite activeShareOf_grantsAccess in Hact.
    repeat (split; [assumption|]). exists s. split; [|exact Hact].
    unfold Repo.sharesOf. apply List.filter_In. split; [exact Hsin|].
    rewrite Hs, <- Hkn. apply String.eqb_refl. }
  eexists. split; [exact Hrun|]. split.
  - intros l Hl. apply List.in_map_iff in Hl as (n & <- & Hn). cbn [listed listedRow].
    assert (Hn' : In n owned \/ (In n shared)).
    { destruct (Nat.eqb (length ids) 0); [left; exact Hn|].
      apply List.in_app_or in Hn. exact Hn. }
    destruct Hn' as [Hn'|Hn'].
    + destruct (Howned n Hn') as (Hin & Hm & Harch & Hown).
      split; [exact Hm|]. split; [exact Harch|].
      apply (getNoteById_opens _ _ _ _ (Hfind n Hin)). left. exact Hown.
    + destruct (Hshared n Hn') as (Hin & Hm & Harch & Hs).
      split; [exact Hm|]. split; [exact Harch|].
      apply (getNoteById_opens _ _ _ _ (Hfind n Hin)). right. exact Hs.
  - intros nid e Hget Hm Harch.
    destruct (getNoteById_ok_inv _ _ _ _ Hget) as (note & Hnote & Hre & _).
    pose proof (findNote_inv _ _ _ Hnote) as (Hrow & Hid & Hshares & _).
    assert (Hin : In (row note) (noteRepository (db w))).
    { unfold Repo.findNoteRow in Hrow. apply List.find_some in Hrow as [Hin _].
      exact Hin. }
    rewrite Hre in *. exists (listed (db w) (row note)).
    split; [|reflexivity]. apply List.in_map.
    rewrite (getNoteById_eq _ _ _ _ Hnote) in Hget.
    destruct (String.eqb (Note.ownerId (row note)) userId) eqn:Hown; simpl in Hget.
    + assert (Ho : In (row note) owned).
      { apply List.filter_In. split; [exact Hin|].
        rewrite Hown, Hm, Harch. reflexivity. }
      destruct (Nat.eqb (length ids) 0); [exact Ho|].
      apply List.in_or_app. left. exact Ho.
    + destruct (List.find (grantsAccess userId) (shares note)) as [s|] eqn:E;
        [|discriminate].
      apply List.find_some in E as [Hsin Hg]. rewrite Hshares in Hsin.
      unfold Repo.sharesOf in Hsin. apply List.filter_In in Hsin as [Hsin Hn].
      apply String.eqb_eq in Hn.
      assert (Hk : In (NoteShare.noteId s) ids).
      { apply List.in_map. apply List.filter_In. split; [exact Hsin|].
        rewrite activeShareOf_grantsAccess. exact Hg. }
      destruct (Nat.eqb (length ids) 0) eqn:Hlen.
      { apply Nat.eqb_eq in Hlen. destruct ids; [contradiction|discriminate]. }
      apply List.in_or_app. right. apply List.filter_In. split; [exact Hin|].
      rewrite Hm, Harch. rewrite andb_true_r. cbn [Bool.eqb]. rewrite andb_true_r.
      apply List.existsb_exists. exists (NoteShare.noteId s). split; [exact Hk|].
      rewrite Hid, Hn. apply String.eqb_refl.
Qed.

Lemma searchNotes_lists_what_the_user_can_open_witness :
  let exactly := fun text pattern => String.eqb ("%" +:+ text +:+ "%") pattern in
  List.NoDup (List.map Note.id (noteRepository (db Demo.library)))
  /\ exists notes,
       searchNotes exactly "C" "T2" Demo.library = (Ok notes, Demo.library)
       /\ (forall n, In n notes ->
             exists e, getNoteById (Note.id (listedRow n)) "C" Demo.library
                       = (Ok e, Demo.library))
       /\ exists n, In n notes /\ listedRow n = Demo.note2.
Proof.
  intros exactly.
  assert (Hkey : List.NoDup (List.map Note.id (noteRepository (db Demo.library)))).
  { simpl. constructor; [|constructor; [|constructor]].
    - intros [H|[]]. discriminate H.
    - intros []. }
  split; [exact Hkey|].
  destruct (searchNotes_lists_what_the_user_can_open exactly "C" "T2" Demo.library Hkey)
    as (notes & Hrun & Hsound & Hcomplete).
  exists notes. split; [exact Hrun|]. split.
  - intros n Hn. destruct (Hsound n Hn) as (_ & _ & e & He & _). exists e. exact He.
  - destruct (Hcomplete "n2"
                (mkEntity Demo.note2 (Some Demo.alice) [] (Some READ)))
      as (n & Hn & Hrow); [vm_compute; reflexivity..|].
    exists n. split; [exact Hn|exact Hrow].
Defined.

(** ** The join-note and leave-note handlers *)

Lemma findSocket_updateSocket sid f ss socket :
  (forall s, Socket.sid (f s) = Socket.sid s) ->
  findSocket sid ss = Some socket ->
  forall au ur,
    findSocket sid (mkSocketService (sockets (updateSocket sid f ss)) au ur)
    = Some (f socket).
Proof.
  intros Hf Hfind au ur. unfold findSocket in *. cbn [sockets updateSocket].
  induction (sockets ss) as [|s l IH]; [discriminate|].
  cbn [List.map List.find] in *.
  destruct (Nat.eqb (Socket.sid s) sid) eqn:E.
  - injection Hfind as <-. rewrite Hf, E. reflexivity.
  - rewrite E. apply IH. exact Hfind.
Qed.

Lemma onJoinNote_run sid noteId w socket userId :
  findSocket sid (io w) = Some socket ->
  authenticated socket = Some userId ->
  onJoinNote sid noteId w
  = (Ok tt,
     match fst (getNoteById noteId userId w) with
     | Throw _ =>
         mkWorld (db w) (io w)
                 (outbox w ++ [(sid, ErrorEvent "You do not have access to this note")])
     | Ok _ =>
         let ss' := joined sid noteId userId (io w) in
         mkWorld (db w) ss'
           (outbox w
            ++ deliveries (ToRoomExcept (noteRoom noteId) sid)
                 (UserJoined userId (activeIn noteId ss')) ss'
            ++ [(sid, ActiveUsers noteId (activeIn noteId ss'))])
     end).
Proof.
  intros Hsock Hauth. unfold onJoinNote, onSocket. rewrite Hsock, Hauth.
  unfold tryCatch at 1. unfold bind at 1. unfold tryCatch, bind.
  destruct (getNoteById_result noteId userId w) as [r Hr]. rewrite Hr.
  destruct r as [note|msg]; cbn [fst].
  - unfold ret, modifyIo, readIo, emit, deliveries, joined.
    cbn [db io outbox sockets receivers List.map]. rewrite <- List.app_assoc.
    reflexivity.
  - unfold emit, ret. cbn [db io outbox receivers List.map]. reflexivity.
Qed.

Lemma activeIn_joined sid noteId userId ss :
  activeIn noteId (joined sid noteId userId ss) = {[ userId ]} ∪ activeIn noteId ss.
Proof.
  unfold activeIn at 1. unfold joined. cbn [activeUsers].
  rewrite lookup_insert_eq. reflexivity.
Qed.

Lemma updateSocket_others sid f ss c :
  In c (sockets (updateSocket sid f ss)) -> Socket.sid c <> sid ->
  (forall s, Socket.sid (f s) = Socket.sid s) ->
  In c (sockets ss).
Proof.
  intros Hc Hne Hf. cbn [updateSocket sockets] in Hc.
  apply List.in_map_iff in Hc as (s & Hs & Hin).
  destruct (Nat.eqb (Socket.sid s) sid) eqn:E.
  - apply Nat.eqb_eq in E. subst c. rewrite Hf in Hne. contradiction.
  - subst c. exact Hin.
Qed.

(** X18. [join-note] from an authenticated socket admits exactly those whom
    [getNoteById] lets read the note.  When [getNoteById] throws, for whatever
    reason, the socket joins nothing, the list of active users stays as it is
    and the only event is the error "You do not have access to this note" to
    that socket.  When it returns, the socket is put in the room of the note,
    no other socket changes, the user is added to the active users of the
    note, the sockets in the room other than the joiner get [user-joined] and
    the joiner gets [active-users], both with the list that already holds the
    joiner.  The database is never written. *)
Theorem onJoinNote_admits_whom_getNoteById_admits (sid : nat) (noteId : string)
    (w : World) (socket : Socket.t) (userId : string)
    (Hsock : findSocket sid (io w) = Some socket)
    (Hauth : authenticated socket = Some userId) :
  let w' := snd (onJoinNote sid noteId w) in
  db w' = db w
  /\ (forall msg, fst (getNoteById noteId userId w) = Throw msg ->
        io w' = io w
        /\ outbox w'
           = outbox w ++ [(sid, ErrorEvent "You do not have access to this note")])
  /\ (forall e, fst (getNoteById noteId userId w) = Ok e ->
        findSocket sid (io w') = Some (joinRooms (noteRoom noteId) socket)
        /\ (forall c, In c (sockets (io w')) -> Socket.sid c <> sid ->
              In c (sockets (io w)))
        /\ activeIn noteId (io w') = {[ userId ]} ∪ activeIn noteId (io w)
        /\ outbox w'
           = outbox w
             ++ deliveries (ToRoomExcept (noteRoom noteId) sid)
                  (UserJoined userId (activeIn noteId (io w'))) (io w')
             ++ [(sid, ActiveUsers noteId (activeIn noteId (io w')))]).
Proof.
  intros w'. subst w'. rewrite (onJoinNote_run _ _ _ _ _ Hsock Hauth). cbn [snd].
  split; [destruct (fst (getNoteById noteId userId w)); reflexivity|]. split.
  - intros msg ->. split; reflexivity.
  - intros e ->. cbn [db io outbox]. split; [|split; [|split]].
    + unfold joined. apply findSocket_updateSocket; [reflexivity|exact Hsock].
    + intros c Hc Hne. unfold joined in Hc. cbn [sockets] in Hc.
      apply (updateSocket_others sid (joinRooms (noteRoom noteId))); auto.
    + apply activeIn_joined.
    + reflexivity.
Qed.

Lemma onJoinNote_admits_whom_getNoteById_admits_witness :
  findSocket 3 (io Demo.library) = Some Demo.socketC
  /\ authenticated Demo.socketC = Some "C"
  /\ io (snd (onJoinNote 3 "n1" Demo.library)) = io Demo.library
  /\ activeIn "n2" (io (snd (onJoinNote 3 "n2" Demo.library))) = {[ "C" ]} ∪ ∅.
Proof.
  assert (Hsock : findSocket 3 (io Demo.library) = Some Demo.socketC) by reflexivity.
  assert (Hauth : authenticated Demo.socketC = Some "C") by reflexivity.
  split; [exact Hsock|]. split; [exact Hauth|]. split.
  - destruct (onJoinNote_admits_whom_getNoteById_admits 3 "n1" Demo.library _ _
                Hsock Hauth) as (_ & Hdenied & _).
    apply (Hdenied msgNoAccess). vm_compute. reflexivity.
  - destruct (onJoinNote_admits_whom_getNoteById_admits 3 "n2" Demo.library _ _
                Hsock Hauth) as (_ & _ & Hallowed).
    destruct (Hallowed (mkEntity Demo.note2 (Some Demo.alice) [] (Some READ)))
      as (_ & _ & Hactive & _); [vm_compute; reflexivity|].
    exact Hactive.
Defined.

Lemma onLeaveNote_run sid noteId w socket :
  findSocket sid (io w) = Some socket ->
  onLeaveNote sid noteId w
  = (Ok tt,
     if bool_decide (noteRoom noteId ∈ Socket.currentRooms socket) then
       match authenticated socket with
       | Some userId =>
           if bool_decide (is_Some (activeUsers (io w) !! noteId)) then
             let ss' := left sid noteId userId (io w) in
             mkWorld (db w) ss'
               (outbox w
                ++ deliveries (ToRoomExcept (noteRoom noteId) sid)
                     (UserLeft userId (activeIn noteId ss')) ss')
           else
             mkWorld (db w) (updateSocket sid (leaveRooms (noteRoom noteId)) (io w))
                     (outbox w)
       | None =>
           mkWorld (db w) (updateSocket sid (leaveRooms (noteRoom noteId)) (io w))
                   (outbox w)
       end
     else w).
Proof.
  intros Hsock. unfold onLeaveNote, onSocket. rewrite Hsock.
  destruct (bool_decide (noteRoom noteId ∈ Socket.currentRooms socket));
    [|reflexivity].
  unfold bind, modifyIo, readIo. cbn [db io outbox].
  destruct (authenticated socket) as [userId|]; [|reflexivity].
  cbn [updateSocket activeUsers].
  destruct (bool_decide (is_Some (activeUsers (io w) !! noteId))); reflexivity.
Qed.

(** X19. [leave-note] from a socket that is not in the room of the note does
    nothing.  From a socket that is in it, the socket leaves the room and no
    write reaches the database; if the socket is authenticated, its user is
    no longer among the active users of the note afterwards, even when
    another socket of the same user is still in the room, and a later
    [content-change] for that note from the socket is ignored: no event and
    no write. *)
Theorem onLeaveNote_leaves (sid : nat) (noteId : string) (w : World)
    (socket : Socket.t)
    (Hsock : findSocket sid (io w) = Some socket) :
  let w' := snd (onLeaveNote sid noteId w) in
  (noteRoom noteId ∉ Socket.currentRooms socket -> w' = w)
  /\ (noteRoom noteId ∈ Socket.currentRooms socket ->
        db w' = db w
        /\ findSocket sid (io w') = Some (leaveRooms (noteRoom noteId) socket)
        /\ (forall c, In c (sockets (io w')) -> Socket.sid c <> sid ->
              In c (sockets (io w)))
        /\ forall userId, authenticated socket = Some userId ->
             (userId ∉ activeIn noteId (io w'))
             /\ forall now newRevisionId change,
                  change_noteId change = noteId ->
                  onContentChange now newRevisionId sid change w' = (Ok tt, w')).
Proof.
  intros w'. subst w'. rewrite (onLeaveNote_run _ _ _ _ Hsock). cbn [snd]. split.
  - intros Hout. rewrite bool_decide_eq_false_2 by exact Hout. reflexivity.
  - intros Hin. rewrite bool_decide_eq_true_2 by exact Hin.
    set (w' := match authenticated socket with
               | Some userId => _
               | None => _
               end).
    assert (Hio : exists au,
               io w' = mkSocketService
                         (sockets (updateSocket sid (leaveRooms (noteRoom noteId)) (io w)))
                         au (userRooms (io w))
               /\ forall userId, authenticated socket = Some userId ->
                    userId ∉ default ∅ (au !! noteId)).
    { subst w'. destruct (authenticated socket) as [u|].
      - destruct (bool_decide (is_Some (activeUsers (io w) !! noteId))) eqn:Hk.
        + eexists. split; [reflexivity|]. intros ? [= <-].
          rewrite lookup_insert_eq. intros Hx.
          change (u ∈ activeIn noteId (io w) ∖ {[u]}) in Hx.
          apply elem_of_difference in Hx as [_ Hx]. apply Hx.
          apply elem_of_singleton. reflexivity.
        + exists (activeUsers (io w)). split; [reflexivity|]. intros ? [= <-].
          apply bool_decide_eq_false in Hk.
          destruct (activeUsers (io w) !! noteId) eqn:E.
          * exfalso. apply Hk. eexists. reflexivity.
          * cbn [default]. set_solver.
      - exists (activeUsers (io w)). split; [reflexivity|]. intros ? [=]. }
    destruct Hio as (au & Hio & Hgone).
    assert (Hdb : db w' = db w).
    { subst w'. destruct (authenticated socket); [destruct (bool_decide _)|];
        reflexivity. }
    assert (Hfound : findSocket sid (io w')
                     = Some (leaveRooms (noteRoom noteId) socket)).
    { rewrite Hio. apply findSocket_updateSocket; [reflexivity|exact Hsock]. }
    split; [exact Hdb|]. split; [exact Hfound|]. split.
    + intros c Hc Hne. rewrite Hio in Hc. cbn [sockets] in Hc.
      apply (updateSocket_others sid (leaveRooms (noteRoom noteId))); auto.
    + intros userId Hauth. split.
      * unfold activeIn. rewrite Hio. cbn [activeUsers]. apply Hgone. exact Hauth.
      * intros now rid change Hnid. unfold onContentChange, onSocket.
        rewrite Hfound. unfold tryCatch at 1.
        assert (Hauth' : authenticated (leaveRooms (noteRoom noteId) socket)
                         = Some userId) by exact Hauth.
        rewrite Hauth', Hnid.
        rewrite bool_decide_eq_false_2; [reflexivity|].
        cbn [leaveRooms Socket.currentRooms].
        rewrite elem_of_difference, elem_of_singleton. tauto.
Qed.

Lemma onLeaveNote_leaves_witness :
  findSocket 2 (io Demo.world) = Some Demo.socketB
  /\ (let w' := snd (onLeaveNote 2 "n1" Demo.world) in
      ("B" ∉ activeIn "n1" (io w'))
      /\ onContentChange 0 "r9" 2 Demo.save w' = (Ok tt, w')).
Proof.
  assert (Hsock : findSocket 2 (io Demo.world) = Some Demo.socketB) by reflexivity.
  assert (Hroom : noteRoom "n1" ∈ Socket.currentRooms Demo.socketB).
  { apply (bool_decide_unpack _). vm_compute. exact I. }
  split; [exact Hsock|].
  destruct (onLeaveNote_leaves 2 "n1" Demo.world _ Hsock) as [_ Hin].
  destruct (Hin Hroom) as (_ & _ & _ & Huser).
  destruct (Huser "B" eq_refl) as [Hgone Hsilent].
  split; [exact Hgone|]. apply Hsilent. reflexivity.
Defined.

(** ** Personal rooms and notifications *)

Lemma userRoom_inj u u' : userRoom u = userRoom u' -> u = u'.
Proof. unfold userRoom. simpl. intros H. injection H. auto. Qed.

Lemma runOp_io socketService op w : io (runOp socketService op w) = io w.
Proof.
  destruct op as [sid tok u sd|tok u|tok u|sid u]; cbn [runOp].
  - destruct (shareNote_cases socketService sid tok u sd w)
      as [[msg ->]|(note & out & _ & _ & ->)]; reflexivity.
  - destruct (acceptSharedNote_cases socketService tok u w)
      as [(msg & -> & _)|(l & us & out & r & _ & _ & _ & _ & _ & _ & -> & _)];
      reflexivity.
  - destruct (declineSharedNote_cases socketService tok u w)
      as [[msg ->]|(l & out & r & _ & _ & _ & ->)]; reflexivity.
  - destruct (revokeShare_cases socketService sid u w)
      as [[msg ->]|(l & note & _ & _ & ->)]; reflexivity.
Qed.

Lemma runNoteOp_io op w : io (runNoteOp op w) = io w.
Proof.
  destruct op as [nid rid u nd|rid nid u p|rid nid rev u]; cbn [runNoteOp].
  - unfold createNote, bind, query.
    destruct (Repo.findUser u (db w)); reflexivity.
  - apply updateNote_io.
  - destruct (restoreRevision_cases rid nid rev u w)
      as [[msg ->]|(note & revision & _ & _ & _ & [(_ & e & ->)|(_ & ->)])];
      reflexivity.
Qed.

Lemma personalRooms_updateSocket sid f ss au :
  personalRooms ss ->
  (forall s, Socket.userId (f s) = Socket.userId s) ->
  (forall s u, userRoom u ∈ Socket.rooms (f s) <-> userRoom u ∈ Socket.rooms s) ->
  personalRooms (mkSocketService (sockets (updateSocket sid f ss)) au (userRooms ss)).
Proof.
  intros [Hnames Hrooms] Hid Hf. split; [exact Hnames|].
  intros c Hc u. cbn [sockets updateSocket userRooms] in *.
  apply List.in_map_iff in Hc as (s & <- & Hs).
  destruct (Hrooms s Hs u) as [Hiff Hreg].
  destruct (Nat.eqb (Socket.sid s) sid); [|split; assumption].
  unfold authenticated in *. rewrite Hid, Hf. split; assumption.
Qed.

Lemma personalRooms_runEvent ev w :
  personalRooms (io w) -> personalRooms (io (runEvent ev w)).
Proof.
  intros Hinv.
  destruct ev as [sid userId|sid noteId|sid noteId|now rid sid change|ss op|op];
    cbn [runEvent].
  - (* connection *)
    destruct Hinv as [Hnames Hrooms].
    unfold onConnection, modifyIo. cbn [snd io sockets userRooms].
    destruct (Js.truthy userId) eqn:Ht; [destruct userId as [u0|]; [|discriminate]|];
      cbv beta iota; unfold personalRooms; cbn [userRooms sockets].
    + split.
      * intros u r. destruct (decide (u0 = u)) as [->|Hne].
        -- rewrite lookup_insert_eq. intros [= <-]. reflexivity.
        -- rewrite lookup_insert_ne by exact Hne. apply Hnames.
      * intros c Hc u. apply List.in_app_or in Hc as [Hc|[<-|[]]].
        -- destruct (Hrooms c Hc u) as [Hiff Hreg]. split; [exact Hiff|].
           intros Ha. destruct (decide (u0 = u)) as [->|Hne].
           ++ apply lookup_insert_eq.
           ++ rewrite lookup_insert_ne by exact Hne. apply Hreg. exact Ha.
        -- unfold authenticated. cbn [Socket.rooms Socket.userId]. rewrite Ht.
           rewrite elem_of_singleton. split; [split|].
           ++ intros H. apply userRoom_inj in H. congruence.
           ++ intros [= ->]. reflexivity.
           ++ intros [= ->]. apply lookup_insert_eq.
    + split; [exact Hnames|].
      intros c Hc u. apply List.in_app_or in Hc as [Hc|[<-|[]]].
      * apply Hrooms. exact Hc.
      * unfold authenticated. cbn [Socket.rooms Socket.userId]. rewrite Ht.
        rewrite elem_of_empty. split; [split|]; [tauto|discriminate|discriminate].
  - (* join-note *)
    unfold onJoinNote, onSocket.
    destruct (findSocket sid (io w)) as [socket|] eqn:Hsock; [|exact Hinv].
    destruct (authenticated socket) as [userId|] eqn:Hauth; [|exact Hinv].
    fold (onSocket sid) in *.
    pose proof (onJoinNote_run sid noteId w socket userId Hsock Hauth) as Hrun.
    unfold onJoinNote, onSocket in Hrun. rewrite Hsock, Hauth in Hrun.
    rewrite Hrun. cbn [snd].
    destruct (fst (getNoteById noteId userId w)); [|exact Hinv].
    cbn [io]. unfold joined. apply personalRooms_updateSocket;
      [exact Hinv|reflexivity|].
    intros s u. cbn [joinRooms Socket.rooms].
    rewrite elem_of_union, elem_of_singleton. split; [|tauto].
    intros [H|H]; [|exact H]. symmetry in H.
    exfalso. exact (noteRoom_not_userRoom _ _ H).
  - (* leave-note *)
    destruct (findSocket sid (io w)) as [socket|] eqn:Hsock.
    2:{ unfold onLeaveNote, onSocket. rewrite Hsock. exact Hinv. }
    rewrite (onLeaveNote_run _ _ _ _ Hsock). cbn [snd].
    assert (Hleft : forall au,
               personalRooms
                 (mkSocketService
                    (sockets (updateSocket sid (leaveRooms (noteRoom noteId)) (io w)))
                    au (userRooms (io w)))).
    { intros au. apply personalRooms_updateSocket; [exact Hinv|reflexivity|].
      intros s u. cbn [leaveRooms Socket.rooms].
      rewrite elem_of_difference, elem_of_singleton. split; [tauto|].
      intros H. split; [exact H|]. intros Heq. symmetry in Heq.
      exact (noteRoom_not_userRoom _ _ Heq). }
    destruct (bool_decide (noteRoom noteId ∈ Socket.currentRooms socket));
      [|exact Hinv].
    destruct (authenticated socket) as [userId|]; [|apply Hleft].
    destruct (bool_decide (is_Some (activeUsers (io w) !! noteId))); apply Hleft.
  - rewrite onContentChange_io. exact Hinv.
  - rewrite runOp_io. exact Hinv.
  - rewrite runNoteOp_io. exact Hinv.
Qed.

Lemma personalRooms_runEvents evs :
  forall w, personalRooms (io w) -> personalRooms (io (runEvents evs w)).
Proof.
  induction evs as [|ev evs IH]; intros w Hinv; [exact Hinv|].
  cbn [runEvents]. apply IH. apply personalRooms_runEvent. exact Hinv.
Qed.

Lemma personalRooms_fresh ss : noConnections ss -> personalRooms ss.
Proof.
  intros [Hs Hr]. split.
  - intros u r. rewrite Hr, lookup_empty. discriminate.
  - intros c. rewrite Hs. intros [].
Qed.

(** X20. Start from a socket service nobody has connected to and let sockets
    connect, join and leave notes and send content changes while users
    share, accept, decline, revoke, create, update and restore, in any order.
    Then [sendUserNotification] for a user adds to the outbox one
    [notification] for each socket authenticated as that user and nothing
    for anybody else, and [notifyNoteShared] reaches the same sockets. *)
Theorem notifications_reach_the_user_and_nobody_else (evs : list Event)
    (w0 : World) (userId message : string) (data : NotificationData)
    (noteId sharerName : string)
    (Hfresh : noConnections (io w0)) :
  let w := runEvents evs w0 in
  sendUserNotification userId message data w
  = (Ok tt, mkWorld (db w) (io w)
                    (outbox w ++ notificationDeliveries userId message data (io w)))
  /\ (forall r p,
        In (r, p) (notificationDeliveries userId message data (io w))
        <-> p = Notification message data
            /\ exists c, In c (sockets (io w)) /\ Socket.sid c = r
                         /\ authenticated c = Some userId)
  /\ (forall r p,
        In (r, p) (deliveries (ToRoom (userRoom userId))
                              (NoteShared noteId sharerName) (io w))
        <-> p = NoteShared noteId sharerName
            /\ exists c, In c (sockets (io w)) /\ Socket.sid c = r
                         /\ authenticated c = Some userId).
Proof.
  intros w.
  assert (Hinv : personalRooms (io w)).
  { apply personalRooms_runEvents, personalRooms_fresh. exact Hfresh. }
  destruct Hinv as [Hnames Hrooms].
  assert (Hroom : forall q r p,
            In (r, p) (deliveries (ToRoom (userRoom userId)) q (io w))
            <-> p = q /\ exists c, In c (sockets (io w)) /\ Socket.sid c = r
                                   /\ authenticated c = Some userId).
  { intros q r p. unfold deliveries, receivers. rewrite List.in_map_iff. split.
    - intros (r' & [= <- <-] & Hr). apply List.in_map_iff in Hr as (c & Hsid & Hc).
      apply List.filter_In in Hc as [Hc Hin]. unfold inRoom in Hin.
      apply bool_decide_eq_true in Hin.
      split; [reflexivity|]. exists c. split; [exact Hc|]. split; [exact Hsid|].
      apply (Hrooms c Hc userId). exact Hin.
    - intros (-> & c & Hc & <- & Hauth). exists (Socket.sid c).
      split; [reflexivity|]. apply List.in_map. apply List.filter_In.
      split; [exact Hc|]. unfold inRoom. apply bool_decide_eq_true.
      apply (Hrooms c Hc userId). exact Hauth. }
  split; [apply sendUserNotification_eq|]. split; [|apply Hroom].
  intros r p. unfold notificationDeliveries.
  destruct (userRooms (io w) !! userId) as [room|] eqn:Hreg.
  - rewrite (Hnames _ _ Hreg).
    change (Js.truthyStr (userRoom userId)) with true. cbv iota. apply Hroom.
  - split; [intros []|].
    intros (_ & c & Hc & _ & Hauth).
    destruct (Hrooms c Hc userId) as [_ Hknown]. rewrite (Hknown Hauth) in Hreg.
    discriminate.
Qed.

Lemma notifications_reach_the_user_and_nobody_else_witness :
  noConnections (io Demo.empty)
  /\ (let w := runEvents
                 [ EvConnection 1 (Some "A");
                   EvNoteOp (OpCreateNote "n1" "r1" "A" (mkNoteInput "T" "C1"));
                   EvConnection 2 (Some "B");
                   EvJoinNote 1 "n1" ]
                 Demo.empty in
      In (1%nat, Notification "hello" (ShareRevokedByOwner "n1" "s1"))
         (notificationDeliveries "A" "hello" (ShareRevokedByOwner "n1" "s1") (io w))
      /\ ~ In (2%nat, Notification "hello" (ShareRevokedByOwner "n1" "s1"))
           (notificationDeliveries "A" "hello" (ShareRevokedByOwner "n1" "s1") (io w))).
Proof.
  assert (Hfresh : noConnections (io Demo.empty)) by (split; reflexivity).
  split; [exact Hfresh|]. intros w.
  destruct (notifications_reach_the_user_and_nobody_else
              [ EvConnection 1 (Some "A");
                EvNoteOp (OpCreateNote "n1" "r1" "A" (mkNoteInput "T" "C1"));
                EvConnection 2 (Some "B");
                EvJoinNote 1 "n1" ]
              Demo.empty "A" "hello" (ShareRevokedByOwner "n1" "s1") "n1" "Alice"
              Hfresh) as (_ & Hiff & _).
  fold w in Hiff. split.
  - apply Hiff. split; [reflexivity|].
    exists (joinRooms (noteRoom "n1") (Socket.mk 1 (Some "A") ∅ {[ userRoom "A" ]})).
    split; [left; vm_compute; reflexivity|]. split; reflexivity.
  - intros Hin. apply Hiff in Hin as (_ & c & Hc & Hsid & Hauth).
    destruct Hc as [<-|[<-|[]]]; [discriminate Hsid|discriminate Hauth].
Defined.

(** ** Rooms after a revocation *)

Lemma revokeShare_leaves_no_grant socketService shareId ownerId userId w w'
    loaded note :
  revokeShare socketService shareId ownerId w = (Ok tt, w') ->
  Repo.findShareById shareId (db w) = Some loaded ->
  Repo.findNote (NoteShare.noteId (shareRow loaded)) (db w) = Some note ->
  Note.ownerId (row note) <> userId ->
  (forall s, In s (shares note) -> grantsAccess userId s = true ->
             NoteShare.id s = shareId) ->
  io w' = io w
  /\ exists l,
       Repo.findNote (NoteShare.noteId (shareRow loaded)) (db w')
       = Some (mkEntity (row note) (owner note) l None)
       /\ List.find (grantsAccess userId) l = None.
Proof.
  intros Hok Hfind Hnote Hne Honly.
  destruct (revokeShare_ok_inv _ _ _ _ _ Hok) as (loaded0 & e & o & Hf0 & Hget & Ho & Hid).
  rewrite Hfind in Hf0. injection Hf0 as <-.
  rewrite (revokeShare_run _ _ _ _ _ _ _ Hfind Hget Ho Hid) in Hok.
  injection Hok as <-.
  pose proof (findNote_inv _ _ _ Hnote) as (Hrow & Hnid & Hshares & Howner & _).
  set (nid := NoteShare.noteId (shareRow loaded)) in *.
  set (saved := NoteShare.withRevoked true (shareRow loaded)).
  set (w' := mkWorld _ _ _).
  split; [reflexivity|].
  destruct (findShareById_inv _ _ _ Hfind) as (_ & Hsid & _).
  unfold Repo.findNote.
  change (Repo.findNoteRow nid (db w')) with (Repo.findNoteRow nid (db w)).
  rewrite Hrow, Hnid.
  change (Repo.findUser (Note.ownerId (row note)) (db w'))
    with (Repo.findUser (Note.ownerId (row note)) (db w)).
  rewrite <- Howner. eexists. split; [reflexivity|].
  destruct (List.find _ _) as [s|] eqn:E; [|reflexivity].
  exfalso. apply List.find_some in E as [Hin Hg].
  unfold Repo.sharesOf, w' in Hin. simpl in Hin.
  apply List.filter_In in Hin as [Hin Hn].
  apply List.in_map_iff in Hin as (r & Hr & Hrin).
  destruct (String.eqb (NoteShare.id r) (NoteShare.id (shareRow loaded))) eqn:E.
  - subst s. unfold grantsAccess in Hg.
    change (NoteShare.isRevoked saved) with true in Hg.
    destruct (Js.strictEq (NoteShare.sharedWithId saved) userId);
      simpl in Hg; discriminate.
  - subst s. apply String.eqb_neq in E. apply E.
    rewrite Hsid. apply Honly; [|exact Hg].
    rewrite Hshares. unfold Repo.sharesOf. apply List.filter_In.
    split; assumption.
Qed.

(** X21. Revoking a share does not touch the rooms.  A socket of the user
    whose only granting share was revoked, if it had joined the room of the
    note, is still in it: a [content-change] it sends afterwards is still
    delivered to the other sockets in the room, but a save is refused, so the
    database stays as it is and the sender gets "Failed to save note". *)
Theorem revokeShare_keeps_rooms_but_not_saves (socketService : bool)
    (shareId ownerId userId : string) (w w' : World) (loaded : ShareEntity)
    (note : NoteEntity) (now : Z) (newRevisionId : string) (sid : nat)
    (change : ContentChange) (socket : Socket.t)
    (Hrevoked : revokeShare socketService shareId ownerId w = (Ok tt, w'))
    (Hshare : Repo.findShareById shareId (db w) = Some loaded)
    (Hnote : Repo.findNote (NoteShare.noteId (shareRow loaded)) (db w) = Some note)
    (Hnotowner : Note.ownerId (row note) <> userId)
    (Honly : forall s, In s (shares note) -> grantsAccess userId s = true ->
                       NoteShare.id s = shareId)
    (Hsock : findSocket sid (io w) = Some socket)
    (Hauth : authenticated socket = Some userId)
    (Hnid : change_noteId change = NoteShare.noteId (shareRow loaded))
    (Hroom : noteRoom (change_noteId change) ∈ Socket.currentRooms socket) :
  let event := ContentUpdate (change_noteId change) (change_content change)
                 (change_title change) (change_cursorPosition change) userId now in
  let sent := deliveries (ToRoomExcept (noteRoom (change_noteId change)) sid) event
                         (io w) in
  io w' = io w
  /\ onContentChange now newRevisionId sid change w'
     = (Ok tt,
        mkWorld (db w') (io w)
          (outbox w' ++ sent
           ++ if Js.truthy (change_title change)
              then [(sid, ErrorEvent "Failed to save note")] else [])).
Proof.
  intros event sent.
  destruct (revokeShare_leaves_no_grant _ _ _ _ _ _ _ _ Hrevoked Hshare Hnote
              Hnotowner Honly) as (Hio & l & Hfind' & Hnone).
  split; [exact Hio|].
  unfold onContentChange, onSocket. rewrite Hio, Hsock.
  unfold tryCatch at 1. rewrite Hauth.
  rewrite bool_decide_eq_true_2 by exact Hroom.
  unfold bind at 1. unfold emit at 1. cbn [db io outbox]. rewrite Hio.
  fold event. change (List.map (fun r => (r, event)) _) with sent.
  destruct (Js.truthy (change_title change)).
  - unfold tryCatch, bind.
    rewrite (updateNote_denied newRevisionId (change_noteId change) userId _
               (mkWorld (db w') (io w) (outbox w' ++ sent))
               (mkEntity (row note) (owner note) l None)).
    + unfold emit. cbn [db io outbox receivers List.map].
      rewrite <- List.app_assoc. reflexivity.
    + rewrite Hnid. exact Hfind'.
    + unfold canEdit. cbn [row shares]. rewrite Hnone.
      apply String.eqb_neq in Hnotowner. rewrite Hnotowner. reflexivity.
  - rewrite List.app_nil_r. reflexivity.
Qed.

Lemma revokeShare_keeps_rooms_but_not_saves_witness :
  exists w',
    revokeShare true "s1" "A" Demo.world = (Ok tt, w')
    /\ findSocket 2 (io Demo.world) = Some Demo.socketB
    /\ db (snd (onContentChange 7 "r9" 2 Demo.save w')) = db w'
    /\ In (1%nat, ContentUpdate "n1" "C2" (Some "T2") None "B" 7)
          (outbox (snd (onContentChange 7 "r9" 2 Demo.save w')))
    /\ In (2%nat, ErrorEvent "Failed to save note")
          (outbox (snd (onContentChange 7 "r9" 2 Demo.save w'))).
Proof.
  assert (Hrun : exists w', revokeShare true "s1" "A" Demo.world = (Ok tt, w')).
  { eexists. vm_compute. reflexivity. }
  destruct Hrun as [w' Hrun]. exists w'. split; [exact Hrun|].
  assert (Hsock : findSocket 2 (io Demo.world) = Some Demo.socketB) by reflexivity.
  split; [exact Hsock|].
  assert (Hroom : noteRoom (change_noteId Demo.save) ∈ Socket.currentRooms Demo.socketB).
  { apply (bool_decide_unpack _). vm_compute. exact I. }
  assert (Honly : forall s,
            In s [Demo.shareBob; Demo.shareCarol; Demo.sharePending; Demo.shareNoEmail] ->
            grantsAccess "B" s = true -> NoteShare.id s = "s1").
  { intros s [<-|[<-|[<-|[<-|[]]]]] Hg; [reflexivity|discriminate Hg..]. }
  destruct (revokeShare_keeps_rooms_but_not_saves true "s1" "A" "B" Demo.world w'
              (Repo.loadShare Demo.shareBob (db Demo.world))
              (mkEntity Demo.note1 (Some Demo.alice)
                 [Demo.shareBob; Demo.shareCarol; Demo.sharePending; Demo.shareNoEmail]
                 None)
              7 "r9" 2%nat Demo.save Demo.socketB
              Hrun eq_refl eq_refl ltac:(discriminate) Honly Hsock eq_refl eq_refl Hroom)
    as [_ Hsent].
  rewrite Hsent. cbn [snd db outbox]. split; [reflexivity|]. split.
  - apply List.in_or_app. right. apply List.in_or_app. left.
    vm_compute. left. reflexivity.
  - apply List.in_or_app. right. apply List.in_or_app. right.
    left. reflexivity.
Defined.

(** ** Controllers *)

(** X22. The status of [acceptShare] for a signed-in user, by cause.  An
    unknown token, a share bound to another user and an unknown caller are
    answered with 404; a revoked share, an accepted share and a share sent to
    another email address with 400; none of these changes anything.  When
    every guard passes the accepted row is saved, and the answer is 200
    unless the share has lost its note, which gives 400 after the save. *)
Theorem acceptShare_status_by_cause (socketService : bool) (userId token : string)
    (w : World) :
  let resp := fst (Controller.acceptShare socketService (Some userId) token w) in
  let w' := snd (Controller.acceptShare socketService (Some userId) token w) in
  match Repo.findShareByToken token (db w) with
  | None => status resp = 404%nat /\ w' = w
  | Some loaded =>
      let share := shareRow loaded in
      if NoteShare.isRevoked share then status resp = 400%nat /\ w' = w
      else if NoteShare.isAccepted share then status resp = 400%nat /\ w' = w
      else if Js.truthy (NoteShare.sharedWithId share)
              && negb (Js.strictEq (NoteShare.sharedWithId share) userId)
      then status resp = 404%nat /\ w' = w
      else match Repo.findUser userId (db w) with
           | None => status resp = 404%nat /\ w' = w
           | Some user =>
               if Js.truthy (NoteShare.email share)
                  && negb (Js.strictEq (NoteShare.email share) (User.email user))
               then status resp = 400%nat /\ w' = w
               else db w' = Repo.updateShare (accepted userId share) (db w)
                    /\ (status resp = 200%nat
                        \/ (status resp = 400%nat /\ shareNoteRel loaded = None))
           end
  end.
Proof.
  intros resp w'. subst resp w'.
  unfold Controller.acceptShare, Controller.handle.
  destruct (acceptSharedNote_cases socketService token userId w)
    as [(msg & -> & Hnone & Hsome)
       |(loaded & user & out & r & Hfind & Hr & Ha & Hb & Hu & He & -> & Hres)].
  - destruct (Repo.findShareByToken token (db w)) as [loaded|].
    + specialize (Hsome loaded eq_refl). cbv zeta in Hsome |- *.
      destruct (NoteShare.isRevoked (shareRow loaded)); [subst msg; split; reflexivity|].
      destruct (NoteShare.isAccepted (shareRow loaded)); [subst msg; split; reflexivity|].
      destruct (Js.truthy (NoteShare.sharedWithId (shareRow loaded))
                && negb (Js.strictEq (NoteShare.sharedWithId (shareRow loaded)) userId));
        [subst msg; split; reflexivity|].
      destruct (Repo.findUser userId (db w)) as [user|];
        [|subst msg; split; reflexivity].
      destruct Hsome as [Hmis ->]. rewrite Hmis. split; reflexivity.
    + rewrite (Hnone eq_refl). split; reflexivity.
  - rewrite Hfind. cbv zeta. rewrite Hr, Ha, Hb, Hu, He.
    destruct Hres as [->|[-> Hrel]].
    + split; [reflexivity|]. left. reflexivity.
    + split; [reflexivity|]. right. split; [reflexivity|exact Hrel].
Qed.

(** X23. The same two refusals get opposite statuses from [deleteNote] and
    [revokeShare].  For a signed-in user who is not the owner of the note:
    when the user holds a granting share, deleting the note is answered with
    400 and revoking one of its shares with 404; when the user has no access
    at all, deleting is answered with 404 and revoking with 400.  Nothing is
    changed in any of the four cases. *)
Theorem deleteNote_revokeShare_statuses (socketService : bool)
    (faults : DbWrite -> option string) (userId shareId : string) (w : World)
    (loaded : ShareEntity) (note : NoteEntity) (o : User.t)
    (Hshare : Repo.findShareById shareId (db w) = Some loaded)
    (Hnote : Repo.findNote (NoteShare.noteId (shareRow loaded)) (db w) = Some note)
    (Howner : owner note = Some o)
    (Hnotowner : Note.ownerId (row note) <> userId) :
  let noteId := NoteShare.noteId (shareRow loaded) in
  let deleted := Controller.deleteNote faults (Some userId) noteId w in
  let revoked := Controller.revokeShare socketService (Some userId) shareId w in
  snd deleted = w /\ snd revoked = w
  /\ match List.find (grantsAccess userId) (shares note) with
     | Some _ =>
         fst deleted = mkResponse 400 false msgOwnerDelete None
         /\ fst revoked = mkResponse 404 false "Only the owner can revoke shares" None
     | None =>
         fst deleted = mkResponse 404 false msgNoAccess None
         /\ fst revoked = mkResponse 400 false msgNoAccess None
     end.
Proof.
  intros noteId deleted revoked. subst deleted revoked.
  pose proof (findNote_inv _ _ _ Hnote) as (_ & _ & _ & Hown & _).
  rewrite Howner in Hown. symmetry in Hown. apply findUser_id in Hown.
  assert (Hoid : String.eqb (User.id o) userId = false).
  { apply String.eqb_neq. congruence. }
  apply String.eqb_neq in Hnotowner.
  unfold Controller.deleteNote, Controller.revokeShare, Controller.handle.
  unfold deleteNote, revokeShare, bind, query. rewrite Hshare. fold noteId.
  rewrite (getNoteById_eq _ _ _ _ Hnote), Hnotowner. cbn [negb].
  destruct (List.find (grantsAccess userId) (shares note)) as [s|].
  - cbn [row owner withShares withPermission]. rewrite Hnotowner, Howner, Hoid.
    cbn [negb]. unfold throw. repeat split.
  - unfold throw. repeat split.
Qed.

Lemma deleteNote_revokeShare_statuses_witness :
  Repo.findShareById "s2" (db Demo.world)
  = Some (Repo.loadShare Demo.shareCarol Demo.store)
  /\ status (fst (Controller.deleteNote noFaults (Some "B") "n1" Demo.world)) = 400%nat
  /\ status (fst (Controller.revokeShare true (Some "B") "s2" Demo.world)) = 404%nat
  /\ status (fst (Controller.deleteNote noFaults (Some "C") "n1" Demo.world)) = 404%nat
  /\ status (fst (Controller.revokeShare true (Some "C") "s2" Demo.world)) = 400%nat.
Proof.
  assert (Hshare : Repo.findShareById "s2" (db Demo.world)
                   = Some (Repo.loadShare Demo.shareCarol Demo.store)) by reflexivity.
  split; [exact Hshare|].
  pose proof (deleteNote_revokeShare_statuses true noFaults "B" "s2" Demo.world
                _ (mkEntity Demo.note1 (Some Demo.alice)
                     [Demo.shareBob; Demo.shareCarol; Demo.sharePending;
                      Demo.shareNoEmail] None)
                Demo.alice Hshare eq_refl eq_refl ltac:(discriminate))
    as (_ & _ & HB).
  pose proof (deleteNote_revokeShare_statuses true noFaults "C" "s2" Demo.world
                _ (mkEntity Demo.note1 (Some Demo.alice)
                     [Demo.shareBob; Demo.shareCarol; Demo.sharePending;
                      Demo.shareNoEmail] None)
                Demo.alice Hshare eq_refl eq_refl ltac:(discriminate))
    as (_ & _ & HC).
  cbv zeta in HB, HC.
  change (List.find (grantsAccess "B") _) with (Some Demo.shareBob) in HB.
  change (List.find (grantsAccess "C") _) with (@None NoteShare.t) in HC.
  cbv iota in HB, HC. destruct HB as [HB1 HB2]. destruct HC as [HC1 HC2].
  change (NoteShare.noteId (shareRow (Repo.loadShare Demo.shareCarol Demo.store)))
    with "n1" in HB1, HC1.
  rewrite HB1, HB2, HC1, HC2. repeat split.
Defined.

(** ** From the invitation to the list of pending shares *)

(** X24. Once [shareNote] has returned for an email address that belongs to
    a registered user, a [getPendingShares] of that user that returns lists
    the shared note, with a token if the new token is not empty, although
    the invitation has not been accepted. *)
Theorem shareNote_then_getPendingShares (socketService nullMeansIsNull : bool)
    (newShareId newToken userId : string) (shareData : ShareNoteInput)
    (w w' w'' : World) (share : NoteShare.t) (target : User.t)
    (result : list PendingNote)
    (Hshared : shareNote socketService newShareId newToken userId shareData w
               = (Ok share, w'))
    (Htarget : Repo.findUserByEmail (share_email shareData) (db w) = Some target)
    (Hpending : getPendingShares nullMeansIsNull (User.id target) w'
                = (Ok result, w'')) :
  exists p, In p result
            /\ Note.id (pendingRow p) = share_noteId shareData
            /\ (Js.truthyStr newToken = true -> Js.truthy (pendingToken p) = true).
Proof.
  destruct (shareNote_cases socketService newShareId newToken userId shareData w)
    as [[msg Hthrow]|(note & out & Hfind & Hown & Heq)].
  { rewrite Hthrow in Hshared. discriminate. }
  rewrite Heq in Hshared. injection Hshared as <- <-.
  destruct (getPendingShares_inv _ _ _ _ _ Hpending)
    as (_ & processed & m & -> & (_ & Hfrom & Hcover) & Hrows & Hall).
  destruct (Hall (invitation newShareId newToken shareData (db w)))
    as [pending Hproc].
  - cbn [db Repo.insertShare Repo.log noteShareRepository].
    apply List.in_or_app. right. left. reflexivity.
  - left. unfold pendingForUser, invitation. rewrite Htarget.
    cbn [NoteShare.sharedWithId NoteShare.isAccepted NoteShare.isRevoked
         option_map Js.strictEq].
    rewrite String.eqb_refl. reflexivity.
  - destruct (Hcover _ _ Hproc) as (v & Hv & Htok).
    destruct (Hrows _ _ Hproc) as (_ & _ & _ & Hnid).
    exists v. split; [|split].
    + apply List.in_map_iff. exists (Note.id (row pending), v). auto.
    + destruct (Hfrom _ _ Hv) as (s2 & n2 & _ & Hk & ->). cbn [pendingRow].
      rewrite <- Hk, <- Hnid. reflexivity.
    + exact Htok.
Qed.

Lemma shareNote_then_getPendingShares_witness :
  exists share w' result,
    shareNote true "s10" "tok10" "A" (mkShareInput "n2" "b@x.com" None) Demo.library
    = (Ok share, w')
    /\ Repo.findUserByEmail "b@x.com" (db Demo.library) = Some Demo.bob
    /\ getPendingShares true "B" w' = (Ok result, w')
    /\ exists p, In p result /\ Note.id (pendingRow p) = "n2"
                 /\ Js.truthy (pendingToken p) = true.
Proof.
  assert (Hrun : exists share w' result,
             shareNote true "s10" "tok10" "A" (mkShareInput "n2" "b@x.com" None)
                       Demo.library = (Ok share, w')
             /\ getPendingShares true (User.id Demo.bob) w' = (Ok result, w')).
  { eexists _, _, _. split; vm_compute; reflexivity. }
  destruct Hrun as (share & w' & result & Hshared & Hpending).
  exists share, w', result. split; [exact Hshared|]. split; [reflexivity|].
  split; [exact Hpending|].
  destruct (shareNote_then_getPendingShares true true "s10" "tok10" "A"
              (mkShareInput "n2" "b@x.com" None) Demo.library w' w' share Demo.bob
              result Hshared eq_refl Hpending) as (p & Hp & Hnid & Htok).
  exists p. split; [exact Hp|]. split; [exact Hnid|]. apply Htok. reflexivity.
Defined.

(** ** Who hears of an accepted or declined invitation *)

Lemma notificationDeliveries_private ss userId message data r p :
  personalRooms ss ->
  In (r, p) (notificationDeliveries userId message data ss) ->
  p = Notification message data
  /\ exists c, In c (sockets ss) /\ Socket.sid c = r
               /\ authenticated c = Some userId.
Proof.
  intros [Hnames Hrooms]. unfold notificationDeliveries.
  destruct (userRooms ss !! userId) as [room|] eqn:Hreg; [|intros []].
  rewrite (Hnames _ _ Hreg). change (Js.truthyStr (userRoom userId)) with true.
  cbv iota. unfold deliveries, receivers. rewrite List.in_map_iff.
  intros (r' & [= <- <-] & Hr). apply List.in_map_iff in Hr as (c & Hsid & Hc).
  apply List.filter_In in Hc as [Hc Hin]. unfold inRoom in Hin.
  apply bool_decide_eq_true in Hin.
  split; [reflexivity|]. exists c. split; [exact Hc|]. split; [exact Hsid|].
  apply (Hrooms c Hc userId). exact Hin.
Qed.

Lemma notifyOwner_sent socketService loaded message data w :
  exists sent,
    outbox (snd (notifyOwner socketService loaded message data w)) = outbox w ++ sent
    /\ (sent = []
        \/ exists n o,
             shareNoteRel loaded = Some n /\ owner n = Some o
             /\ sent = notificationDeliveries (User.id o) message
                         (data (Note.id (row n))) (io w)).
Proof.
  unfold notifyOwner.
  assert (Hnone : exists sent : list (nat * Payload),
             outbox w = outbox w ++ sent
             /\ (sent = []
                 \/ exists n o,
                      shareNoteRel loaded = Some n /\ owner n = Some o
                      /\ sent = notificationDeliveries (User.id o) message
                                  (data (Note.id (row n))) (io w))).
  { exists []. split; [rewrite List.app_nil_r; reflexivity|left; reflexivity]. }
  destruct socketService; [|exact Hnone].
  destruct (shareNoteRel loaded) as [n|]; [|exact Hnone].
  destruct (owner n) as [o|] eqn:Ho; [|exact Hnone].
  rewrite sendUserNotification_eq. cbn [snd outbox].
  eexists. split; [reflexivity|]. right. exists n, o.
  split; [reflexivity|]. split; [exact Ho|reflexivity].
Qed.

(** X25. Start from a socket service nobody has connected to and let any
    events and calls happen.  Whatever [acceptSharedNote] and
    [declineSharedNote] then deliver, on any token and for any caller, is a
    notification to a socket authenticated as the owner of the note the
    share belongs to: nobody else hears of it. *)
Theorem accept_and_decline_tell_only_the_owner (evs : list Event) (w0 : World)
    (socketService : bool) (token userId : string)
    (Hfresh : noConnections (io w0)) :
  let w := runEvents evs w0 in
  (exists sent,
     outbox (snd (acceptSharedNote socketService token userId w)) = outbox w ++ sent
     /\ toldOnlyOwner token w sent)
  /\ (exists sent,
        outbox (snd (declineSharedNote socketService token userId w))
        = outbox w ++ sent
        /\ toldOnlyOwner token w sent).
Proof.
  intros w.
  assert (Hinv : personalRooms (io w)).
  { apply personalRooms_runEvents, personalRooms_fresh. exact Hfresh. }
  assert (Hquiet : exists sent : list (nat * Payload),
             outbox w = outbox w ++ sent /\ toldOnlyOwner token w sent).
  { exists []. split; [rewrite List.app_nil_r; reflexivity|intros ? ? []]. }
  assert (Hnotify : forall loaded saved message data,
             Repo.findShareByToken token (db w) = Some loaded ->
             exists sent,
               outbox (snd (notifyOwner socketService loaded message data
                              (mkWorld saved (io w) (outbox w))))
               = outbox w ++ sent
               /\ toldOnlyOwner token w sent).
  { intros loaded saved message data Hfind.
    destruct (notifyOwner_sent socketService loaded message data
                (mkWorld saved (io w) (outbox w)))
      as (sent & Hout & Hsent).
    exists sent. split; [exact Hout|]. intros r p Hin.
    destruct Hsent as [->|(n & o & Hn & Ho & ->)]; [destruct Hin|].
    cbn [io] in Hin.
    destruct (notificationDeliveries_private _ _ _ _ _ _ Hinv Hin)
      as (-> & c & Hc & Hsid & Hauth).
    exists loaded, n, o, c, message, (data (Note.id (row n))). auto 8. }
  split.
  - unfold acceptSharedNote, bind, query.
    destruct (Repo.findShareByToken token (db w)) as [loaded|] eqn:Hfind;
      [|exact Hquiet].
    destruct (NoteShare.isRevoked (shareRow loaded)); [exact Hquiet|].
    destruct (NoteShare.isAccepted (shareRow loaded)); [exact Hquiet|].
    destruct (Js.truthy _ && negb _); [exact Hquiet|].
    cbn [fst snd]. destruct (Repo.findUser userId (db w)) as [user|];
      [|exact Hquiet].
    destruct (Js.truthy _ && negb _); [exact Hquiet|].
    unfold write. cbn [db io outbox].
    match goal with
    | |- context [notifyOwner ?ss ?l ?m ?d (mkWorld ?saved _ _)] =>
        destruct (Hnotify l saved m d eq_refl) as (sent & Hout & Hsent);
        destruct (notifyOwner ss l m d (mkWorld saved (io w) (outbox w)))
          as [[[]|msg] w1]
    end; exists sent; (split; [exact Hout|exact Hsent]).
  - unfold declineSharedNote, bind, query.
    destruct (Repo.findShareByToken token (db w)) as [loaded|] eqn:Hfind;
      [|exact Hquiet].
    destruct (NoteShare.isRevoked (shareRow loaded)); [exact Hquiet|].
    destruct (NoteShare.isAccepted (shareRow loaded)); [exact Hquiet|].
    destruct (Js.truthy _ && negb _); [exact Hquiet|].
    cbn [fst snd]. destruct (Repo.findUser userId (db w)) as [user|];
      [|exact Hquiet].
    destruct (Js.truthy _ && negb _); [exact Hquiet|].
    unfold write. cbn [db io outbox].
    match goal with
    | |- context [notifyOwner ?ss ?l ?m ?d (mkWorld ?saved _ _)] =>
        destruct (Hnotify l saved m d eq_refl) as (sent & Hout & Hsent)
    end.
    exists sent. split; [exact Hout|exact Hsent].
Qed.

Lemma accept_and_decline_tell_only_the_owner_witness :
  noConnections (io Demo.empty)
  /\ (let w := runEvents
                 [ EvConnection 1 (Some "A");
                   EvConnection 2 (Some "B");
                   EvNoteOp (OpCreateNote "n1" "r1" "A" (mkNoteInput "T" "C1"));
                   EvShareOp true
                     (OpShareNote "s1" "tok1" "A" (mkShareInput "n1" "b@x.com" None)) ]
                 Demo.empty in
      exists sent,
        outbox (snd (acceptSharedNote true "tok1" "B" w)) = outbox w ++ sent
        /\ toldOnlyOwner "tok1" w sent
        /\ length sent = 1%nat).
Proof.
  assert (Hfresh : noConnections (io Demo.empty)) by (split; reflexivity).
  split; [exact Hfresh|]. intros w.
  destruct (accept_and_decline_tell_only_the_owner
              [ EvConnection 1 (Some "A");
                EvConnection 2 (Some "B");
                EvNoteOp (OpCreateNote "n1" "r1" "A" (mkNoteInput "T" "C1"));
                EvShareOp true
                  (OpShareNote "s1" "tok1" "A" (mkShareInput "n1" "b@x.com" None)) ]
              Demo.empty true "tok1" "B" Hfresh) as [(sent & Hout & Honly) _].
  fold w in Hout, Honly. exists sent. split; [exact Hout|]. split; [exact Honly|].
  assert (Hlen : length (outbox (snd (acceptSharedNote true "tok1" "B" w)))
                 = S (length (outbox w))) by (vm_compute; reflexivity).
  rewrite Hout, List.length_app in Hlen. lia.
Defined.

(** ** Archiving *)




